(** * GameWikiOverlay (Python port): orchestration core, configuration store
      and hotkey registrar

    A shallow embedding of
      - [game_wiki_overlay/common/data_models.py]
      - [game_wiki_overlay/config_manager.py]
      - [game_wiki_overlay/core/hotkey_manager.py]
      - [game_wiki_overlay/app_logic.py]
      - the parts of [ui/webview_popup.py] and [ui/search_prompt_dialog.py]
        that the orchestrator drives,
      - the cursor functions of [core/window_utils.py], the hotkey form of
        [ui/main_window.py] and the hotkey callbacks,
    followed by the properties of the natural-language specification that
    can be settled on it, and by further properties of the code.

    Conventions.
      - A Python [str] is a Rocq [string]: the sequence of its UTF-8 bytes.
        [in], [startswith], [replace] and [quote_plus] act on that sequence
        exactly as Python acts on the text; [lower] and [strip] are the
        ASCII restrictions of the Python methods.  [isdigit] and [int] are
        computed where the text is ASCII; beyond it they are what the
        interpreter's Unicode tables make them, an argument of the model.
      - A Python [float] that is stored and written back, never computed
        with, is the rational it stands for: the model holds finite
        values only.
      - A [dict] whose iteration order matters (the game catalog, a parsed
        JSON object) is an association list in insertion order; the
        [KeywordMap], only ever queried with [get], is a [gmap].
      - Stateful methods are state-passing functions that also return the
        trace of what they did: log records, calls on the platform, effects
        on windows.  What the outside world decides (the window title, the
        dialog's answer, whether the platform or the file system accepts a
        call) is an explicit argument or part of the state.
      - An exception is a result of its own; [try]/[except] is modelled
        clause by clause, so that an exception no clause names leaves the
        function.
      - Libraries outside the repository are modelled at their interface:
        [json.load] by the value it returns, pydantic by validators that
        the configuration store takes as arguments, Qt and pynput by the
        calls made on them.  Rendering, threads and locks are not
        modelled; every method runs to completion on the control thread. *)

From stdpp Require Import gmap strings list pretty.
From Stdlib Require Import ZArith QArith Qround Ascii.
Close Scope Q_scope.

(* ===================================================================== *)
(** * Python string methods *)
(* ===================================================================== *)

Module PyStr.

(** One character of [str.lower()], ASCII range. *)
Definition lower_ascii (c : ascii) : ascii :=
  let n := N_of_ascii c in
  if ((65 <=? n) && (n <=? 90))%N then ascii_of_N (n + 32) else c.

(** [s.lower()] *)
Fixpoint lower (s : string) : string :=
  match s with
  | EmptyString => EmptyString
  | String c r => String (lower_ascii c) (lower r)
  end.

(** [s.startswith(p)] *)
Fixpoint startswith (p s : string) : bool :=
  match p, s with
  | EmptyString, _ => true
  | String a p', String b s' => if decide (a = b) then startswith p' s' else false
  | String _ _, EmptyString => false
  end.

(** [needle in hay] *)
Fixpoint contains (needle hay : string) : bool :=
  startswith needle hay ||
  match hay with
  | EmptyString => false
  | String _ r => contains needle r
  end.

(** [s.replace(old, new)] for a non-empty [old]: left to right, without
    overlap.  [skip] counts the characters of the occurrence just
    replaced that are still to be dropped. *)
Fixpoint replace_from (skip : nat) (old new s : string) : string :=
  match s with
  | EmptyString => EmptyString
  | String c r =>
      match skip with
      | S k => replace_from k old new r
      | O =>
          if startswith old s
          then new +:+ replace_from (String.length old - 1) old new r
          else String c (replace_from O old new r)
      end
  end.

(** [s.replace("", new)] puts [new] before every character and at the
    end. *)
Fixpoint intersperse (new s : string) : string :=
  match s with
  | EmptyString => new
  | String c r => new +:+ String c (intersperse new r)
  end.

Definition replace (s old new : string) : string :=
  match old with
  | EmptyString => intersperse new s
  | String _ _ => replace_from O old new s
  end.

(** The characters [urllib.parse.quote] never escapes:
    letters, digits and [_.-~]. *)
Definition always_safe (c : ascii) : bool :=
  let n := N_of_ascii c in
  (((65 <=? n) && (n <=? 90)) || ((97 <=? n) && (n <=? 122))
   || ((48 <=? n) && (n <=? 57))
   || (n =? 95) || (n =? 46) || (n =? 45) || (n =? 126))%N.

Definition hex_digit (n : N) : ascii :=
  if (n <? 10)%N then ascii_of_N (48 + n) else ascii_of_N (55 + n).

(** [urllib.parse.quote_plus(s)] with the default empty [safe]:
    a space becomes [+], a safe character stays, any other byte becomes
    [%XX] with upper-case hexadecimal digits. *)
Definition quote_plus_char (c : ascii) : string :=
  let n := N_of_ascii c in
  if (n =? 32)%N then "+"
  else if always_safe c then String c EmptyString
  else String "%"%char
         (String (hex_digit (n / 16)) (String (hex_digit (n mod 16)) EmptyString)).

Fixpoint quote_plus (s : string) : string :=
  match s with
  | EmptyString => EmptyString
  | String c r => quote_plus_char c +:+ quote_plus r
  end.

(** Whitespace for [str.strip()], ASCII range. *)
Definition is_space (c : ascii) : bool :=
  let n := N_of_ascii c in
  (((9 <=? n) && (n <=? 13)) || ((28 <=? n) && (n <=? 32)))%N.

Fixpoint lstrip (s : string) : string :=
  match s with
  | EmptyString => EmptyString
  | String c r => if is_space c then lstrip r else s
  end.

(** [s.rstrip()]: a character is kept unless it and all that follows is
    whitespace. *)
Fixpoint rstrip (s : string) : string :=
  match s with
  | EmptyString => EmptyString
  | String c r =>
      match rstrip r with
      | EmptyString => if is_space c then EmptyString else String c EmptyString
      | r' => String c r'
      end
  end.

(** [s.strip()] *)
Definition strip (s : string) : string := rstrip (lstrip s).

Definition is_digit (c : ascii) : bool :=
  let n := N_of_ascii c in ((48 <=? n) && (n <=? 57))%N.

Fixpoint all_digits (s : string) : bool :=
  match s with
  | EmptyString => true
  | String c r => is_digit c && all_digits r
  end.

(** [s.isascii()] *)
Fixpoint isascii (s : string) : bool :=
  match s with
  | EmptyString => true
  | String c r => (N_of_ascii c <? 128)%N && isascii r
  end.

(** What the interpreter decides where the ASCII text does not.
    On a string with a character outside ASCII, [isdigit] and [int]
    follow the Unicode tables: a superscript two is a digit that [int]
    does not convert, an Arabic-Indic one is converted.  And [int]
    refuses a string of more digits than
    [sys.get_int_max_str_digits()], which is 4300 unless it was set
    otherwise, 0 where no limit is kept. *)
Record Interpreter := mkInterpreter {
  int_max_str_digits : nat;
  unicode_isdigit : string -> bool;
  unicode_int : string -> option N
}.

(** [sys.int_info.str_digits_check_threshold]: the limit is 0 or at
    least this, and shorter strings are not checked against it. *)
Definition str_digits_check_threshold : nat := 640.

(** [s.isdigit()]: at least one character, all of them digits. *)
Definition isdigit (py : Interpreter) (s : string) : bool :=
  if isascii s
  then match s with
       | EmptyString => false
       | String _ _ => all_digits s
       end
  else unicode_isdigit py s.

(** The value of a string of ASCII digits. *)
Fixpoint int_digits (acc : N) (s : string) : N :=
  match s with
  | EmptyString => acc
  | String c r => int_digits (10 * acc + (N_of_ascii c - 48))%N r
  end.

(** [int(s)] for a string [s] on which [isdigit] holds; [None] where it
    raises [ValueError]. *)
Definition int (py : Interpreter) (s : string) : option N :=
  if isascii s
  then if (str_digits_check_threshold <? String.length s)%nat
          && (0 <? int_max_str_digits py)%nat
          && (int_max_str_digits py <? String.length s)%nat
       then None
       else Some (int_digits 0%N s)
  else unicode_int py s.

(** [sep.join(parts)] *)
Fixpoint join (sep : string) (parts : list string) : string :=
  match parts with
  | [] => EmptyString
  | [p] => p
  | p :: rest => p +:+ sep +:+ join sep rest
  end.

(** Truth value of a [str]: non-empty. *)
Definition truthy (s : string) : bool :=
  match s with EmptyString => false | String _ _ => true end.

(** Truth value of an [Optional[str]]: neither [None] nor empty. *)
Definition truthy_opt (s : option string) : bool :=
  match s with Some s' => truthy s' | None => false end.

End PyStr.

(* ===================================================================== *)
(** * common/data_models.py *)
(* ===================================================================== *)

Record GameConfig := mkGameConfig {
  BaseUrl : string;
  NeedsSearch : bool;
  SearchTemplate : option string;
  KeywordMap : option (gmap string string)
}.

Record HotkeyConfig := mkHotkeyConfig {
  Key : string;
  Modifiers : list string
}.

(** The four fields are Python floats that are stored and written back,
    never computed with; a rational stands for the value, which is
    finite. *)
Record PopupConfig := mkPopupConfig {
  Width : Q;
  Height : Q;
  Left : Q;
  Top : Q
}.

Record AppSettings := mkAppSettings {
  Hotkey : HotkeyConfig;
  Popup : PopupConfig
}.

(** [PopupConfig()]: the field defaults of the model. *)
Definition PopupConfig_default : PopupConfig :=
  mkPopupConfig (800 # 1)%Q (600 # 1)%Q (100 # 1)%Q (100 # 1)%Q.

(* ===================================================================== *)
(** * Python runtime: exceptions, results, dictionaries, JSON values *)
(* ===================================================================== *)

(** The exception classes that occur in the modelled code. *)
Inductive PyExn :=
| TypeError | AttributeError | RuntimeError | ValueError | NameError
| RecursionError | UnicodeDecodeError
| OSError | FileNotFoundError | PermissionError
| JSONDecodeError | PydanticValidationError.

(** [except IOError] (an alias of [OSError]) also catches its subclasses. *)
Definition is_OSError (e : PyExn) : bool :=
  match e with
  | OSError | FileNotFoundError | PermissionError => true
  | _ => false
  end.

(** Levels of the [logging] module, and a log record. *)
Inductive Level := DEBUG | INFO | WARNING | ERROR | CRITICAL.

Inductive LogRecord := Log (lvl : Level) (msg : string).

(** Outcome of a call: a value, or an exception that left the function. *)
Inductive Res (A : Type) :=
| Ret (a : A)
| Raise (e : PyExn).
Arguments Ret {A} a.
Arguments Raise {A} e.

(** A computation over a state [S] that appends records of type [L] to a
    trace (the log, or the sequence of observable effects) and may raise.
    The state at the moment an exception is raised is kept: mutations made
    before a [raise] are not undone in Python either. *)
Definition M (S L A : Type) : Type := S -> Res A * S * list L.

Definition ret {S L A} (a : A) : M S L A := fun s => (Ret a, s, []).

Definition bind {S L A B} (m : M S L A) (f : A -> M S L B) : M S L B :=
  fun s =>
    match m s with
    | (Ret a, s1, l1) =>
        match f a s1 with
        | (r, s2, l2) => (r, s2, l1 ++ l2)
        end
    | (Raise e, s1, l1) => (Raise e, s1, l1)
    end.

Definition raise {S L A} (e : PyExn) : M S L A := fun s => (Raise e, s, []).

(** The outcome of evaluating an expression, as a step of a method. *)
Definition evaluate {S L A} (r : Res A) : M S L A := fun s => (r, s, []).

Definition emit {S L} (l : L) : M S L unit := fun s => (Ret tt, s, [l]).

Definition get {S L} : M S L S := fun s => (Ret s, s, []).

Definition put {S L} (s : S) : M S L unit := fun _ => (Ret tt, s, []).

Definition modify {S L} (f : S -> S) : M S L unit := fun s => (Ret tt, f s, []).

(** [try: m  except Exception as e: h e] *)
Definition try_except {S L A} (m : M S L A) (h : PyExn -> M S L A) : M S L A :=
  fun s =>
    match m s with
    | (Ret a, s1, l1) => (Ret a, s1, l1)
    | (Raise e, s1, l1) =>
        match h e s1 with
        | (r, s2, l2) => (r, s2, l1 ++ l2)
        end
    end.

(** The outcome of a run, with [l] put in front of its trace. *)
Definition prepend {S L A} (l : list L) (x : Res A * S * list L) : Res A * S * list L :=
  match x with (r, s, l') => (r, s, l ++ l') end.

Global Instance M_ret {S L} : MRet (M S L) := fun A a => ret a.
Global Instance M_bind {S L} : MBind (M S L) := fun A B f m => bind m f.

(** A [dict] in insertion order. *)
Module PyDict.

(** [d[k] = v]: an existing key keeps its place. *)
Fixpoint set {V} (d : list (string * V)) (k : string) (v : V) : list (string * V) :=
  match d with
  | [] => [(k, v)]
  | (k', v') :: r =>
      if decide (k = k') then (k, v) :: r else (k', v') :: set r k v
  end.

(** [d.get(k)] *)
Fixpoint get {V} (d : list (string * V)) (k : string) : option V :=
  match d with
  | [] => None
  | (k', v) :: r => if decide (k = k') then Some v else get r k
  end.

End PyDict.

(** What [json.load] returns; of the numbers, the finite ones ([Infinity]
    and [NaN], which it also reads, have no value here). *)
#[local] Set Warnings "-register-all".
Inductive json :=
| JNull
| JBool (b : bool)
| JInt (z : Z)
| JFloat (q : Q)
| JStr (s : string)
| JArr (items : list json)
| JObj (members : list (string * json)).

(** Calling a model class on [data] unpacked as keyword arguments (the
    double-star call of the source): Python unpacks first, which raises
    [TypeError] unless [data] is a mapping; only then does the model's
    validation run and accept the fields or raise [ValidationError]. *)
Inductive Construct (A : Type) :=
| Built (a : A)
| ValidationError
| NotAMapping.
Arguments Built {A} a.
Arguments ValidationError {A}.
Arguments NotAMapping {A}.

Definition construct {A} (validate : list (string * json) -> option A)
    (data : json) : Construct A :=
  match data with
  | JObj members =>
      match validate members with
      | Some a => Built a
      | None => ValidationError
      end
  | _ => NotAMapping
  end.

(** ** The schemas of [data_models.py] as validators

    pydantic's validation of JSON-shaped input against the four models:
    a [str] field takes a string only; a [bool] field also takes 0/1 and the
    usual words; a [float] field takes a JSON number; an [Optional] field
    takes [null]; a missing field takes its default or, without one, fails;
    members that are no field are ignored.  These validators serve the
    examples.  They know the finite numbers a document of the examples
    holds, not the numeric strings and truth values pydantic also
    converts to a [float], nor [Infinity] and [NaN], which [json.load]
    reads and pydantic writes back as [null].  The functions of the
    configuration store below take the validator as an argument, so what
    is proved about them holds for any validator, pydantic's own
    included. *)
Module Pydantic.

Definition str_field (v : json) : option string :=
  match v with JStr s => Some s | _ => None end.

Definition bool_words_true : list string := ["1"; "on"; "t"; "true"; "y"; "yes"].
Definition bool_words_false : list string := ["0"; "off"; "f"; "false"; "n"; "no"].

Definition bool_field (v : json) : option bool :=
  match v with
  | JBool b => Some b
  | JInt z => if decide (z = 0%Z) then Some false
              else if decide (z = 1%Z) then Some true else None
  | JFloat q => if Qeq_bool q (0 # 1)%Q then Some false
                else if Qeq_bool q (1 # 1)%Q then Some true else None
  | JStr s =>
      if bool_decide (PyStr.lower s ∈ bool_words_true) then Some true
      else if bool_decide (PyStr.lower s ∈ bool_words_false) then Some false
      else None
  | _ => None
  end.

Definition float_field (v : json) : option Q :=
  match v with
  | JInt z => Some (inject_Z z)
  | JFloat q => Some q
  | _ => None
  end.

Definition optional {A} (f : json -> option A) (v : json) : option (option A) :=
  match v with
  | JNull => Some None
  | _ => option_map Some (f v)
  end.

Fixpoint str_list (items : list json) : option (list string) :=
  match items with
  | [] => Some []
  | v :: r =>
      match str_field v, str_list r with
      | Some s, Some l => Some (s :: l)
      | _, _ => None
      end
  end.

Definition str_list_field (v : json) : option (list string) :=
  match v with JArr items => str_list items | _ => None end.

(** A JSON object read as [Dict[str, str]]; a member met later replaces
    an earlier one of the same name. *)
Fixpoint str_dict (acc : gmap string string) (members : list (string * json))
    : option (gmap string string) :=
  match members with
  | [] => Some acc
  | (k, v) :: r =>
      match str_field v with
      | Some s => str_dict (<[k := s]> acc) r
      | None => None
      end
  end.

Definition str_dict_field (v : json) : option (gmap string string) :=
  match v with JObj members => str_dict ∅ members | _ => None end.

(** A field with a default: absent gives the default, present must
    validate. *)
Definition with_default {A} (f : json -> option A) (dflt : A)
    (members : list (string * json)) (name : string) : option A :=
  match PyDict.get members name with
  | None => Some dflt
  | Some v => f v
  end.

Definition required {A} (f : json -> option A)
    (members : list (string * json)) (name : string) : option A :=
  match PyDict.get members name with
  | None => None
  | Some v => f v
  end.

Definition GameConfig_validate (members : list (string * json)) : option GameConfig :=
  match required str_field members "BaseUrl",
        with_default bool_field true members "NeedsSearch",
        with_default (optional str_field) None members "SearchTemplate",
        with_default (optional str_dict_field) None members "KeywordMap" with
  | Some b, Some n, Some t, Some k => Some (mkGameConfig b n t k)
  | _, _, _, _ => None
  end.

Definition HotkeyConfig_validate (members : list (string * json)) : option HotkeyConfig :=
  match required str_field members "Key",
        with_default str_list_field [] members "Modifiers" with
  | Some k, Some m => Some (mkHotkeyConfig k m)
  | _, _ => None
  end.

Definition PopupConfig_validate (members : list (string * json)) : option PopupConfig :=
  match with_default float_field (800 # 1)%Q members "Width",
        with_default float_field (600 # 1)%Q members "Height",
        with_default float_field (100 # 1)%Q members "Left",
        with_default float_field (100 # 1)%Q members "Top" with
  | Some w, Some h, Some l, Some t => Some (mkPopupConfig w h l t)
  | _, _, _, _ => None
  end.

Definition nested {A} (validate : list (string * json) -> option A) (v : json) : option A :=
  match v with JObj members => validate members | _ => None end.

Definition AppSettings_validate (members : list (string * json)) : option AppSettings :=
  match required (nested HotkeyConfig_validate) members "Hotkey",
        required (nested PopupConfig_validate) members "Popup" with
  | Some h, Some p => Some (mkAppSettings h p)
  | _, _ => None
  end.

(** [settings.model_dump_json()], as the value [json.load] reads back. *)
Definition AppSettings_dump (s : AppSettings) : json :=
  JObj [ ("Hotkey", JObj [ ("Key", JStr (Key (Hotkey s)));
                           ("Modifiers", JArr (map JStr (Modifiers (Hotkey s)))) ]);
         ("Popup", JObj [ ("Width", JFloat (Width (Popup s)));
                          ("Height", JFloat (Height (Popup s)));
                          ("Left", JFloat (Left (Popup s)));
                          ("Top", JFloat (Top (Popup s))) ]) ].

End Pydantic.

(* ===================================================================== *)
(** * config_manager.py *)
(* ===================================================================== *)

Module ConfigManager.

(** Why [json.load] gives up on a text without calling it malformed:
    it is nested deeper than the interpreter recurses, it holds an
    integer literal of more digits than the interpreter converts, or
    its bytes are no text in the encoding [open] reads with. *)
Inductive DecoderFailure := TooDeep | IntegerTooLong | NotText.

Definition decoder_exception (why : DecoderFailure) : PyExn :=
  match why with
  | TooDeep => RecursionError
  | IntegerTooLong => ValueError
  | NotText => UnicodeDecodeError
  end.

(** A file is known by what [json.load] makes of it: text that is no
    JSON, for which it raises [JSONDecodeError]; the decoded value; or
    text it gives up on with another exception. *)
Inductive FileContent :=
| Garbage (raw : string)
| Document (j : json)
| Refused (raw : string) (why : DecoderFailure).

Record File := mkFile {
  content : FileContent;
  readable : bool;
  writable : bool
}.

(** The paths the manager touches, and what the file system allows:
    [user_config_dir] tells whether the user directory exists,
    [makedirs_ok] whether creating it succeeds, [create_ok] whether a
    new file may be created in it.  A path holds the file that is seen
    there, if any.  Where the catalog is not seen,
    [games_path_stat_fails] tells whether that is because [stat] failed
    on the path with an error that [exists()] passes on, as it does
    when a directory on the way may not be searched, rather than
    because nothing is there. *)
Record Disk := mkDisk {
  user_config_dir : bool;
  makedirs_ok : bool;
  create_ok : bool;
  user_settings_path : option File;
  default_settings_path : option File;
  default_games_config_path : option File;
  games_path_stat_fails : bool
}.

Definition with_user_config_dir (d : Disk) (b : bool) : Disk :=
  mkDisk b (makedirs_ok d) (create_ok d) (user_settings_path d)
         (default_settings_path d) (default_games_config_path d)
         (games_path_stat_fails d).

Definition with_user_settings (d : Disk) (f : option File) : Disk :=
  mkDisk (user_config_dir d) (makedirs_ok d) (create_ok d) f
         (default_settings_path d) (default_games_config_path d)
         (games_path_stat_fails d).

Abbreviation CM := (M Disk LogRecord).

Definition log (lvl : Level) (msg : string) : CM unit := emit (Log lvl msg).

(** [open(path, 'r')] followed by reading the whole file. *)
Definition open_read (f : option File) : CM FileContent :=
  match f with
  | None => raise FileNotFoundError
  | Some f => if readable f then ret (content f) else raise PermissionError
  end.

(** [json.load(f)] *)
Definition json_load (c : FileContent) : CM json :=
  match c with
  | Garbage _ => raise JSONDecodeError
  | Document j => ret j
  | Refused _ why => raise (decoder_exception why)
  end.

(** [self.default_games_config_path.exists()]: the answer of [stat],
    unless [stat] fails with an error that is not taken for absence;
    then [exists] raises it. *)
Definition default_games_config_path_exists : CM bool :=
  d ← get;
  match default_games_config_path d with
  | Some _ => ret true
  | None => if games_path_stat_fails d then raise PermissionError else ret false
  end.

(** Opening the user settings file for writing and replacing what it
    holds.  An existing file must be writable; a new one needs the
    directory and the right to create a file in it. *)
Definition write_user_settings (c : FileContent) : CM unit :=
  d ← get;
  match user_settings_path d with
  | Some f =>
      if writable f
      then put (with_user_settings d (Some (mkFile c (readable f) true)))
      else raise PermissionError
  | None =>
      if negb (user_config_dir d) then raise FileNotFoundError
      else if create_ok d
           then put (with_user_settings d (Some (mkFile c true true)))
           else raise PermissionError
  end.

(** [shutil.copy(self.default_settings_path, self.user_settings_path)]:
    content and permission bits. *)
Definition shutil_copy : CM unit :=
  d ← get;
  src ← open_read (default_settings_path d);
  write_user_settings src;;
  d' ← get;
  match default_settings_path d, user_settings_path d' with
  | Some s, Some _ => put (with_user_settings d' (Some s))
  | _, _ => ret tt
  end.

Definition _ensure_config_dir_exists : CM unit :=
  d ← get;
  if user_config_dir d then ret tt
  else if makedirs_ok d
       then put (with_user_config_dir d true);;
            log INFO "Created user config directory"
       else log ERROR "Error creating user config directory";;
            raise OSError.

Definition _get_default_hotkey_config : HotkeyConfig :=
  mkHotkeyConfig "F1" ["Ctrl"].

Definition _get_default_popup_config : PopupConfig := PopupConfig_default.

Definition save_settings (settings : AppSettings) : CM unit :=
  _ensure_config_dir_exists;;
  try_except
    (write_user_settings (Document (Pydantic.AppSettings_dump settings));;
     log INFO "Settings saved")
    (fun e =>
       if is_OSError e then log ERROR "Error saving settings"
       else match e with
            | PydanticValidationError =>
                log ERROR "Validation error when trying to serialize settings"
            | _ => raise e
            end).

(** The four places of [load_settings] that build the hardcoded defaults,
    save them and return them. *)
Definition default_settings : AppSettings :=
  mkAppSettings _get_default_hotkey_config _get_default_popup_config.

Definition save_and_return_defaults : CM AppSettings :=
  save_settings default_settings;;
  ret default_settings.

Section Validators.

Variable validate_AppSettings : list (string * json) -> option AppSettings.
Variable validate_GameConfig : list (string * json) -> option GameConfig.

(** The body of the [try] of [load_settings]. *)
Definition read_user_settings : CM AppSettings :=
  d ← get;
  c ← open_read (user_settings_path d);
  data ← json_load c;
  match construct validate_AppSettings data with
  | Built s => ret s
  | ValidationError => raise PydanticValidationError
  | NotAMapping => raise TypeError
  end.

(** [load_settings].  The first part returns [Some] where the source
    returns from inside the "no user file" branch. *)
Definition load_settings : CM AppSettings :=
  d ← get;
  early ← match user_settings_path d with
          | Some _ => ret None
          | None =>
              log INFO "User settings file not found. Attempting to use defaults.";;
              match default_settings_path d with
              | Some _ =>
                  try_except
                    (shutil_copy;;
                     log INFO "Copied default settings";;
                     ret None)
                    (fun e =>
                       if is_OSError e
                       then log ERROR "Error copying default settings";;
                            s ← save_and_return_defaults;
                            ret (Some s)
                       else raise e)
              | None =>
                  log WARNING "Default settings file not found. Creating new default settings.";;
                  s ← save_and_return_defaults;
                  ret (Some s)
              end
          end;
  match early with
  | Some s => ret s
  | None =>
      try_except read_user_settings
        (fun e =>
           match e with
           | FileNotFoundError =>
               log ERROR "Settings file not found despite earlier checks.";;
               save_and_return_defaults
           | JSONDecodeError =>
               log ERROR "Error decoding JSON from settings file";;
               log INFO "Attempting to load/create fresh default settings due to JSON error.";;
               save_and_return_defaults
           | PydanticValidationError =>
               log ERROR "Validation error for settings data";;
               save_and_return_defaults
           | _ => raise e
           end)
  end.

(** The [for] loop of [load_game_configs]: only [ValidationError] is
    caught per entry. *)
Fixpoint load_entries (items : list (string * json))
    (game_configs : list (string * GameConfig)) : CM (list (string * GameConfig)) :=
  match items with
  | [] => ret game_configs
  | (game_name, config_data) :: rest =>
      match construct validate_GameConfig config_data with
      | Built cfg => load_entries rest (PyDict.set game_configs game_name cfg)
      | ValidationError =>
          log ERROR ("Validation error for game '" +:+ game_name +:+ "'");;
          load_entries rest game_configs
      | NotAMapping => raise TypeError
      end
  end.

(** [data.items()] *)
Definition items (data : json) : CM (list (string * json)) :=
  match data with
  | JObj members => ret members
  | _ => raise AttributeError
  end.

(** [load_game_configs].  The existence test of line 136 stands before
    the [try]. *)
Definition load_game_configs : CM (list (string * GameConfig)) :=
  found ← default_games_config_path_exists;
  if negb found
  then
    log WARNING "Default game config file not found. Returning empty config.";;
    ret []
  else
    try_except
      (d ← get;
       c ← open_read (default_games_config_path d);
       data ← json_load c;
       its ← items data;
       game_configs ← load_entries its [];
       log INFO "Successfully loaded game configs";;
       ret game_configs)
      (fun e =>
         match e with
         | FileNotFoundError =>
             log ERROR "Game config file not found despite earlier checks.";;
             ret []
         | JSONDecodeError =>
             log ERROR "Error decoding JSON from game config file";;
             ret []
         | _ =>
             log ERROR "An unexpected error occurred while loading game configs";;
             ret []
         end).

End Validators.

End ConfigManager.

(* ===================================================================== *)
(** * core/hotkey_manager.py *)
(* ===================================================================== *)

Module HotkeyManager.

(** A callback is known by its identity. *)
Definition Callback := nat.

(** A [pynput.keyboard.GlobalHotKeys] object: the one combination of its
    [hotkey_actions] (always bound to [_on_press_internal]) and whether
    its thread was started. *)
Record Listener := mkListener {
  combination : string;
  started : bool
}.

Record State := mkState {
  on_hotkey_pressed_callback : option Callback;
  listener : option Listener;
  current_hotkey_config : option HotkeyConfig;
  hotkey_active : bool
}.

(** [HotkeyManager.__init__] *)
Definition init (cb : option Callback) : State := mkState cb None None false.

(** What the surroundings answer: pynput to the calls made on it, and
    the interpreter where the text of a key does not settle what
    [isdigit] and [int] make of it. *)
Record Platform := mkPlatform {
  accepts : string -> bool;      (* GlobalHotKeys(hotkey_actions) returns *)
  starts : string -> bool;       (* listener.start() returns *)
  stops : Listener -> bool;      (* listener.stop() returns *)
  joins : Listener -> bool;      (* listener.join(timeout=1) returns *)
  python : PyStr.Interpreter
}.

(** Observable effects: log records and the calls on the platform. *)
Inductive Effect :=
| Logged (lvl : Level) (msg : string)
| Create (hk : string)
| Start (hk : string)
| Stop (l : Listener)
| Join (l : Listener).

Abbreviation HM := (M State Effect).

Definition log (lvl : Level) (msg : string) : HM unit := emit (Logged lvl msg).

Definition set_callback (cb : option Callback) (s : State) : State :=
  mkState cb (listener s) (current_hotkey_config s) (hotkey_active s).
Definition set_listener (l : option Listener) (s : State) : State :=
  mkState (on_hotkey_pressed_callback s) l (current_hotkey_config s) (hotkey_active s).
Definition set_current_hotkey_config (c : option HotkeyConfig) (s : State) : State :=
  mkState (on_hotkey_pressed_callback s) (listener s) c (hotkey_active s).
Definition set_hotkey_active (b : bool) (s : State) : State :=
  mkState (on_hotkey_pressed_callback s) (listener s) (current_hotkey_config s) b.

(** [modifier_map.get(mod)] *)
Definition modifier_map (m : string) : option string :=
  if decide (m = "Ctrl") then Some "ctrl"
  else if decide (m = "Shift") then Some "shift"
  else if decide (m = "Alt") then Some "alt"
  else if decide (m = "Win") then Some "cmd"
  else None.

(** The loop over [hotkey_config.Modifiers]. *)
Fixpoint parse_modifiers (mods : list string) (parts : list string) : HM (list string) :=
  match mods with
  | [] => ret parts
  | m :: rest =>
      match modifier_map m with
      | Some pynput_mod =>
          if PyStr.truthy pynput_mod
          then parse_modifiers rest (parts ++ ["<" +:+ pynput_mod +:+ ">"])
          else log WARNING ("Unknown modifier: " +:+ m);; parse_modifiers rest parts
      | None => log WARNING ("Unknown modifier: " +:+ m);; parse_modifiers rest parts
      end
  end.

(** [key_lower[1:]] *)
Definition tail (s : string) : string :=
  match s with EmptyString => EmptyString | String _ r => r end.

Section WithPlatform.

Variable platform : Platform.

(** The expression of line 69.  [and] evaluates its right operand only
    when the left one holds, so [int] is reached only for an [f]
    followed by digits; there it raises [ValueError] where the
    interpreter does not convert the digits. *)
Definition is_f_key (key_lower : string) : Res bool :=
  if PyStr.startswith "f" key_lower
  then if PyStr.isdigit (python platform) (tail key_lower)
       then match PyStr.int (python platform) (tail key_lower) with
            | Some n => Ret ((1 <=? n)%N && (n <=? 12)%N)
            | None => Raise ValueError
            end
       else Ret false
  else Ret false.

Definition _parse_hotkey (hotkey_config : option HotkeyConfig) : HM (option string) :=
  match hotkey_config with
  | None => ret None
  | Some cfg =>
      parts ← parse_modifiers (Modifiers cfg) [];
      let key_lower := PyStr.lower (Key cfg) in
      is_f_key ← evaluate (is_f_key key_lower);
      let parts :=
        if (is_f_key : bool) then parts ++ ["<" +:+ key_lower +:+ ">"]
        else if (1 <? String.length key_lower)%nat then parts ++ ["<" +:+ key_lower +:+ ">"]
        else parts ++ [key_lower] in
      let parsed_string := PyStr.join "+" parts in
      log DEBUG ("Parsed hotkey string: " +:+ parsed_string);;
      ret (Some parsed_string)
  end.

(** Assumes the lock is held.  The [finally] drops the reference
    whatever [stop] and [join] did. *)
Definition _stop_listener_internal : HM unit :=
  s ← get;
  match listener s with
  | Some l =>
      try_except
        ((if stops platform l then emit (Stop l) else raise RuntimeError);;
         (if joins platform l then emit (Join l) else raise RuntimeError))
        (fun _ => log ERROR "Error stopping listener");;
      modify (set_listener None)
  | None => ret tt
  end;;
  modify (set_hotkey_active false).

(** Lines 112-128: the [try] that creates and starts the listener, and
    its [except Exception]. *)
Definition start_listener (parsed_hotkey_str : string) : HM bool :=
  try_except
    ((if accepts platform parsed_hotkey_str
      then emit (Create parsed_hotkey_str) else raise ValueError);;
     modify (set_listener (Some (mkListener parsed_hotkey_str false)));;
     (if starts platform parsed_hotkey_str
      then emit (Start parsed_hotkey_str) else raise RuntimeError);;
     modify (set_listener (Some (mkListener parsed_hotkey_str true)));;
     modify (set_hotkey_active true);;
     log INFO ("Global hotkey '" +:+ parsed_hotkey_str +:+ "' registered successfully.");;
     ret true)
    (fun _ =>
       log ERROR ("Failed to register global hotkey '" +:+ parsed_hotkey_str +:+ "'");;
       modify (set_current_hotkey_config None);;
       s ← get;
       match listener s with
       | Some _ => _stop_listener_internal
       | None => ret tt
       end;;
       ret false).

(** [register_global_hotkey], run under [self._lock]. *)
Definition register_global_hotkey (hotkey_config : option HotkeyConfig)
    (on_hotkey_pressed_callback : option Callback) : HM bool :=
  match on_hotkey_pressed_callback with
  | Some cb => modify (set_callback (Some cb))
  | None => ret tt
  end;;
  match hotkey_config with
  | None =>
      log ERROR "Cannot register hotkey: Invalid HotkeyConfig provided.";;
      ret false
  | Some cfg =>
      if negb (PyStr.truthy (Key cfg))
      then log ERROR "Cannot register hotkey: Invalid HotkeyConfig provided.";;
           ret false
      else
        modify (set_current_hotkey_config (Some cfg));;
        parsed_hotkey_str ← _parse_hotkey (Some cfg);
        if PyStr.truthy_opt parsed_hotkey_str
        then
          s ← get;
          match listener s with
          | Some _ =>
              log INFO "Stopping existing listener before registering new hotkey.";;
              _stop_listener_internal
          | None => ret tt
          end;;
          start_listener (default EmptyString parsed_hotkey_str)
        else
          log ERROR "Failed to parse hotkey configuration.";;
          ret false
  end.

Definition unregister_global_hotkey : HM unit :=
  _stop_listener_internal;;
  log INFO "Global hotkey unregistered.".

Definition reregister_hotkeys (hotkey_config : HotkeyConfig)
    (on_hotkey_pressed_callback : option Callback) : HM bool :=
  log INFO "Reregistering hotkeys";;
  unregister_global_hotkey;;
  register_global_hotkey (Some hotkey_config) on_hotkey_pressed_callback.

Definition stop_listener_if_running : HM unit :=
  log INFO "HotkeyManager stopping listener if running...";;
  unregister_global_hotkey.

End WithPlatform.

End HotkeyManager.

(* ===================================================================== *)
(** * ui/search_prompt_dialog.py *)
(* ===================================================================== *)

Module SearchPromptDialog.

Inductive DialogCode := ACCEPTED | REJECTED | OPEN_LAST.

(** [DialogCode(result_code_int)], with 1 and 0 for Qt's Accepted and
    Rejected as the source notes; [None] stands for the [ValueError] of
    a value that is no member. *)
Definition DialogCode_of_int (v : Z) : option DialogCode :=
  if decide (v = 1%Z) then Some ACCEPTED
  else if decide (v = 0%Z) then Some REJECTED
  else if decide (v = 2%Z) then Some OPEN_LAST
  else None.

(** [exec_dialog]: [result_code_int] is what the modal [exec()] returned
    and [text] what the input field held then. *)
Definition exec_dialog (last_search_term : option string)
    (result_code_int : Z) (text : string) : DialogCode * option string :=
  let final_result_code :=
    match DialogCode_of_int result_code_int with
    | Some c => c
    | None => REJECTED
    end in
  let search_term :=
    match final_result_code with
    | ACCEPTED => Some (PyStr.strip text)
    | OPEN_LAST => last_search_term
    | REJECTED => Some EmptyString
    end in
  (final_result_code, search_term).

End SearchPromptDialog.

(* ===================================================================== *)
(** * app_logic.py, with the popup objects of ui/webview_popup.py *)
(* ===================================================================== *)

Module AppLogic.

Import SearchPromptDialog.

Record QRect := mkQRect {
  rect_x : Z;
  rect_y : Z;
  rect_width : Z;
  rect_height : Z
}.

(** A [WebViewPopup] object.  [alive] holds from construction until its
    [closeEvent] has run; [connected] tells whether its [popup_closing]
    signal is connected to [AppLogic._handle_popup_closing]. *)
Record WebViewPopup := mkWebViewPopup {
  initial_url : string;
  popup_config : PopupConfig;
  geometry : QRect;
  visible : bool;
  alive : bool;
  connected : bool
}.

(** The fields of [AppLogic] the pipeline reads or writes, the popup
    objects it has created (a popup is known by its index) and the disk
    behind the configuration manager.  [tray_icon] tells whether
    [tray_manager.icon] is an object; [main_window] holds [isVisible()]
    of the settings window when there is one. *)
Record State := mkState {
  settings : option AppSettings;
  game_configs : option (list (string * GameConfig));
  main_window : option bool;
  current_popup : option nat;
  last_search_url_str : option string;
  tray_icon : bool;
  popups : list WebViewPopup;
  disk : ConfigManager.Disk
}.

(** The statements of the [try] block that creates the popup. *)
Inductive Stage := GetSharedProfile | Constructor | ConnectSignal | ShowPopup.

Global Instance Stage_eq_dec : EqDecision Stage.
Proof. solve_decision. Defined.

(** What the outside world contributes to one hotkey press: the title
    [get_active_window_title] returns, how the search prompt ends, and
    the statement of the popup creation that raises, if one does. *)
Record Env := mkEnv {
  active_window_title : string;
  exec_result : Z;
  input_text : string;
  popup_fault : option Stage
}.

Inductive Effect :=
| Logged (lvl : Level) (msg : string)
| ShowMessage (title text : string)
| Notify (message title : string)
| ShowCursor
| Prompt (last_search_term : option string) (placeholder_text : string) (parented : bool)
| Activate (p : nat)
| RaiseWindow (p : nat)
| Closing (p : nat) (g : QRect)
| Closed (p : nat)
| Constructed (p : nat) (url : string)
| Shown (p : nat).

(** The popups that are alive, by index. *)
Fixpoint live_from (i : nat) (ws : list WebViewPopup) : list nat :=
  match ws with
  | [] => []
  | w :: r => if alive w then i :: live_from (S i) r else live_from (S i) r
  end.

Definition live_popups (st : State) : list nat := live_from 0 (popups st).

(** An observation: an effect and the popups alive right after it. *)
Record Obs := mkObs {
  effect : Effect;
  live_after : list nat
}.

Abbreviation AL := (M State Obs).

Definition observe (e : Effect) : AL unit :=
  fun st => (Ret tt, st, [mkObs e (live_popups st)]).

Definition log (lvl : Level) (msg : string) : AL unit := observe (Logged lvl msg).

Definition set_settings (s : option AppSettings) (st : State) : State :=
  mkState s (game_configs st) (main_window st) (current_popup st)
          (last_search_url_str st) (tray_icon st) (popups st) (disk st).
Definition set_current_popup (p : option nat) (st : State) : State :=
  mkState (settings st) (game_configs st) (main_window st) p
          (last_search_url_str st) (tray_icon st) (popups st) (disk st).
Definition set_last_search_url_str (u : option string) (st : State) : State :=
  mkState (settings st) (game_configs st) (main_window st) (current_popup st)
          u (tray_icon st) (popups st) (disk st).
Definition set_popups (ws : list WebViewPopup) (st : State) : State :=
  mkState (settings st) (game_configs st) (main_window st) (current_popup st)
          (last_search_url_str st) (tray_icon st) ws (disk st).
Definition set_disk (d : ConfigManager.Disk) (st : State) : State :=
  mkState (settings st) (game_configs st) (main_window st) (current_popup st)
          (last_search_url_str st) (tray_icon st) (popups st) d.

(** A call into the configuration manager; its log records become
    effects. *)
Definition on_disk {A} (m : ConfigManager.CM A) : AL A :=
  fun st =>
    match m (disk st) with
    | (r, d, logs) =>
        let st' := set_disk d st in
        (r, st',
         map (fun l => match l with
                       | Log lvl msg => mkObs (Logged lvl msg) (live_popups st')
                       end) logs)
    end.

(** ** URL building *)

Definition _build_url (game_cfg : GameConfig) (search_term : option string) : string :=
  match search_term with
  | Some (String _ _ as term) =>
      let term :=
        match KeywordMap game_cfg with
        | Some m =>
            if bool_decide (m = ∅) then term
            else default term (m !! PyStr.lower term)
        | None => term
        end in
      match SearchTemplate game_cfg with
      | Some (String _ _ as template) =>
          PyStr.replace template "{query}" (PyStr.quote_plus term)
      | _ => BaseUrl game_cfg +:+ PyStr.quote_plus term
      end
  | _ => BaseUrl game_cfg
  end.

(** ** Matching the window title: the loop over [game_configs.items()] *)

Fixpoint match_game (active_window_title : string)
    (game_configs : list (string * GameConfig)) : option (string * GameConfig) :=
  match game_configs with
  | [] => None
  | (game_name, game_cfg) :: rest =>
      if PyStr.contains (PyStr.lower game_name) (PyStr.lower active_window_title)
      then Some (game_name, game_cfg)
      else match_game active_window_title rest
  end.

Definition special_games : list string := ["counter-strike 2"; "valorant"].

(** [self.current_popup and self.current_popup.isVisible()] *)
Definition visible_popup (st : State) : option nat :=
  match current_popup st with
  | Some p =>
      match popups st !! p with
      | Some w => if visible w then Some p else None
      | None => None
      end
  | None => None
  end.

(** The special handling of the cursor-hiding games; [true] when the
    handler returns from it. *)
Definition special_handling (matched_game_name : string) : AL bool :=
  if PyStr.truthy matched_game_name
     && bool_decide (PyStr.lower matched_game_name ∈ special_games)
  then
    log INFO ("Special handling for " +:+ matched_game_name +:+ ": showing cursor.");;
    observe ShowCursor;;
    st ← get;
    match visible_popup st with
    | Some p =>
        log INFO "Popup already visible, activating it.";;
        observe (Activate p);;
        observe (RaiseWindow p);;
        ret true
    | None => ret false
    end
  else ret false.

(** ** Resolving the target URL *)

(** The [last_search_term] argument handed to the dialog. *)
Definition prompt_last_search_term (matched_game_cfg : GameConfig)
    (last_search_url_str : option string) : option string :=
  if negb (PyStr.contains (BaseUrl matched_game_cfg) (default EmptyString last_search_url_str))
  then last_search_url_str
  else Some EmptyString.

Definition store_url (url : string) : AL (option string) :=
  modify (set_last_search_url_str (Some url));;
  ret (Some url).

(** Lines 125-158: [target_url_str], or [None] where the handler
    returns. *)
Definition resolve_target (env : Env) (matched_game_name : string)
    (matched_game_cfg : GameConfig) : AL (option string) :=
  if negb (NeedsSearch matched_game_cfg)
  then store_url (_build_url matched_game_cfg None)
  else
    st ← get;
    let parented := bool_decide (main_window st = Some true) in
    let last_search_term :=
      prompt_last_search_term matched_game_cfg (last_search_url_str st) in
    observe (Prompt last_search_term
                    ("Search " +:+ matched_game_name +:+ " Wiki...") parented);;
    match exec_dialog last_search_term (exec_result env) (input_text env) with
    | (ACCEPTED, search_term) =>
        if PyStr.truthy_opt search_term
        then store_url (_build_url matched_game_cfg search_term)
        else log INFO "Search accepted but term was empty.";;
             store_url (_build_url matched_game_cfg None)
    | (OPEN_LAST, _) =>
        if PyStr.truthy_opt (last_search_url_str st)
        then ret (last_search_url_str st)
        else store_url (_build_url matched_game_cfg None)
    | (REJECTED, _) =>
        log INFO "Search prompt was rejected or closed.";;
        ret None
    end.

(** ** The popup *)

Definition update_popup (p : nat) (f : WebViewPopup -> WebViewPopup) (st : State) : State :=
  match popups st !! p with
  | Some w => set_popups (<[p := f w]> (popups st)) st
  | None => st
  end.

Definition set_connected (b : bool) (w : WebViewPopup) : WebViewPopup :=
  mkWebViewPopup (initial_url w) (popup_config w) (geometry w) (visible w) (alive w) b.
Definition set_visible (b : bool) (w : WebViewPopup) : WebViewPopup :=
  mkWebViewPopup (initial_url w) (popup_config w) (geometry w) b (alive w) (connected w).
Definition closed (w : WebViewPopup) : WebViewPopup :=
  mkWebViewPopup (initial_url w) (popup_config w) (geometry w) false false (connected w).

Definition geometry_to_config (g : QRect) : PopupConfig :=
  mkPopupConfig (inject_Z (rect_width g)) (inject_Z (rect_height g))
                (inject_Z (rect_x g)) (inject_Z (rect_y g)).

(** The slot connected to [popup_closing]. *)
Definition _handle_popup_closing (g : QRect) : AL unit :=
  log INFO "Popup window closed.";;
  st ← get;
  match settings st with
  | Some s =>
      let s' := mkAppSettings (Hotkey s) (geometry_to_config g) in
      modify (set_settings (Some s'));;
      on_disk (ConfigManager.save_settings s');;
      log INFO "Popup geometry saved to settings."
  | None => ret tt
  end;;
  modify (set_current_popup None).

(** [popup.close()]: Qt delivers the close event at once;
    [WebViewPopup.closeEvent] emits [popup_closing] with the current
    geometry, which runs the slot if it is connected, then releases the
    web view and lets the widget be hidden. *)
Definition close (p : nat) : AL unit :=
  st ← get;
  match popups st !! p with
  | Some w =>
      log INFO "WebViewPopup closing. Emitting geometry";;
      observe (Closing p (geometry w));;
      (if connected w then _handle_popup_closing (geometry w) else ret tt);;
      modify (update_popup p closed);;
      log DEBUG "WebViewPopup closeEvent completed.";;
      observe (Closed p)
  | None => ret tt
  end.

(** [setGeometry] of the constructor, on whole pixels. *)
Definition config_to_geometry (c : PopupConfig) : QRect :=
  mkQRect (Qfloor (Left c)) (Qfloor (Top c)) (Qfloor (Width c)) (Qfloor (Height c)).

Definition fault_at (env : Env) (s : Stage) : AL unit :=
  if bool_decide (popup_fault env = Some s) then raise RuntimeError else ret tt.

(** Lines 162-170: an existing popup is disconnected from
    [_handle_popup_closing], closed, and forgotten.  [disconnect] raises
    [TypeError] when the signal is not connected, which is passed over. *)
Definition close_existing : AL unit :=
  st ← get;
  match current_popup st with
  | Some p =>
      log INFO "Closing existing popup before opening new one.";;
      modify (update_popup p (set_connected false));;
      close p;;
      modify (set_current_popup None)
  | None => ret tt
  end.

(** The [try] block of lines 176-186. *)
Definition create_and_show (env : Env) (target_url_str : string)
    (popup_config_to_use : PopupConfig) : AL unit :=
  fault_at env GetSharedProfile;;
  fault_at env Constructor;;
  st ← get;
  let p := length (popups st) in
  modify (set_popups (popups st ++
            [mkWebViewPopup target_url_str popup_config_to_use
               (config_to_geometry popup_config_to_use) false true false]));;
  observe (Constructed p target_url_str);;
  modify (set_current_popup (Some p));;
  fault_at env ConnectSignal;;
  modify (update_popup p (set_connected true));;
  fault_at env ShowPopup;;
  modify (update_popup p (set_visible true));;
  observe (Shown p);;
  observe ShowCursor.

(** The [except Exception] of lines 187-190. *)
Definition report_failure (e : PyExn) : AL unit :=
  log ERROR "Failed to create or show WebViewPopup";;
  st ← get;
  if tray_icon st
  then observe (Notify "Error opening wiki" "GameWikiOverlay Error")
  else ret tt.

(** Lines 160-190, entered with a non-empty [target_url_str]. *)
Definition open_popup (env : Env) (target_url_str : string) : AL unit :=
  log INFO ("Target URL: " +:+ target_url_str);;
  close_existing;;
  st ← get;
  match settings st with
  | None => raise AttributeError
  | Some s =>
      try_except (create_and_show env target_url_str (Popup s)) report_failure
  end.

(** ** The hotkey handler *)

(** Lines 111-190: what the handler does with the matched profile. *)
Definition pipeline (env : Env) (matched_game_name : string)
    (matched_game_cfg : GameConfig) : AL unit :=
  handled ← special_handling matched_game_name;
  if (handled : bool) then ret tt
  else
    target_url_str ← resolve_target env matched_game_name matched_game_cfg;
    if PyStr.truthy_opt target_url_str
    then open_popup env (default EmptyString target_url_str)
    else ret tt.

Definition _handle_hotkey_press_thread_safe (env : Env) : AL unit :=
  log INFO "Global hotkey pressed (handled in Qt thread).";;
  let active_window_title := active_window_title env in
  log INFO ("Active window: '" +:+ active_window_title +:+ "'");;
  st ← get;
  match game_configs st with
  | None | Some [] =>
      log WARNING "Game configurations not loaded. Cannot match game.";;
      if tray_icon st
      then observe (ShowMessage "GameWikiOverlay" "Game configurations not loaded.")
      else raise AttributeError
  | Some cfgs =>
      match match_game active_window_title cfgs with
      | None =>
          log INFO "No game configuration matched the active window title.";;
          if tray_icon st
          then observe (Notify ("No configuration for: " +:+ active_window_title)
                               "GameWikiOverlay")
          else ret tt
      | Some (matched_game_name, matched_game_cfg) =>
          log INFO ("Matched game: " +:+ matched_game_name);;
          pipeline env matched_game_name matched_game_cfg
      end
  end.

End AppLogic.

(* ===================================================================== *)
(** * core/window_utils.py: the cursor functions *)
(* ===================================================================== *)

Module WindowUtils.

(** Where the functions run: what [platform.system()] returns, whether
    [ctypes] could be imported, and at which values of the display
    counter a call of [ShowCursor] raises instead of returning. *)
Record Host := mkHost {
  system : string;
  ctypes : bool;
  ShowCursor_fails : Z -> bool
}.

(** Log records and the calls of [user32.ShowCursor], each with the
    value it returned. *)
Inductive Effect :=
| Logged (lvl : Level) (msg : string)
| Called (bShow : bool) (result : Z).

(** The state is the display counter of the system: the cursor is shown
    while it is at least 0. *)
Abbreviation WU := (M Z Effect).

Definition log (lvl : Level) (msg : string) : WU unit := emit (Logged lvl msg).

(** [ctypes.windll.user32.ShowCursor(bShow)]: the counter goes up by one
    for [True] and down by one for [False]; the new value is returned. *)
Definition ShowCursor (host : Host) (bShow : bool) : WU Z :=
  c ← get;
  if ShowCursor_fails host c then raise OSError
  else
    let c' := (if bShow then c + 1 else c - 1)%Z in
    put c';;
    emit (Called bShow c');;
    ret c'.

(** The [while] of [show_cursor_until_visible], run at most [fuel]
    times; [None] when the fuel is used up before the loop ends. *)
Fixpoint show_loop (host : Host) (fuel : nat) (display_count : Z) : WU (option Z) :=
  if (display_count <? 0)%Z
  then match fuel with
       | O => ret None
       | S fuel' =>
           display_count ← ShowCursor host true;
           log DEBUG "Called ShowCursor(True)";;
           show_loop host fuel' display_count
       end
  else ret (Some display_count).

Definition show_cursor_until_visible (host : Host) (fuel : nat) : WU (option unit) :=
  if decide (system host = "Windows")
  then
    if negb (ctypes host)
    then log WARNING "ctypes is not available on Windows. Cannot show cursor.";;
         ret (Some tt)
    else
      log DEBUG "Attempting to show cursor (Windows)...";;
      try_except
        (display_count ← ShowCursor host true;
         done ← show_loop host fuel display_count;
         match done with
         | Some _ => log INFO "Cursor shown.";; ret (Some tt)
         | None => ret None
         end)
        (fun _ => log ERROR "Error calling ShowCursor(True)";; ret (Some tt))
  else
    log INFO "show_cursor_until_visible is a Windows-specific function. Doing nothing on other OS.";;
    ret (Some tt).

(** The [while] of [hide_cursor_completely], with its [break]. *)
Fixpoint hide_loop (host : Host) (fuel : nat) (display_count : Z) : WU (option Z) :=
  if (-1 <=? display_count)%Z
  then
    if (display_count <? 0)%Z then ret (Some display_count)
    else match fuel with
         | O => ret None
         | S fuel' =>
             display_count ← ShowCursor host false;
             log DEBUG "Called ShowCursor(False)";;
             hide_loop host fuel' display_count
         end
  else ret (Some display_count).

Definition hide_cursor_completely (host : Host) (fuel : nat) : WU (option unit) :=
  if decide (system host = "Windows")
  then
    if negb (ctypes host)
    then log WARNING "ctypes is not available on Windows. Cannot hide cursor.";;
         ret (Some tt)
    else
      log DEBUG "Attempting to hide cursor (Windows)...";;
      try_except
        (display_count ← ShowCursor host false;
         done ← hide_loop host fuel display_count;
         match done with
         | Some _ => log INFO "Cursor hidden.";; ret (Some tt)
         | None => ret None
         end)
        (fun _ => log ERROR "Error calling ShowCursor(False)";; ret (Some tt))
  else
    log INFO "hide_cursor_completely is a Windows-specific function. Doing nothing on other OS.";;
    ret (Some tt).

End WindowUtils.

(* ===================================================================== *)
(** * core/hotkey_manager.py: the press *)
(* ===================================================================== *)

Module HotkeyPress.

Import HotkeyManager.

(** A log record, or the call of a callback. *)
Inductive Effect :=
| Logged (lvl : Level) (msg : string)
| Invoked (cb : Callback).

(** [_on_press_internal], the action bound to the combination.
    [callback_raises] tells which exception, if any, the callback ends
    in. *)
Definition _on_press_internal (callback_raises : Callback -> option PyExn)
    : M State Effect unit :=
  s ← get;
  emit (Logged INFO ("Hotkey "
                     +:+ match current_hotkey_config s with
                         | Some c => Key c
                         | None => "Unknown"
                         end
                     +:+ " pressed!"));;
  match on_hotkey_pressed_callback s with
  | Some cb =>
      try_except
        (emit (Invoked cb);;
         match callback_raises cb with
         | Some e => raise e
         | None => ret tt
         end)
        (fun _ => emit (Logged ERROR "Error in on_hotkey_pressed_callback"))
  | None => ret tt
  end.

End HotkeyPress.

(* ===================================================================== *)
(** * ui/main_window.py: the hotkey form of the settings window *)
(* ===================================================================== *)

Module MainWindow.

(** [self.available_keys]: F1 to F12, A to Z, 0 to 9. *)
Definition available_keys : list string :=
  map (fun i : nat => "F" +:+ pretty i) (seq 1 12)
  ++ map (fun i : nat => String (ascii_of_nat (65 + i)) EmptyString) (seq 0 26)
  ++ map (fun i : nat => pretty i) (seq 0 10).

(** The widgets the methods read and write: the check boxes, in the
    order of the dictionary that holds them, each with [isChecked()],
    and [currentText()] of the combo box. *)
Record Form := mkForm {
  modifier_checkboxes : list (string * bool);
  hotkey_combo : string
}.

(** The names bound in the module when a method runs: what lines 1 to
    15 import, and [logger]. *)
Definition module_names : list string :=
  [ "sys"; "logging"; "Path";
    "QApplication"; "QMainWindow"; "QWidget"; "QVBoxLayout"; "QFormLayout";
    "QCheckBox"; "QComboBox"; "QPushButton"; "QMessageBox"; "QGridLayout"; "QLabel";
    "QIcon"; "QCloseEvent"; "QGuiApplication"; "Qt";
    "AppSettings"; "HotkeyConfig"; "PopupConfig"; "ConfigManager"; "logger" ].

(** Evaluating a global name: [NameError] unless the module binds it. *)
Definition global (name : string) : M Form LogRecord unit :=
  if bool_decide (name ∈ module_names) then ret tt else raise NameError.

(** A window none of whose attributes is set yet. *)
Definition unset : Form := mkForm [] EmptyString.

(** [init_ui], by the global names it evaluates and the attributes it
    sets, in the order of the source: four boxes, none checked, then
    the combo box, filled with the available keys and showing the
    first.  [icon_exists] is the answer of [icon_path.exists()]. *)
Definition init_ui (icon_exists : bool) : M Form LogRecord unit :=
  global "Path";;
  (if icon_exists then global "QIcon"
   else emit (Log WARNING "Application icon not found"));;
  global "QWidget";;
  global "QVBoxLayout";;
  global "QLabel";;
  global "QFormLayout";;
  global "QCheckBox";;
  modify (fun f => mkForm [("Ctrl", false); ("Shift", false); ("Alt", false); ("Win", false)]
                          (hotkey_combo f));;
  global "QHBoxLayout";;
  global "QComboBox";;
  modify (fun f => mkForm (modifier_checkboxes f)
                          (default EmptyString (head available_keys)));;
  global "QHBoxLayout";;
  global "QPushButton".

Definition load_settings_to_ui (settings : AppSettings) : M Form LogRecord unit :=
  emit (Log INFO "Loading settings to UI");;
  f ← get;
  let normalized_mod_in_settings := map PyStr.lower (Modifiers (Hotkey settings)) in
  let boxes :=
    map (fun box : string * bool =>
           let mod_name := box.1 in
           (mod_name,
            bool_decide (PyStr.lower mod_name ∈ normalized_mod_in_settings)
            || bool_decide (mod_name ∈ Modifiers (Hotkey settings))))
        (modifier_checkboxes f) in
  put (mkForm boxes (hotkey_combo f));;
  let key_to_select := Key (Hotkey settings) in
  if bool_decide (key_to_select ∈ available_keys)
  then modify (fun f => mkForm (modifier_checkboxes f) key_to_select)
  else emit (Log WARNING "Hotkey key not found in available keys. UI will show default.").

(** The names of the checked boxes, in the order of the dictionary. *)
Definition selected_modifiers (f : Form) : list string :=
  map fst (List.filter snd (modifier_checkboxes f)).

(** The configuration [_save_settings_and_apply] makes of the form. *)
Definition new_hotkey_config (f : Form) : HotkeyConfig :=
  mkHotkeyConfig (hotkey_combo f) (selected_modifiers f).

Record State := mkState {
  form : Form;
  disk : ConfigManager.Disk
}.

Inductive Effect :=
| Logged (lvl : Level) (msg : string)
| SaveHotkeyCallback (cfg : HotkeyConfig)
| Information (title text : string)
| Critical (title text : string)
| Hide.

(** A call into the configuration manager. *)
Definition on_disk {A} (m : ConfigManager.CM A) : M State Effect A :=
  fun st =>
    match m (disk st) with
    | (r, d, logs) =>
        (r, mkState (form st) d,
         map (fun l => match l with Log lvl msg => Logged lvl msg end) logs)
    end.

(** [_save_settings_and_apply].  [on_save_hotkey_callback] is the
    callback the window was given, known by the exception it ends in,
    if any. *)
Definition _save_settings_and_apply
    (validate_AppSettings : list (string * json) -> option AppSettings)
    (on_save_hotkey_callback : option (HotkeyConfig -> option PyExn))
    : M State Effect unit :=
  st ← get;
  let new_hotkey_config := new_hotkey_config (form st) in
  try_except
    (current_settings ← on_disk (ConfigManager.load_settings validate_AppSettings);
     let current_settings := mkAppSettings new_hotkey_config (Popup current_settings) in
     on_disk (ConfigManager.save_settings current_settings);;
     match on_save_hotkey_callback with
     | Some callback =>
         emit (SaveHotkeyCallback new_hotkey_config);;
         match callback new_hotkey_config with
         | Some e => raise e
         | None => ret tt
         end
     | None => ret tt
     end;;
     emit (Information "Settings Saved" "Hotkey settings have been saved and applied.");;
     emit Hide)
    (fun _ =>
       emit (Logged ERROR "Error saving settings");;
       emit (Critical "Error" "Could not save settings")).

End MainWindow.

(* ===================================================================== *)
(** * app_logic.py: applying a hotkey saved in the settings window *)
(* ===================================================================== *)

Module AppServices.

(** The orchestrator together with its hotkey manager. *)
Record State := mkState {
  logic : AppLogic.State;
  hotkey_manager : HotkeyManager.State
}.

Inductive Effect :=
| OfLogic (e : AppLogic.Effect)
| OfHotkeyManager (e : HotkeyManager.Effect).

Abbreviation AS := (M State Effect).

Definition log (lvl : Level) (msg : string) : AS unit :=
  emit (OfLogic (AppLogic.Logged lvl msg)).

(** The bound method [self._emit_hotkey_signal], as a callback. *)
Definition _emit_hotkey_signal : HotkeyManager.Callback := 0.

(** A call into the hotkey manager. *)
Definition in_hotkey_manager {A} (m : HotkeyManager.HM A) : AS A :=
  fun st =>
    match m (hotkey_manager st) with
    | (r, h, tr) => (r, mkState (logic st) h, map OfHotkeyManager tr)
    end.

Definition set_logic (f : AppLogic.State -> AppLogic.State) (st : State) : State :=
  mkState (f (logic st)) (hotkey_manager st).

Definition notify (message title : string) : AS unit :=
  st ← get;
  if AppLogic.tray_icon (logic st)
  then emit (OfLogic (AppLogic.Notify message title))
  else ret tt.

Definition _handle_save_hotkey (platform : HotkeyManager.Platform)
    (new_hotkey_config : HotkeyConfig) : AS unit :=
  log INFO "Hotkey settings saved via MainWindow.";;
  st ← get;
  match AppLogic.settings (logic st) with
  | Some s =>
      modify (set_logic (AppLogic.set_settings
                           (Some (mkAppSettings new_hotkey_config (Popup s)))));;
      ok ← in_hotkey_manager
             (HotkeyManager.reregister_hotkeys platform new_hotkey_config
                (Some _emit_hotkey_signal));
      if (ok : bool)
      then notify "Hotkey updated successfully." "GameWikiOverlay"
      else notify "Failed to update hotkey." "GameWikiOverlay Warning"
  | None => log ERROR "Settings not available in AppLogic to update hotkey."
  end.

End AppServices.


(* ===================================================================== *)
(** * Vocabulary of the properties, and sample data *)
(* ===================================================================== *)

(** [key] occurs in [title] as a substring, letter case apart. *)
Definition occurs_in (key title : string) : Prop :=
  exists a b, PyStr.lower title = a +:+ PyStr.lower key +:+ b.

(** [needle] is a substring of [hay]. *)
Definition substring_of (needle hay : string) : Prop :=
  exists a b, hay = a +:+ needle +:+ b.

(** The tokens [_parse_hotkey] makes of the modifiers it knows. *)
Fixpoint modifier_parts (mods : list string) : list string :=
  match mods with
  | [] => []
  | m :: rest =>
      match HotkeyManager.modifier_map m with
      | Some pynput_mod =>
          if PyStr.truthy pynput_mod
          then ("<" +:+ pynput_mod +:+ ">") :: modifier_parts rest
          else modifier_parts rest
      | None => modifier_parts rest
      end
  end.

(** The warnings it logs for those it does not know. *)
Fixpoint modifier_warnings (mods : list string) : list HotkeyManager.Effect :=
  match mods with
  | [] => []
  | m :: rest =>
      match HotkeyManager.modifier_map m with
      | Some pynput_mod =>
          if PyStr.truthy pynput_mod
          then modifier_warnings rest
          else HotkeyManager.Logged WARNING ("Unknown modifier: " +:+ m)
               :: modifier_warnings rest
      | None =>
          HotkeyManager.Logged WARNING ("Unknown modifier: " +:+ m)
          :: modifier_warnings rest
      end
  end.

(** Line 69 returns for [key]: [int] is not reached, or it converts
    the digits. *)
Definition reads_key (platform : HotkeyManager.Platform) (key : string) : bool :=
  match HotkeyManager.is_f_key platform (PyStr.lower key) with
  | Ret _ => true
  | Raise _ => false
  end.

(** The token of the key: the key in lower case, in angle brackets when
    it has more than one character, as every F-key has. *)
Definition key_part (key : string) : string :=
  let key_lower := PyStr.lower key in
  if (1 <? String.length key_lower)%nat then "<" +:+ key_lower +:+ ">"
  else key_lower.

(** The combination handed to the platform for a configuration. *)
Definition hotkey_string (cfg : HotkeyConfig) : string :=
  PyStr.join "+" (modifier_parts (Modifiers cfg) ++ [key_part (Key cfg)]).

(** A trace without any call on the platform: log records only. *)
Definition no_platform_call (tr : list HotkeyManager.Effect) : Prop :=
  Forall (fun e => match e with HotkeyManager.Logged _ _ => True | _ => False end) tr.

(** What tearing down the listener [l] leaves in the trace: [stop] and
    [join] where they return, the error record where one of them
    raises. *)
Definition teardown (platform : HotkeyManager.Platform) (l : HotkeyManager.Listener)
    : list HotkeyManager.Effect :=
  if HotkeyManager.stops platform l
  then HotkeyManager.Stop l
       :: (if HotkeyManager.joins platform l
           then [HotkeyManager.Join l]
           else [HotkeyManager.Logged ERROR "Error stopping listener"])
  else [HotkeyManager.Logged ERROR "Error stopping listener"].

(** In [tr] the listener [l] is torn down before any other call is made
    on the platform. *)
Definition torn_down_first (platform : HotkeyManager.Platform)
    (l : HotkeyManager.Listener) (tr : list HotkeyManager.Effect) : Prop :=
  exists pre post, tr = pre ++ teardown platform l ++ post /\ no_platform_call pre.

(** What [register_global_hotkey] leaves in the trace before its [try]:
    the records of the parse, and the teardown of the listener that was
    there. *)
Definition before_try (platform : HotkeyManager.Platform) (c : HotkeyConfig)
    (st : HotkeyManager.State) : list HotkeyManager.Effect :=
  (modifier_warnings (Modifiers c)
   ++ [HotkeyManager.Logged DEBUG ("Parsed hotkey string: " +:+ hotkey_string c)])
  ++ match HotkeyManager.listener st with
     | Some l =>
         HotkeyManager.Logged INFO "Stopping existing listener before registering new hotkey."
         :: teardown platform l
     | None => []
     end.

(** The flag is never set without a listener. *)
Definition active_needs_listener (st : HotkeyManager.State) : Prop :=
  HotkeyManager.listener st = None -> HotkeyManager.hotkey_active st = false.

(** Every popup that is alive is the current one. *)
Definition single_instance (st : AppLogic.State) : Prop :=
  Forall (fun i => AppLogic.current_popup st = Some i) (AppLogic.live_popups st).

(** The popup object the constructor makes, with its signal connected or
    not and shown or not. *)
Definition new_popup (url : string) (c : PopupConfig) (is_connected is_visible : bool)
    : AppLogic.WebViewPopup :=
  AppLogic.mkWebViewPopup url c (AppLogic.config_to_geometry c)
    is_visible true is_connected.

(** The state once [w] has been constructed and made the current popup. *)
Definition with_new_popup (st : AppLogic.State) (w : AppLogic.WebViewPopup) : AppLogic.State :=
  AppLogic.set_current_popup (Some (length (AppLogic.popups st)))
    (AppLogic.set_popups (AppLogic.popups st ++ [w]) st).

(** What the handler of a failed creation leaves in the trace. *)
Definition failure_report (st : AppLogic.State) : list AppLogic.Obs :=
  AppLogic.mkObs (AppLogic.Logged ERROR "Failed to create or show WebViewPopup")
                 (AppLogic.live_popups st)
  :: (if AppLogic.tray_icon st
      then [AppLogic.mkObs (AppLogic.Notify "Error opening wiki" "GameWikiOverlay Error")
                           (AppLogic.live_popups st)]
      else []).

(** Two states agree on everything but the popups. *)
Definition same_but_popups (st st' : AppLogic.State) : Prop :=
  AppLogic.settings st' = AppLogic.settings st
  /\ AppLogic.disk st' = AppLogic.disk st
  /\ AppLogic.last_search_url_str st' = AppLogic.last_search_url_str st
  /\ AppLogic.tray_icon st' = AppLogic.tray_icon st
  /\ AppLogic.game_configs st' = AppLogic.game_configs st
  /\ AppLogic.main_window st' = AppLogic.main_window st.

(** At most one popup was alive at every observation. *)
Definition at_most_one_live (tr : list AppLogic.Obs) : Prop :=
  Forall (fun o => length (AppLogic.live_after o) <= 1) tr.

(** Whether the popup object exists by the time [stage] raises. *)
Definition constructed_before (stage : AppLogic.Stage) : bool :=
  match stage with
  | AppLogic.GetSharedProfile | AppLogic.Constructor => false
  | AppLogic.ConnectSignal | AppLogic.ShowPopup => true
  end.

(** The effects of a creation that fails at [stage], for the popup [n]. *)
Definition failed_creation_effects (stage : AppLogic.Stage) (n : nat) (url : string)
    (tray : bool) : list AppLogic.Effect :=
  (if constructed_before stage then [AppLogic.Constructed n url] else [])
  ++ AppLogic.Logged ERROR "Failed to create or show WebViewPopup"
     :: (if tray then [AppLogic.Notify "Error opening wiki" "GameWikiOverlay Error"] else []).

Module Samples.

(** A profile that needs no search. *)
Definition valorant : GameConfig :=
  mkGameConfig "https://wiki.example/valorant" false None None.

(** The same profile carrying search rules all the same. *)
Definition valorant_with_rules : GameConfig :=
  mkGameConfig "https://wiki.example/valorant" false
    (Some "https://wiki.example/search?q={query}")
    (Some {[ "boss" := "Bosses" ]}).

(** A search profile with a template and aliases. *)
Definition elden : GameConfig :=
  mkGameConfig "https://w.example/" true
    (Some "https://w.example/search?q={query}")
    (Some {[ "boss" := "Bosses" ]}).

(** A search profile with aliases but no template. *)
Definition fandom : GameConfig :=
  mkGameConfig "http://test2.fandom.com/" true None
    (Some {[ "boss" := "Bosses"; "item" := "Items" ]}).

(** A keyword map that gives the empty alias a page. *)
Definition fandom_empty_alias : GameConfig :=
  mkGameConfig "http://test2.fandom.com/" true None
    (Some {[ "" := "Main_Page" ]}).

(** A profile whose base URL is written without scheme. *)
Definition schemeless : GameConfig :=
  mkGameConfig "w.example/" true (Some "https://w.example/search?q={query}") None.

Definition disk : ConfigManager.Disk :=
  ConfigManager.mkDisk true true true None None None false.

Definition catalog : list (string * GameConfig) :=
  [("Valorant", valorant); ("Elden", elden)].

(** The state after start-up: nothing searched, no popup. *)
Definition fresh : AppLogic.State :=
  AppLogic.mkState (Some ConfigManager.default_settings) (Some catalog)
    None None None true [] disk.

(** A popup that the user has moved and resized. *)
Definition moved_popup : AppLogic.WebViewPopup :=
  AppLogic.mkWebViewPopup "https://wiki.example/valorant" PopupConfig_default
    (AppLogic.mkQRect 10 20 300 400) true true true.

(** The state with that popup on screen. *)
Definition showing : AppLogic.State :=
  AppLogic.mkState (Some ConfigManager.default_settings) (Some catalog)
    None (Some 0) (Some "https://wiki.example/valorant") true [moved_popup] disk.

(** The state after a search on the scheme-less profile. *)
Definition searched : AppLogic.State :=
  AppLogic.mkState (Some ConfigManager.default_settings)
    (Some [("Elden", schemeless)])
    None None (Some "https://w.example/search?q=fire+staff") true [] disk.

(** A hotkey press over the game's window whose prompt is cancelled. *)
Definition cancel_over_elden : AppLogic.Env :=
  AppLogic.mkEnv "ELDEN RING" 0 "" None.

(** A hotkey press over the game's window, the prompt accepted. *)
Definition search_fire_staff : AppLogic.Env :=
  AppLogic.mkEnv "elden ring" 1 " fire staff " None.

(** A hotkey press over Valorant while the popup constructor fails. *)
Definition valorant_constructor_fails : AppLogic.Env :=
  AppLogic.mkEnv "VALORANT" 0 "" (Some AppLogic.Constructor).

(** The same search while showing the new popup fails. *)
Definition search_show_fails : AppLogic.Env :=
  AppLogic.mkEnv "elden ring" 1 " fire staff " (Some AppLogic.ShowPopup).

(** The two bytes of a superscript two in UTF-8. *)
Definition superscript_two : string := String "194" (String "178" EmptyString).

(** An interpreter with the usual limit of 4300 digits.  Of the text
    beyond ASCII the examples ask it about the superscript two only: a
    digit that [int] does not convert. *)
Definition cpython : PyStr.Interpreter :=
  PyStr.mkInterpreter 4300 (fun s => bool_decide (s = superscript_two)) (fun _ => None).

(** A platform that grants everything, and one that refuses to start a
    listener. *)
Definition willing : HotkeyManager.Platform :=
  HotkeyManager.mkPlatform (fun _ => true) (fun _ => true) (fun _ => true) (fun _ => true)
    cpython.

Definition refusing_start : HotkeyManager.Platform :=
  HotkeyManager.mkPlatform (fun _ => true) (fun _ => false) (fun _ => true) (fun _ => true)
    cpython.

Definition ctrl_f1 : HotkeyConfig := mkHotkeyConfig "F1" ["Ctrl"].
Definition alt_s : HotkeyConfig := mkHotkeyConfig "S" ["Alt"].

(** Ctrl with the key F followed by a superscript two. *)
Definition ctrl_f_squared : HotkeyConfig :=
  mkHotkeyConfig ("F" +:+ superscript_two) ["Ctrl"].

(** The manager with Ctrl+F1 registered for callback 1. *)
Definition registered : HotkeyManager.State :=
  HotkeyManager.mkState (Some 1)
    (Some (HotkeyManager.mkListener "<ctrl>+<f1>" true)) (Some ctrl_f1) true.

(** A user settings document that is valid JSON but an array. *)
Definition array_settings_disk : ConfigManager.Disk :=
  ConfigManager.mkDisk true true true
    (Some (ConfigManager.mkFile (ConfigManager.Document (JArr [])) true true))
    None None false.

(** A user settings document that is no JSON at all. *)
Definition garbage_settings_disk : ConfigManager.Disk :=
  ConfigManager.mkDisk true true true
    (Some (ConfigManager.mkFile (ConfigManager.Garbage "{ not json") true true))
    None None false.

(** A catalog with a valid entry, an object that fails validation, and an
    entry that is no object. *)
Definition mixed_catalog : json :=
  JObj [ ("TestGame1", JObj [ ("BaseUrl", JStr "http://test1.wiki.com");
                              ("NeedsSearch", JBool true);
                              ("SearchTemplate", JStr "/search?q={query}") ]);
         ("InvalidGame", JObj [ ("BaseUrl", JInt 123) ]);
         ("Broken", JInt 5) ].

(** The same catalog without the entry that is no object. *)
Definition object_catalog : json :=
  JObj [ ("TestGame1", JObj [ ("BaseUrl", JStr "http://test1.wiki.com");
                              ("NeedsSearch", JBool true);
                              ("SearchTemplate", JStr "/search?q={query}") ]);
         ("InvalidGame", JObj [ ("BaseUrl", JInt 123) ]) ].

Definition games_disk (catalog : json) : ConfigManager.Disk :=
  ConfigManager.mkDisk true true true None None
    (Some (ConfigManager.mkFile (ConfigManager.Document catalog) true true))
    false.

End Samples.

(** How the search prompt of this hotkey press ends. *)
Definition prompt_outcome (env : AppLogic.Env) : SearchPromptDialog.DialogCode :=
  fst (SearchPromptDialog.exec_dialog None (AppLogic.exec_result env) (AppLogic.input_text env)).

(** The effects that open, close or replace a popup. *)
Definition popup_lifecycle_effect (e : AppLogic.Effect) : bool :=
  match e with
  | AppLogic.Closing _ _ | AppLogic.Closed _
  | AppLogic.Constructed _ _ | AppLogic.Shown _ => true
  | _ => false
  end.

(** No effect of a trace opens, closes or replaces a popup, and every
    observation saw the live popups [live]. *)
Definition quiet (live : list nat) (tr : list AppLogic.Obs) : Prop :=
  Forall (fun o => popup_lifecycle_effect (AppLogic.effect o) = false
                   /\ AppLogic.live_after o = live) tr.


(* ===================================================================== *)
(** * Vocabulary of the further properties, and sample data *)
(* ===================================================================== *)

(** What [load_game_configs] keeps of one entry of the catalog document:
    an object whose members validate. *)
Definition valid_entry (validate : list (string * json) -> option GameConfig)
    (e : string * json) : option (string * GameConfig) :=
  match e.2 with
  | JObj members =>
      match validate members with
      | Some cfg => Some (e.1, cfg)
      | None => None
      end
  | _ => None
  end.

(** The valid entries of a catalog document, in document order. *)
Definition valid_entries (validate : list (string * json) -> option GameConfig)
    (members : list (string * json)) : list (string * GameConfig) :=
  omap (valid_entry validate) members.

(** The disk lets [save_settings] write: the directory is there or can be
    made, and the settings file can be replaced or created. *)
Definition can_save (d : ConfigManager.Disk) : Prop :=
  (ConfigManager.user_config_dir d = true \/ ConfigManager.makedirs_ok d = true)
  /\ match ConfigManager.user_settings_path d with
     | Some f => ConfigManager.writable f = true /\ ConfigManager.readable f = true
     | None => ConfigManager.create_ok d = true
     end.

(** Neither the directory nor a way to make it. *)
Definition no_config_dir (d : ConfigManager.Disk) : Prop :=
  ConfigManager.user_config_dir d = false /\ ConfigManager.makedirs_ok d = false.

Module Fixtures.

(** A first run: the directory is still to be made, no file is there. *)
Definition first_run_disk : ConfigManager.Disk :=
  ConfigManager.mkDisk false true true None None None false.

(** A first run with the settings document the application ships. *)
Definition shipped_settings : list (string * json) :=
  [ ("Hotkey", JObj [ ("Key", JStr "F2"); ("Modifiers", JArr [JStr "Alt"]) ]);
    ("Popup", JObj [ ("Width", JInt 640); ("Height", JInt 480) ]) ].

Definition shipped_disk : ConfigManager.Disk :=
  ConfigManager.mkDisk true true true None
    (Some (ConfigManager.mkFile (ConfigManager.Document (JObj shipped_settings)) true false))
    None false.

(** A first run on a system that refuses to make the directory. *)
Definition no_directory_disk : ConfigManager.Disk :=
  ConfigManager.mkDisk false false true None None None false.

(** Settings a user has changed. *)
Definition custom_settings : AppSettings :=
  mkAppSettings (mkHotkeyConfig "W" ["Ctrl"; "Shift"])
                (mkPopupConfig (1024 # 1)%Q (768 # 1)%Q (5 # 2)%Q (0 # 1)%Q).

End Fixtures.

(** A modifier name [_parse_hotkey] has a token for. *)
Definition known_modifier (m : string) : bool :=
  match HotkeyManager.modifier_map m with
  | Some _ => true
  | None => false
  end.

(** The warning records of a trace of the hotkey manager. *)
Definition warnings (tr : list HotkeyManager.Effect) : list string :=
  omap (fun e => match e with
                 | HotkeyManager.Logged WARNING msg => Some msg
                 | _ => None
                 end) tr.

(** The flag and the listener tell the same story: a listener that is
    kept has been started and the flag is set; without one it is not. *)
Definition listener_matches_flag (st : HotkeyManager.State) : Prop :=
  match HotkeyManager.listener st with
  | Some l => HotkeyManager.started l = true /\ HotkeyManager.hotkey_active st = true
  | None => HotkeyManager.hotkey_active st = false
  end.

(** Every character of [s] is whitespace. *)
Fixpoint all_space (s : string) : bool :=
  match s with
  | EmptyString => true
  | String c r => PyStr.is_space c && all_space r
  end.

(** No effect of a trace is a search prompt. *)
Definition no_prompt (tr : list AppLogic.Obs) : Prop :=
  Forall (fun o => match AppLogic.effect o with
                   | AppLogic.Prompt _ _ _ => False
                   | _ => True
                   end) tr.

(** The search term after the lookup in the profile's [KeywordMap]. *)
Definition mapped_term (cfg : GameConfig) (term : string) : string :=
  match KeywordMap cfg with
  | Some m => default term (m !! PyStr.lower term)
  | None => term
  end.

(** Whether the callback given to the settings window ends in an
    exception when called with [cfg]. *)
Definition callback_fails (on_save_hotkey_callback : option (HotkeyConfig -> option PyExn))
    (cfg : HotkeyConfig) : bool :=
  match on_save_hotkey_callback with
  | Some callback => match callback cfg with Some _ => true | None => false end
  | None => false
  end.

(** Every byte of [s] is an ASCII character: on such strings the length
    is the number of characters, [lower] is Python's, and [isdigit] and
    [int] do not depend on the Unicode tables. *)
Definition ascii_only (s : string) : bool := PyStr.isascii s.

(** [int] converts every string of [n] ASCII digits: [n] is within the
    limit the interpreter keeps, or it keeps none. *)
Definition converts (py : PyStr.Interpreter) (n : nat) : Prop :=
  (n <= PyStr.str_digits_check_threshold)%nat
  \/ PyStr.int_max_str_digits py = 0%nat
  \/ (n <= PyStr.int_max_str_digits py)%nat.

(** The results of the calls of [ShowCursor] in a trace. *)
Definition cursor_calls (tr : list WindowUtils.Effect) : list (bool * Z) :=
  omap (fun e => match e with
                 | WindowUtils.Called b r => Some (b, r)
                 | _ => None
                 end) tr.

(** A Windows host with [ctypes] on which [ShowCursor] always returns. *)
Definition windows_host (host : WindowUtils.Host) : Prop :=
  WindowUtils.system host = "Windows"
  /\ WindowUtils.ctypes host = true
  /\ forall c, WindowUtils.ShowCursor_fails host c = false.

(** The callbacks a trace of a press invoked. *)
Definition invoked (tr : list HotkeyPress.Effect) : list HotkeyManager.Callback :=
  omap (fun e => match e with
                 | HotkeyPress.Invoked cb => Some cb
                 | _ => None
                 end) tr.

(** A form as lines 97 to 111 of [init_ui] lay it out: the four boxes
    in their order, and a key of the combo box. *)
Definition laid_out (f : MainWindow.Form) : Prop :=
  (MainWindow.modifier_checkboxes f).*1 = ["Ctrl"; "Shift"; "Alt"; "Win"]
  /\ MainWindow.hotkey_combo f ∈ MainWindow.available_keys.

(** Whether the registration of a configuration succeeds: it has a key,
    line 69 reads it, and the platform makes and starts the listener. *)
Definition granted (platform : HotkeyManager.Platform) (cfg : HotkeyConfig) : bool :=
  PyStr.truthy (Key cfg)
  && reads_key platform (Key cfg)
  && HotkeyManager.accepts platform (hotkey_string cfg)
  && HotkeyManager.starts platform (hotkey_string cfg).

(** The effects of a trace of the orchestrator that are the hotkey
    manager's. *)
Definition hotkey_effects (tr : list AppServices.Effect) : list HotkeyManager.Effect :=
  omap (fun e => match e with
                 | AppServices.OfHotkeyManager e' => Some e'
                 | _ => None
                 end) tr.

Module MoreFixtures.

Definition windows : WindowUtils.Host :=
  WindowUtils.mkHost "Windows" true (fun _ => false).

(** A form with no box checked, showing the first key. *)
Definition unchecked_f1 : MainWindow.Form :=
  MainWindow.mkForm [("Ctrl", false); ("Shift", false); ("Alt", false); ("Win", false)] "F1".

(** A form with Ctrl and Alt checked and the key G chosen. *)
Definition ctrl_alt_g : MainWindow.Form :=
  MainWindow.mkForm [("Ctrl", true); ("Shift", false); ("Alt", true); ("Win", false)] "G".

(** A disk with the settings a user saved earlier. *)
Definition custom_disk : ConfigManager.Disk :=
  ConfigManager.mkDisk true true true
    (Some (ConfigManager.mkFile
             (ConfigManager.Document (Pydantic.AppSettings_dump Fixtures.custom_settings))
             true true))
    None None false.

End MoreFixtures.

(* ===================================================================== *)
(** * Properties *)
(* ===================================================================== *)

(** ** Running a computation step by step *)

Section MonadFacts.

Context {S L : Type}.

Lemma run_ret {A B} (a : A) (k : A -> M S L B) (s : S) :
  (ret a ≫= k) s = k a s.
Proof.
  unfold mbind, M_bind, bind, ret. by destruct (k a s) as [[r s2] l2].
Qed.

Lemma run_get {B} (k : S -> M S L B) (s : S) :
  (get ≫= k) s = k s s.
Proof.
  unfold mbind, M_bind, bind, get. by destruct (k s s) as [[r s2] l2].
Qed.

Lemma run_modify {B} (f : S -> S) (k : unit -> M S L B) (s : S) :
  (modify f ≫= k) s = k tt (f s).
Proof.
  unfold mbind, M_bind, bind, modify. by destruct (k tt (f s)) as [[r s2] l2].
Qed.

Lemma run_emit {B} (l : L) (k : unit -> M S L B) (s : S) :
  (emit l ≫= k) s = prepend [l] (k tt s).
Proof. reflexivity. Qed.

Lemma prepend_prepend {A} (l1 l2 : list L) (x : Res A * S * list L) :
  prepend l1 (prepend l2 x) = prepend (l1 ++ l2) x.
Proof. destruct x as [[r s] l]. simpl. by rewrite app_assoc. Qed.

Lemma run_raise {A B} (e : PyExn) (k : A -> M S L B) (s : S) :
  (raise e ≫= k) s = (Raise e, s, []).
Proof. reflexivity. Qed.

Lemma run_evaluate_ret {A B} (a : A) (k : A -> M S L B) (s : S) :
  (evaluate (Ret a) ≫= k) s = k a s.
Proof.
  unfold mbind, M_bind, bind, evaluate. by destruct (k a s) as [[r s2] l2].
Qed.

Lemma run_evaluate_raise {A B} (e : PyExn) (k : A -> M S L B) (s : S) :
  (evaluate (Raise e) ≫= k) s = (Raise e, s, []).
Proof. reflexivity. Qed.

Lemma run_bind_ret {A B} (m : M S L A) (k : A -> M S L B) (s s1 : S) (a : A) (l1 : list L) :
  m s = (Ret a, s1, l1) -> (m ≫= k) s = prepend l1 (k a s1).
Proof. intros H. unfold mbind, M_bind, bind. by rewrite H. Qed.

Lemma run_bind_raise {A B} (m : M S L A) (k : A -> M S L B) (s s1 : S) (e : PyExn) (l1 : list L) :
  m s = (Raise e, s1, l1) -> (m ≫= k) s = (Raise e, s1, l1).
Proof. intros H. unfold mbind, M_bind, bind. by rewrite H. Qed.

Lemma run_try_ret {A} (m : M S L A) (h : PyExn -> M S L A) (s s1 : S) (a : A) (l1 : list L) :
  m s = (Ret a, s1, l1) -> try_except m h s = (Ret a, s1, l1).
Proof. intros H. unfold try_except. by rewrite H. Qed.

Lemma run_try_raise {A} (m : M S L A) (h : PyExn -> M S L A) (s s1 : S) (e : PyExn) (l1 : list L) :
  m s = (Raise e, s1, l1) ->
  try_except m h s = prepend l1 (h e s1).
Proof. intros H. unfold try_except. by rewrite H. Qed.

End MonadFacts.


(** ** Strings *)

Section StringFacts.

Import PyStr.

Lemma append_cons (c : ascii) (a b : string) :
  String c a +:+ b = String c (a +:+ b).
Proof. reflexivity. Qed.

(** [startswith] is the prefix test. *)
Lemma startswith_spec (p s : string) :
  startswith p s = true <-> exists r, s = p +:+ r.
Proof.
  revert s. induction p as [|a p IH]; intros s; simpl.
  - split; [intros _; by exists s | done].
  - destruct s as [|b s].
    + split; [done | intros [r Hr]; rewrite append_cons in Hr; discriminate].
    + destruct (decide (a = b)) as [->|Hne].
      * rewrite IH. split; intros [r Hr]; exists r.
        -- rewrite append_cons. by rewrite Hr.
        -- rewrite append_cons in Hr. by inversion Hr.
      * split; [done|]. intros [r Hr]. rewrite append_cons in Hr.
        inversion Hr. congruence.
Qed.

(** [contains] is the substring test. *)
Lemma contains_spec (needle hay : string) :
  contains needle hay = true <-> exists a b, hay = a +:+ needle +:+ b.
Proof.
  induction hay as [|c hay IH].
  - simpl. rewrite orb_false_r, startswith_spec. split.
    + intros [r Hr]. by exists EmptyString, r.
    + intros [a [b Hab]]. destruct a as [|x a].
      * by exists b.
      * rewrite append_cons in Hab. discriminate.
  - cbn [contains]. rewrite orb_true_iff, startswith_spec, IH. split.
    + intros [[r Hr] | [a [b Hab]]].
      * by exists EmptyString, r.
      * exists (String c a), b. rewrite append_cons. by rewrite Hab.
    + intros [a [b Hab]]. destruct a as [|x a].
      * left. by exists b.
      * right. rewrite append_cons in Hab. inversion Hab. by exists a, b.
Qed.

(** Only the empty string occurs in the empty string. *)
Lemma contains_empty_hay (needle : string) :
  contains needle EmptyString = true <-> needle = EmptyString.
Proof. destruct needle; simpl; split; done. Qed.

Lemma lower_empty_iff (s : string) : lower s = EmptyString <-> s = EmptyString.
Proof. destruct s; simpl; split; done. Qed.

Lemma truthy_true_iff (s : string) : truthy s = true <-> s <> EmptyString.
Proof. destruct s; simpl; split; done. Qed.

End StringFacts.

(** ** URL building and title matching *)

Section UrlBuilder.

Import AppLogic.

Lemma build_url_without_term (cfg : GameConfig) :
  _build_url cfg None = BaseUrl cfg.
Proof. reflexivity. Qed.

Lemma build_url_empty_term (cfg : GameConfig) :
  _build_url cfg (Some EmptyString) = BaseUrl cfg.
Proof. reflexivity. Qed.

(** C1, as amended.  The gate on [NeedsSearch] is in the caller: for a
    profile with [NeedsSearch = false] the pipeline asks for the URL
    without a search term and shows no prompt, URL building without a
    search term returns [BaseUrl] unchanged whatever [SearchTemplate] and
    [KeywordMap] the profile carries, and [_build_url] itself never
    reads [NeedsSearch]. *)
Theorem no_search_profile_resolves_to_base_url
    (env : Env) (name : string) (cfg : GameConfig) (st : State) :
  NeedsSearch cfg = false ->
  _build_url cfg None = BaseUrl cfg
  /\ resolve_target env name cfg st
     = (Ret (Some (BaseUrl cfg)),
        set_last_search_url_str (Some (BaseUrl cfg)) st, [])
  /\ forall (flag : bool) (term : option string),
       _build_url (mkGameConfig (BaseUrl cfg) flag (SearchTemplate cfg) (KeywordMap cfg)) term
       = _build_url cfg term.
Proof.
  intros Hns. split; [reflexivity|]. split.
  - unfold resolve_target. rewrite Hns. reflexivity.
  - intros flag term. by destruct cfg.
Qed.

Lemma no_search_profile_resolves_to_base_url_witness :
  NeedsSearch Samples.valorant_with_rules = false
  /\ resolve_target (mkEnv "Valorant" 0 "" None) "Valorant"
       Samples.valorant_with_rules Samples.fresh
     = (Ret (Some "https://wiki.example/valorant"),
        set_last_search_url_str (Some "https://wiki.example/valorant") Samples.fresh, []).
Proof.
  split; [reflexivity|].
  apply (no_search_profile_resolves_to_base_url
           (mkEnv "Valorant" 0 "" None) "Valorant"
           Samples.valorant_with_rules Samples.fresh).
  reflexivity.
Defined.

(** C1 as stated fails: handed a search term, [_build_url] uses it even
    though the profile has [NeedsSearch = false]. *)
Lemma build_url_uses_term_despite_flag :
  NeedsSearch Samples.valorant = false
  /\ _build_url Samples.valorant (Some "x") = "https://wiki.example/valorantx"
  /\ _build_url Samples.valorant (Some "x") <> BaseUrl Samples.valorant
  /\ _build_url Samples.valorant_with_rules (Some "Boss")
     = "https://wiki.example/search?q=Bosses".
Proof. vm_compute. repeat split; discriminate. Qed.

(** C10, as amended: for a profile with a [KeywordMap] and no
    [SearchTemplate], and every non-empty search term whose lowercasing
    is a key of the map, the result is [BaseUrl] followed by the
    percent-encoding of the mapped term. *)
Theorem keyword_map_governs_fallback
    (cfg : GameConfig) (m : gmap string string) (term canonical : string) :
  KeywordMap cfg = Some m ->
  PyStr.truthy_opt (SearchTemplate cfg) = false ->
  term <> EmptyString ->
  m !! PyStr.lower term = Some canonical ->
  _build_url cfg (Some term) = BaseUrl cfg +:+ PyStr.quote_plus canonical.
Proof.
  intros Hm Ht Hne Hk. unfold _build_url.
  destruct term as [|c term]; [done|].
  rewrite Hm. rewrite bool_decide_eq_false_2.
  - rewrite Hk. simpl.
    destruct (SearchTemplate cfg) as [[|]|]; simpl in Ht; done.
  - intros ->. by rewrite lookup_empty in Hk.
Qed.

Lemma keyword_map_governs_fallback_witness :
  _build_url Samples.fandom (Some "BOSS") = "http://test2.fandom.com/" +:+ PyStr.quote_plus "Bosses".
Proof.
  apply (keyword_map_governs_fallback Samples.fandom
           {[ "boss" := "Bosses"; "item" := "Items" ]} "BOSS" "Bosses").
  - reflexivity.
  - reflexivity.
  - discriminate.
  - vm_compute. reflexivity.
Defined.

(** C10 as stated fails at the empty search term: it is a key of the
    map, yet the result is the bare [BaseUrl]. *)
Lemma empty_term_is_not_substituted :
  KeywordMap Samples.fandom_empty_alias = Some {[ "" := "Main_Page" ]}
  /\ SearchTemplate Samples.fandom_empty_alias = None
  /\ ({[ "" := "Main_Page" ]} : gmap string string) !! PyStr.lower "" = Some "Main_Page"
  /\ _build_url Samples.fandom_empty_alias (Some "") = "http://test2.fandom.com/"
  /\ _build_url Samples.fandom_empty_alias (Some "")
     <> BaseUrl Samples.fandom_empty_alias +:+ PyStr.quote_plus "Main_Page".
Proof. vm_compute. repeat split; discriminate. Qed.

End UrlBuilder.

(** ** Matching the window title, and the prompt's pre-fill *)

Section GameMatcher.

Import AppLogic.

Lemma run_observe {B} (e : Effect) (k : unit -> AL B) (st : State) :
  (observe e ≫= k) st = prepend [mkObs e (live_popups st)] (k tt st).
Proof. reflexivity. Qed.

Lemma run_log {B} (lvl : Level) (msg : string) (k : unit -> AL B) (st : State) :
  (log lvl msg ≫= k) st
  = prepend [mkObs (Logged lvl msg) (live_popups st)] (k tt st).
Proof. reflexivity. Qed.

Lemma contains_lower_occurs (key title : string) :
  PyStr.contains (PyStr.lower key) (PyStr.lower title) = true <-> occurs_in key title.
Proof. apply contains_spec. Qed.

Lemma match_game_none (title : string) (catalog : list (string * GameConfig)) :
  match_game title catalog = None
  <-> Forall (fun e => ~ occurs_in e.1 title) catalog.
Proof.
  induction catalog as [|[k c] rest IH]; simpl.
  - split; [constructor | done].
  - destruct (PyStr.contains (PyStr.lower k) (PyStr.lower title)) eqn:Hk.
    + split; [done|]. intros Hall. inversion Hall as [|? ? Hno _]; subst.
      exfalso. apply Hno. by apply contains_lower_occurs.
    + rewrite IH. split.
      * intros Hrest. constructor; [|done]. simpl. intros Hocc.
        apply contains_lower_occurs in Hocc. congruence.
      * intros Hall. by inversion Hall.
Qed.

Lemma match_game_some (title : string) (catalog : list (string * GameConfig))
    (k : string) (c : GameConfig) :
  match_game title catalog = Some (k, c)
  <-> exists pre post,
        catalog = pre ++ (k, c) :: post
        /\ occurs_in k title
        /\ Forall (fun e => ~ occurs_in e.1 title) pre.
Proof.
  induction catalog as [|[k' c'] rest IH]; simpl.
  - split; [done|]. intros (pre & post & Heq & _). by destruct pre.
  - destruct (PyStr.contains (PyStr.lower k') (PyStr.lower title)) eqn:Hk.
    + split.
      * intros [= -> ->]. exists [], rest. split; [done|].
        split; [by apply contains_lower_occurs | constructor].
      * intros (pre & post & Heq & Hocc & Hpre). destruct pre as [|[k0 c0] pre].
        -- simpl in Heq. by inversion Heq.
        -- simpl in Heq. inversion Heq; subst.
           inversion Hpre as [|? ? Hno _]; subst. exfalso. apply Hno.
           by apply contains_lower_occurs.
    + rewrite IH. split.
      * intros (pre & post & -> & Hocc & Hpre).
        exists ((k', c') :: pre), post. split; [done|]. split; [done|].
        constructor; [|done]. simpl. intros Ho.
        apply contains_lower_occurs in Ho. congruence.
      * intros (pre & post & Heq & Hocc & Hpre). destruct pre as [|[k0 c0] pre].
        -- simpl in Heq. inversion Heq; subst.
           apply contains_lower_occurs in Hocc. congruence.
        -- simpl in Heq. inversion Heq; subst.
           exists pre, post. split; [done|]. split; [done|].
           by inversion Hpre.
Qed.

Lemma occurs_in_empty_title (key : string) :
  occurs_in key EmptyString <-> key = EmptyString.
Proof.
  unfold occurs_in. rewrite <- contains_spec. simpl PyStr.lower.
  rewrite contains_empty_hay. apply lower_empty_iff.
Qed.

(** C4, as amended.  For every title and every catalog, matching returns
    the first entry in iteration order whose key occurs case-insensitively
    as a substring of the title, and no entry exactly when no key so
    occurs; an empty title produces no match exactly when no key of the
    catalog is empty. *)
Theorem match_game_first_occurrence
    (title : string) (catalog : list (string * GameConfig)) :
  (forall k c,
     match_game title catalog = Some (k, c)
     <-> exists pre post,
           catalog = pre ++ (k, c) :: post
           /\ occurs_in k title
           /\ Forall (fun e => ~ occurs_in e.1 title) pre)
  /\ (match_game title catalog = None
      <-> Forall (fun e => ~ occurs_in e.1 title) catalog)
  /\ (match_game EmptyString catalog = None
      <-> Forall (fun e => e.1 <> EmptyString) catalog).
Proof.
  split; [intros k c; apply match_game_some|].
  split; [apply match_game_none|].
  rewrite match_game_none. apply Forall_proper; [|done].
  intros e. by rewrite occurs_in_empty_title.
Qed.

(** C4 as stated fails where the catalog has an empty key: the empty key
    is a substring of the empty title, so an empty title is matched. *)
Lemma empty_title_matches_empty_key :
  match_game "" [("Valorant", Samples.valorant); ("", Samples.elden)]
  = Some ("", Samples.elden).
Proof. reflexivity. Qed.

(** The pre-fill is decided by containment. *)
Lemma prompt_last_search_term_spec (cfg : GameConfig) (last : option string) :
  (substring_of (BaseUrl cfg) (default EmptyString last) ->
   prompt_last_search_term cfg last = Some EmptyString)
  /\ (~ substring_of (BaseUrl cfg) (default EmptyString last) ->
      prompt_last_search_term cfg last = last).
Proof.
  unfold prompt_last_search_term, substring_of.
  destruct (PyStr.contains (BaseUrl cfg) (default EmptyString last)) eqn:Hc; simpl.
  - split; [done|]. intros Hn. exfalso. apply Hn. by apply contains_spec.
  - split; [|done]. intros Hs. apply contains_spec in Hs. congruence.
Qed.

(** C7, as amended.  When a NeedsSearch profile is matched, the first
    thing the pipeline does is to show the prompt, and the prompt is given
    the last resolved URL exactly when that URL does not contain the
    profile's BaseUrl anywhere; otherwise the pre-fill is empty. *)
Theorem search_prompt_prefill
    (env : Env) (name : string) (cfg : GameConfig) (st : State) :
  NeedsSearch cfg = true ->
  exists r st' rest pre,
    resolve_target env name cfg st
    = (r, st',
       mkObs (Prompt pre ("Search " +:+ name +:+ " Wiki...")
                     (bool_decide (main_window st = Some true)))
             (live_popups st) :: rest)
    /\ (substring_of (BaseUrl cfg) (default EmptyString (last_search_url_str st)) ->
        pre = Some EmptyString)
    /\ (~ substring_of (BaseUrl cfg) (default EmptyString (last_search_url_str st)) ->
        pre = last_search_url_str st).
Proof.
  intros Hns. unfold resolve_target. rewrite Hns. change (negb true) with false. cbv iota.
  rewrite run_get, run_observe. cbv beta.
  match goal with
  | |- context [prepend _ ?x] => destruct x as [[r st'] rest]
  end.
  exists r, st', rest,
    (prompt_last_search_term cfg (last_search_url_str st)).
  split; [reflexivity|]. apply prompt_last_search_term_spec.
Qed.

Lemma search_prompt_prefill_witness :
  exists r st' rest pre,
    resolve_target Samples.cancel_over_elden "Elden" Samples.elden Samples.fresh
    = (r, st',
       mkObs (Prompt pre ("Search " +:+ "Elden" +:+ " Wiki...")
                     (bool_decide (main_window Samples.fresh = Some true)))
             (live_popups Samples.fresh) :: rest)
    /\ (substring_of (BaseUrl Samples.elden)
                     (default EmptyString (last_search_url_str Samples.fresh)) ->
        pre = Some EmptyString)
    /\ (~ substring_of (BaseUrl Samples.elden)
                       (default EmptyString (last_search_url_str Samples.fresh)) ->
        pre = last_search_url_str Samples.fresh).
Proof.
  apply (search_prompt_prefill Samples.cancel_over_elden "Elden"
           Samples.elden Samples.fresh).
  reflexivity.
Defined.

(** C7 as stated fails: the last URL does not start with the profile's
    BaseUrl, yet the prompt is given an empty pre-fill, because BaseUrl
    occurs further inside that URL. *)
Lemma prefill_withheld_without_prefix :
  NeedsSearch Samples.schemeless = true
  /\ last_search_url_str Samples.searched = Some "https://w.example/search?q=fire+staff"
  /\ PyStr.startswith (BaseUrl Samples.schemeless)
                      "https://w.example/search?q=fire+staff" = false
  /\ map effect
        (snd (resolve_target Samples.cancel_over_elden "Elden"
                Samples.schemeless Samples.searched))
     = [ Prompt (Some "") "Search Elden Wiki..." false;
         Logged INFO "Search prompt was rejected or closed." ].
Proof. vm_compute. repeat split. Qed.

End GameMatcher.

(** ** The search prompt *)

Section SearchPrompt.

Import AppLogic SearchPromptDialog.

Lemma exec_dialog_code (pre : option string) (env : Env) :
  fst (exec_dialog pre (exec_result env) (input_text env)) = prompt_outcome env.
Proof.
  unfold prompt_outcome, exec_dialog. by destruct (DialogCode_of_int _) as [[]|].
Qed.

Lemma set_last_search_url_str_id (st : State) :
  set_last_search_url_str (last_search_url_str st) st = st.
Proof. by destruct st. Qed.

(** The handler up to the matched profile. *)
Lemma handler_matched (env : Env) (st : State) (cfgs : list (string * GameConfig))
    (name : string) (cfg : GameConfig) :
  game_configs st = Some cfgs ->
  match_game (active_window_title env) cfgs = Some (name, cfg) ->
  _handle_hotkey_press_thread_safe env st
  = prepend
      [ mkObs (Logged INFO "Global hotkey pressed (handled in Qt thread).") (live_popups st);
        mkObs (Logged INFO ("Active window: '" +:+ active_window_title env +:+ "'")) (live_popups st);
        mkObs (Logged INFO ("Matched game: " +:+ name)) (live_popups st) ]
      (pipeline env name cfg st).
Proof.
  intros Hcfgs Hmatch. unfold _handle_hotkey_press_thread_safe.
  rewrite !run_log. cbv beta. rewrite run_get. cbv beta. rewrite Hcfgs.
  destruct cfgs as [|e0 cfgs0]; [done|]. rewrite Hmatch.
  rewrite run_log. cbv beta. by rewrite !prepend_prepend.
Qed.

(** The special handling leaves the state alone. *)
Lemma special_handling_run (name : string) (st : State) :
  exists handled tr,
    special_handling name st = (Ret handled, st, tr)
    /\ quiet (live_popups st) tr.
Proof.
  unfold special_handling.
  destruct (PyStr.truthy name && bool_decide (PyStr.lower name ∈ special_games)).
  - rewrite run_log; cbv beta. rewrite run_observe; cbv beta.
    rewrite run_get; cbv beta. destruct (visible_popup st) as [p|].
    + eexists _, _. split; [reflexivity|]. repeat constructor.
    + eexists _, _. split; [reflexivity|]. repeat constructor.
  - eexists _, _. split; [reflexivity|]. constructor.
Qed.

(** What resolving the target does: nothing but storing the URL it
    returns; it returns none exactly when the prompt was cancelled. *)
Lemma resolve_target_run (env : Env) (name : string) (cfg : GameConfig) (st : State) :
  exists target tr,
    resolve_target env name cfg st
    = (Ret target,
       match target with
       | Some url => set_last_search_url_str (Some url) st
       | None => st
       end, tr)
    /\ quiet (live_popups st) tr
    /\ (target = None <-> NeedsSearch cfg = true /\ prompt_outcome env = REJECTED).
Proof.
  unfold resolve_target. destruct (NeedsSearch cfg) eqn:Hns.
  - change (negb true) with false. cbv iota.
    rewrite run_get, run_observe. cbv beta.
    pose proof (exec_dialog_code
                  (prompt_last_search_term cfg (last_search_url_str st)) env) as Hcode.
    destruct (exec_dialog _ (exec_result env) (input_text env)) as [code term].
    simpl in Hcode. rewrite <- Hcode. destruct code.
    + destruct (PyStr.truthy_opt term).
      * eexists (Some _), _. split; [reflexivity|].
        split; [repeat constructor|]. split; [done | by intros [_ ?]].
      * eexists (Some _), _. split; [reflexivity|].
        split; [repeat constructor|]. split; [done | by intros [_ ?]].
    + eexists None, _. split; [reflexivity|].
      split; [repeat constructor|]. done.
    + destruct (last_search_url_str st) as [last|] eqn:Hlast.
      * destruct (PyStr.truthy_opt (Some last)).
        -- exists (Some last), [mkObs (Prompt (prompt_last_search_term cfg (Some last))
                                        ("Search " +:+ name +:+ " Wiki...")
                                        (bool_decide (main_window st = Some true)))
                                     (live_popups st)].
           split.
           ++ assert (set_last_search_url_str (Some last) st = st) as ->
                by (rewrite <- Hlast; apply set_last_search_url_str_id).
              reflexivity.
           ++ split; [repeat constructor|]. split; [done | by intros [_ ?]].
        -- eexists (Some _), _. split; [reflexivity|].
           split; [repeat constructor|]. split; [done | by intros [_ ?]].
      * eexists (Some _), _. split; [reflexivity|].
        split; [repeat constructor|]. split; [done | by intros [_ ?]].
  - change (negb false) with true. cbv iota.
    eexists (Some _), _. split; [reflexivity|].
    split; [constructor|]. split; [done | by intros [? _]].
Qed.

(** C6.  When a NeedsSearch profile is matched and the search prompt
    resolves as Cancelled, the handler returns with the whole state as it
    was (settings, the disk behind them, lastSearchUrl, activePopup and
    every popup object), and none of its effects opens, closes or replaces
    a popup. *)
Theorem cancelled_prompt_changes_nothing
    (env : Env) (st : State) (cfgs : list (string * GameConfig))
    (name : string) (cfg : GameConfig) :
  game_configs st = Some cfgs ->
  match_game (active_window_title env) cfgs = Some (name, cfg) ->
  NeedsSearch cfg = true ->
  prompt_outcome env = REJECTED ->
  exists tr,
    _handle_hotkey_press_thread_safe env st = (Ret tt, st, tr)
    /\ Forall (fun o => popup_lifecycle_effect (effect o) = false) tr.
Proof.
  intros Hcfgs Hmatch Hns Hout.
  rewrite (handler_matched env st cfgs name cfg Hcfgs Hmatch).
  unfold pipeline.
  destruct (special_handling_run name st) as (handled & tr1 & Hsp & Hq1).
  rewrite (run_bind_ret _ _ _ _ _ _ Hsp).
  destruct handled.
  - eexists. split; [reflexivity|].
    repeat (constructor; [done|]). simpl. rewrite app_nil_r.
    eapply Forall_impl; [exact Hq1|]. by intros o [? _].
  - destruct (resolve_target_run env name cfg st) as (target & tr2 & Hrt & Hq2 & Hnone).
    assert (target = None) as -> by (by apply Hnone).
    rewrite (run_bind_ret _ _ _ _ _ _ Hrt). simpl PyStr.truthy_opt. cbv iota.
    eexists. split; [reflexivity|].
    repeat (constructor; [done|]). simpl. rewrite app_nil_r.
    apply Forall_app. split; eapply Forall_impl; eauto; by intros o [? _].
Qed.

Lemma cancelled_prompt_changes_nothing_witness :
  exists tr,
    _handle_hotkey_press_thread_safe Samples.cancel_over_elden Samples.showing
    = (Ret tt, Samples.showing, tr)
    /\ Forall (fun o => popup_lifecycle_effect (effect o) = false) tr.
Proof.
  apply (cancelled_prompt_changes_nothing Samples.cancel_over_elden
           Samples.showing Samples.catalog "Elden" Samples.elden);
    reflexivity.
Defined.

End SearchPrompt.

(** ** The popup: single instance, replacement, failure *)

Section PopupLifecycle.

Import AppLogic.

Lemma live_from_ge (i j : nat) (ws : list WebViewPopup) :
  j ∈ live_from i ws -> i <= j.
Proof.
  revert i. induction ws as [|w r IH]; intros i; simpl.
  - by intros ?%elem_of_nil.
  - destruct (alive w).
    + intros [->|Hin]%elem_of_cons; [lia|]. apply IH in Hin. lia.
    + intros Hin. apply IH in Hin. lia.
Qed.

Lemma live_from_all_above (i c : nat) (ws : list WebViewPopup) :
  c < i -> (forall j, j ∈ live_from i ws -> j = c) -> live_from i ws = [].
Proof.
  intros Hc Hall. destruct (live_from i ws) as [|j t] eqn:Hl; [done|].
  assert (j ∈ live_from i ws) as Hin by (rewrite Hl; left).
  pose proof (live_from_ge _ _ _ Hin) as Hge. rewrite Hl in Hin.
  specialize (Hall j Hin). lia.
Qed.

(** Popups that are all the same popup are at most one. *)
Lemma live_from_at_most_one (i c : nat) (ws : list WebViewPopup) :
  (forall j, j ∈ live_from i ws -> j = c) -> length (live_from i ws) <= 1.
Proof.
  revert i. induction ws as [|w r IH]; intros i Hall; simpl in *; [lia|].
  destruct (alive w).
  - assert (i = c) as <- by (apply Hall; left).
    rewrite (live_from_all_above (S i) i r); [simpl; lia | lia |].
    intros j Hj. apply Hall. by right.
  - by apply IH.
Qed.

(** Changing a popup without touching [alive] changes no liveness. *)
Lemma live_from_insert_same (i p : nat) (ws : list WebViewPopup) (w w' : WebViewPopup) :
  ws !! p = Some w -> alive w' = alive w ->
  live_from i (<[p := w']> ws) = live_from i ws.
Proof.
  revert i p. induction ws as [|w0 r IH]; intros i p Hp Ha; [done|].
  destruct p as [|p]; simpl in *.
  - injection Hp as ->. by rewrite Ha.
  - by rewrite (IH (S i) p Hp Ha).
Qed.

(** Closing the one popup that may be alive leaves none alive. *)
Lemma live_from_insert_dead (i p : nat) (ws : list WebViewPopup) (w' : WebViewPopup) :
  (forall j, j ∈ live_from i ws -> j = i + p) -> alive w' = false ->
  live_from i (<[p := w']> ws) = [].
Proof.
  revert i p. induction ws as [|w0 r IH]; intros i p Hall Ha; [done|].
  destruct p as [|p]; simpl in *.
  - rewrite Ha. apply (live_from_all_above (S i) i); [lia|].
    intros j Hj. rewrite (Hall j); [lia|].
    destruct (alive w0); [by right | done].
  - destruct (alive w0).
    + specialize (Hall i). rewrite elem_of_cons in Hall.
      assert (i = i + S p) by (apply Hall; by left). lia.
    + apply IH; [|done]. intros j Hj. rewrite (Hall j Hj). lia.
Qed.

Lemma live_from_app (i : nat) (ws : list WebViewPopup) (w : WebViewPopup) :
  live_from i (ws ++ [w])
  = live_from i ws ++ (if alive w then [i + length ws] else []).
Proof.
  revert i. induction ws as [|w0 r IH]; intros i; simpl.
  - rewrite Nat.add_0_r. by destruct (alive w).
  - rewrite IH. replace (S i + length r) with (i + S (length r)) by lia.
    by destruct (alive w0).
Qed.

Lemma single_instance_at_most_one (st : State) :
  single_instance st -> length (live_popups st) <= 1.
Proof.
  unfold single_instance, live_popups. intros Hall.
  destruct (current_popup st) as [c|] eqn:Hc.
  - apply (live_from_at_most_one 0 c). intros j Hj.
    rewrite Forall_forall in Hall. specialize (Hall j Hj). congruence.
  - destruct (live_from 0 (popups st)) as [|j t]; [simpl; lia|].
    inversion Hall; subst. discriminate.
Qed.

(** Lookup and update of the popup objects. *)
Lemma update_popup_some (p : nat) (f : WebViewPopup -> WebViewPopup)
    (st : State) (w : WebViewPopup) :
  popups st !! p = Some w ->
  update_popup p f st = set_popups (<[p := f w]> (popups st)) st.
Proof. intros H. unfold update_popup. by rewrite H. Qed.

Lemma update_popup_none (p : nat) (f : WebViewPopup -> WebViewPopup) (st : State) :
  popups st !! p = None -> update_popup p f st = st.
Proof. intros H. unfold update_popup. by rewrite H. Qed.

Lemma lookup_after_insert (p : nat) (ws : list WebViewPopup) (w w' : WebViewPopup) :
  ws !! p = Some w -> <[p := w']> ws !! p = Some w'.
Proof. intros H. apply list_lookup_insert_eq. by eapply lookup_lt_Some. Qed.

(** Closing a popup whose signal is not connected. *)
Lemma close_disconnected (p : nat) (st : State) (w : WebViewPopup) :
  popups st !! p = Some w -> connected w = false ->
  close p st
  = (Ret tt, update_popup p closed st,
     [ mkObs (Logged INFO "WebViewPopup closing. Emitting geometry") (live_popups st);
       mkObs (Closing p (geometry w)) (live_popups st);
       mkObs (Logged DEBUG "WebViewPopup closeEvent completed.")
             (live_popups (update_popup p closed st));
       mkObs (Closed p) (live_popups (update_popup p closed st)) ]).
Proof.
  intros Hp Hc. unfold close. rewrite run_get. cbv beta. rewrite Hp.
  rewrite run_log; cbv beta. rewrite run_observe; cbv beta. rewrite Hc.
  cbv iota. rewrite run_ret; cbv beta. rewrite run_modify; cbv beta.
  rewrite run_log; cbv beta.
  reflexivity.
Qed.

Lemma close_missing (p : nat) (st : State) :
  popups st !! p = None -> close p st = (Ret tt, st, []).
Proof.
  intros Hp. unfold close. rewrite run_get. cbv beta. by rewrite Hp.
Qed.

(** Closing the existing popup, step by step. *)
Lemma close_existing_some (p : nat) (st : State) (w : WebViewPopup) :
  current_popup st = Some p -> popups st !! p = Some w ->
  let st1 := update_popup p (set_connected false) st in
  let st2 := update_popup p closed st1 in
  close_existing st
  = (Ret tt, set_current_popup None st2,
     [ mkObs (Logged INFO "Closing existing popup before opening new one.") (live_popups st);
       mkObs (Logged INFO "WebViewPopup closing. Emitting geometry") (live_popups st1);
       mkObs (Closing p (geometry w)) (live_popups st1);
       mkObs (Logged DEBUG "WebViewPopup closeEvent completed.") (live_popups st2);
       mkObs (Closed p) (live_popups st2) ]).
Proof.
  intros Hcur Hp st1 st2. unfold close_existing.
  rewrite run_get. cbv beta. rewrite Hcur.
  rewrite run_log; cbv beta. rewrite run_modify. fold st1.
  assert (popups st1 !! p = Some (set_connected false w)) as Hp1.
  { unfold st1. rewrite (update_popup_some _ _ _ _ Hp). simpl.
    by eapply lookup_after_insert. }
  rewrite (run_bind_ret _ _ _ _ _ _ (close_disconnected p st1 _ Hp1 eq_refl)).
  cbv beta. fold st2. unfold modify. reflexivity.
Qed.

Lemma close_existing_none (st : State) :
  current_popup st = None -> close_existing st = (Ret tt, st, []).
Proof.
  intros Hcur. unfold close_existing. rewrite run_get. cbv beta. by rewrite Hcur.
Qed.

Lemma close_existing_dangling (p : nat) (st : State) :
  current_popup st = Some p -> popups st !! p = None ->
  close_existing st
  = (Ret tt, set_current_popup None st,
     [ mkObs (Logged INFO "Closing existing popup before opening new one.") (live_popups st) ]).
Proof.
  intros Hcur Hp. unfold close_existing.
  rewrite run_get. cbv beta. rewrite Hcur.
  rewrite run_log; cbv beta. rewrite run_modify.
  rewrite (update_popup_none _ _ _ Hp).
  rewrite (run_bind_ret _ _ _ _ _ _ (close_missing p st Hp)).
  reflexivity.
Qed.

Lemma lookup_last (ws : list WebViewPopup) (x : WebViewPopup) :
  (ws ++ [x]) !! length ws = Some x.
Proof. induction ws; simpl; auto. Qed.

Lemma insert_last (ws : list WebViewPopup) (x y : WebViewPopup) :
  <[length ws := y]> (ws ++ [x]) = ws ++ [y].
Proof. induction ws; simpl; [done | congruence]. Qed.

Lemma update_new_popup (st : State) (w : WebViewPopup) (f : WebViewPopup -> WebViewPopup) :
  update_popup (length (popups st)) f (with_new_popup st w) = with_new_popup st (f w).
Proof.
  unfold update_popup, with_new_popup. simpl. rewrite lookup_last.
  unfold set_popups, set_current_popup. simpl. by rewrite insert_last.
Qed.

Lemma live_with_new_popup (st : State) (w : WebViewPopup) :
  alive w = true ->
  live_popups (with_new_popup st w) = live_popups st ++ [length (popups st)].
Proof.
  intros Ha. unfold live_popups, with_new_popup. simpl.
  by rewrite live_from_app, Ha.
Qed.

Lemma report_failure_run (e : PyExn) (st : State) :
  report_failure e st = (Ret tt, st, failure_report st).
Proof.
  unfold report_failure, failure_report. rewrite run_log; cbv beta.
  rewrite run_get; cbv beta. by destruct (tray_icon st).
Qed.

(** The creation of the popup, by the statement that fails. *)
Lemma create_and_show_run (env : Env) (url : string) (c : PopupConfig) (st : State) :
  let n := length (popups st) in
  let live := live_popups st ++ [n] in
  create_and_show env url c st
  = match popup_fault env with
    | Some GetSharedProfile | Some Constructor => (Raise RuntimeError, st, [])
    | Some ConnectSignal =>
        (Raise RuntimeError, with_new_popup st (new_popup url c false false),
         [mkObs (Constructed n url) live])
    | Some ShowPopup =>
        (Raise RuntimeError, with_new_popup st (new_popup url c true false),
         [mkObs (Constructed n url) live])
    | None =>
        (Ret tt, with_new_popup st (new_popup url c true true),
         [mkObs (Constructed n url) live; mkObs (Shown n) live; mkObs ShowCursor live])
    end.
Proof.
  intros n live. unfold create_and_show, fault_at.
  change (mkWebViewPopup url c (config_to_geometry c) false true false)
    with (new_popup url c false false).
  assert (Hlive : forall a b,
            live_popups (with_new_popup st (new_popup url c a b)) = live).
  { intros a b. by apply live_with_new_popup. }
  assert (Hlive0 : live_popups (set_popups (popups st ++ [new_popup url c false false]) st) = live).
  { unfold live_popups. simpl. by rewrite live_from_app. }
  destruct (popup_fault env) as [[]|]; simpl bool_decide; cbv iota.
  - reflexivity.
  - rewrite run_ret. reflexivity.
  - rewrite !run_ret. rewrite run_get; cbv beta. rewrite run_modify.
    rewrite run_observe; cbv beta. rewrite run_modify.
    fold n. change (set_current_popup _ _) with (with_new_popup st (new_popup url c false false)).
    rewrite Hlive0. reflexivity.
  - rewrite !run_ret. rewrite run_get; cbv beta. rewrite run_modify.
    rewrite run_observe; cbv beta. rewrite run_modify.
    fold n. change (set_current_popup _ _) with (with_new_popup st (new_popup url c false false)).
    rewrite run_ret. rewrite run_modify. unfold n. rewrite update_new_popup.
    rewrite Hlive0. reflexivity.
  - rewrite !run_ret. rewrite run_get; cbv beta. rewrite run_modify.
    rewrite run_observe; cbv beta. rewrite run_modify.
    fold n. change (set_current_popup _ _) with (with_new_popup st (new_popup url c false false)).
    rewrite run_ret. rewrite run_modify. unfold n. rewrite update_new_popup.
    rewrite run_ret. rewrite run_modify. rewrite update_new_popup.
    rewrite run_observe; cbv beta. unfold observe.
    rewrite Hlive0. simpl set_connected. simpl set_visible.
    change (set_visible true (set_connected true (new_popup url c false false)))
      with (new_popup url c true true).
    rewrite (Hlive true true). reflexivity.
Qed.

Lemma live_from_lt (i j : nat) (ws : list WebViewPopup) :
  j ∈ live_from i ws -> j < i + length ws.
Proof.
  revert i. induction ws as [|w r IH]; intros i; simpl.
  - by intros ?%elem_of_nil.
  - destruct (alive w).
    + intros [->|Hin]%elem_of_cons; [lia|]. apply IH in Hin. lia.
    + intros Hin. apply IH in Hin. lia.
Qed.

Lemma same_but_popups_update (p : nat) (f : WebViewPopup -> WebViewPopup) (st : State) :
  same_but_popups st (update_popup p f st).
Proof. unfold update_popup. by destruct (popups st !! p). Qed.

Lemma same_but_popups_trans (a b c : State) :
  same_but_popups a b -> same_but_popups b c -> same_but_popups a c.
Proof.
  unfold same_but_popups. intros (?&?&?&?&?&?) (?&?&?&?&?&?).
  repeat split; congruence.
Qed.

Lemma length_popups_update (p : nat) (f : WebViewPopup -> WebViewPopup) (st : State) :
  length (popups (update_popup p f st)) = length (popups st).
Proof.
  unfold update_popup. destruct (popups st !! p); [|done].
  simpl. apply length_insert.
Qed.

(** Closing the existing popup: the state keeps everything but the
    popups, no popup is alive afterwards, the closing notification carries
    the geometry the popup had, and nothing is constructed or shown. *)
Lemma close_existing_run (st : State) :
  single_instance st ->
  exists st1 tr1,
    close_existing st = (Ret tt, st1, tr1)
    /\ same_but_popups st st1
    /\ current_popup st1 = None
    /\ live_popups st1 = []
    /\ length (popups st1) = length (popups st)
    /\ at_most_one_live tr1
    /\ Forall (fun o => match effect o with
                        | Constructed _ _ | Shown _ | Notify _ _
                        | Logged ERROR _ => False
                        | _ => True
                        end) tr1
    /\ (forall p w, current_popup st = Some p -> popups st !! p = Some w ->
        popups st1 !! p = Some (closed (set_connected false w))
        /\ exists pre post,
             map effect tr1 = pre ++ Closing p (geometry w) :: post
             /\ Forall (fun e => popup_lifecycle_effect e = false) pre).
Proof.
  intros Hinv. pose proof (single_instance_at_most_one st Hinv) as Hle.
  destruct (current_popup st) as [p|] eqn:Hcur.
  - assert (Hall : forall j, j ∈ live_from 0 (popups st) -> j = 0 + p).
    { intros j Hj. unfold single_instance in Hinv. rewrite Forall_forall in Hinv.
      specialize (Hinv j Hj). simpl. congruence. }
    destruct (popups st !! p) as [w|] eqn:Hp.
    + pose proof (close_existing_some p st w Hcur Hp) as Hrun. cbv zeta in Hrun.
      set (st1 := update_popup p (set_connected false) st) in *.
      set (st2 := update_popup p closed st1) in *.
      assert (Hp1 : popups st1 !! p = Some (set_connected false w)).
      { unfold st1. rewrite (update_popup_some _ _ _ _ Hp). simpl.
        by eapply lookup_after_insert. }
      assert (Hl1 : live_popups st1 = live_popups st).
      { unfold st1, live_popups. rewrite (update_popup_some _ _ _ _ Hp). simpl.
        by apply (live_from_insert_same 0 p (popups st) w). }
      assert (Hl2 : live_popups st2 = []).
      { unfold st2, live_popups. rewrite (update_popup_some _ _ _ _ Hp1). simpl.
        apply live_from_insert_dead; [|done].
        fold (live_popups st1). rewrite Hl1. exact Hall. }
      eexists _, _. split; [exact Hrun|].
      split.
      { eapply same_but_popups_trans; [apply (same_but_popups_update p (set_connected false) st)|].
        fold st1. pose proof (same_but_popups_update p closed st1) as H2.
        fold st2 in H2. unfold same_but_popups in *. by destruct st2. }
      split; [by destruct st2|].
      split; [by destruct st2|].
      split.
      { transitivity (length (popups st2)); [by destruct st2|].
        unfold st2, st1. by rewrite !length_popups_update. }
      split.
      { unfold at_most_one_live. rewrite Hl1, Hl2.
        repeat (constructor; [simpl; lia|]). constructor. }
      split; [repeat constructor|].
      intros p' w' [= <-] Hp'. rewrite Hp in Hp'. injection Hp' as <-.
      split.
      { transitivity (popups st2 !! p); [by destruct st2|].
        unfold st2. rewrite (update_popup_some _ _ _ _ Hp1). simpl.
        by eapply lookup_after_insert. }
      eexists [_; _], [_; _]. split; [reflexivity|]. repeat constructor.
    + assert (Hl : live_popups st = []).
      { unfold live_popups.
        assert (forall j, j ∈ live_from 0 (popups st) -> False) as Hno.
        { intros j Hj. pose proof (live_from_lt _ _ _ Hj) as Hlt.
          apply Hall in Hj. apply lookup_ge_None in Hp. lia. }
        destruct (live_from 0 (popups st)) as [|j t]; [done|].
        exfalso. apply (Hno j). left. }
      eexists _, _. split; [exact (close_existing_dangling p st Hcur Hp)|].
      split; [by destruct st|].
      split; [by destruct st|].
      split; [by destruct st|].
      split; [by destruct st|].
      split; [constructor; [exact Hle | constructor]|].
      split; [repeat constructor|].
      intros p' w' [= <-] Hp'. congruence.
  - assert (Hl : live_popups st = []).
    { unfold single_instance in Hinv. destruct (live_popups st); [done|].
      inversion Hinv; subst. congruence. }
    eexists _, _. split; [exact (close_existing_none st Hcur)|].
    split; [done|]. split; [done|]. split; [done|]. split; [done|].
    split; [constructor|]. split; [constructor|]. intros p w [=].
Qed.

(** The [try] block with its handler. *)
Lemma create_phase_run (env : Env) (url : string) (c : PopupConfig) (st : State) :
  let n := length (popups st) in
  let live := live_popups st ++ [n] in
  try_except (create_and_show env url c) report_failure st
  = match popup_fault env with
    | Some GetSharedProfile | Some Constructor => (Ret tt, st, failure_report st)
    | Some ConnectSignal =>
        (Ret tt, with_new_popup st (new_popup url c false false),
         mkObs (Constructed n url) live
         :: failure_report (with_new_popup st (new_popup url c false false)))
    | Some ShowPopup =>
        (Ret tt, with_new_popup st (new_popup url c true false),
         mkObs (Constructed n url) live
         :: failure_report (with_new_popup st (new_popup url c true false)))
    | None =>
        (Ret tt, with_new_popup st (new_popup url c true true),
         [mkObs (Constructed n url) live; mkObs (Shown n) live; mkObs ShowCursor live])
    end.
Proof.
  intros n live. pose proof (create_and_show_run env url c st) as Hrun.
  cbv zeta in Hrun. fold n live in Hrun.
  destruct (popup_fault env) as [[]|].
  - rewrite (run_try_raise _ _ _ _ _ _ Hrun), report_failure_run. reflexivity.
  - rewrite (run_try_raise _ _ _ _ _ _ Hrun), report_failure_run. reflexivity.
  - rewrite (run_try_raise _ _ _ _ _ _ Hrun), report_failure_run. reflexivity.
  - rewrite (run_try_raise _ _ _ _ _ _ Hrun), report_failure_run. reflexivity.
  - rewrite (run_try_ret _ _ _ _ _ _ Hrun). reflexivity.
Qed.

(** [open_popup] as its two phases. *)
Lemma open_popup_run (env : Env) (url : string) (st st1 : State)
    (tr1 : list Obs) (s : AppSettings) :
  close_existing st = (Ret tt, st1, tr1) ->
  settings st1 = Some s ->
  open_popup env url st
  = prepend (mkObs (Logged INFO ("Target URL: " +:+ url)) (live_popups st) :: tr1)
      (try_except (create_and_show env url (Popup s)) report_failure st1).
Proof.
  intros Hclose Hs. unfold open_popup. rewrite run_log; cbv beta.
  rewrite (run_bind_ret _ _ _ _ _ _ Hclose). cbv beta.
  rewrite run_get; cbv beta. rewrite Hs. by rewrite prepend_prepend.
Qed.

Lemma single_instance_with_new_popup (st : State) (w : WebViewPopup) :
  live_popups st = [] -> single_instance (with_new_popup st w).
Proof.
  intros Hl. unfold single_instance, live_popups, with_new_popup. simpl.
  rewrite live_from_app. fold (live_popups st). rewrite Hl. simpl.
  destruct (alive w); repeat constructor.
Qed.

Lemma failure_report_at_most_one (st : State) :
  length (live_popups st) <= 1 -> at_most_one_live (failure_report st).
Proof.
  intros Hle. unfold failure_report, at_most_one_live.
  destruct (tray_icon st); repeat (constructor; [exact Hle|]); constructor.
Qed.

Lemma same_but_popups_with_new_popup (st : State) (w : WebViewPopup) :
  same_but_popups st (with_new_popup st w).
Proof. by destruct st. Qed.

Lemma same_but_popups_refl (st : State) : same_but_popups st st.
Proof. by repeat split. Qed.

(** The creation phase, entered with no popup alive. *)
Lemma create_phase_props (env : Env) (url : string) (c : PopupConfig) (st : State) :
  live_popups st = [] ->
  current_popup st = None ->
  let n := length (popups st) in
  exists st' tr,
    try_except (create_and_show env url c) report_failure st = (Ret tt, st', tr)
    /\ same_but_popups st st'
    /\ single_instance st'
    /\ at_most_one_live tr
    /\ match popup_fault env with
       | None =>
           popups st' = popups st ++ [new_popup url c true true]
           /\ current_popup st' = Some n
           /\ map effect tr = [Constructed n url; Shown n; ShowCursor]
       | Some stage =>
           popups st'
           = popups st ++ (if constructed_before stage
                           then [new_popup url c (bool_decide (stage = ShowPopup)) false]
                           else [])
           /\ current_popup st' = (if constructed_before stage then Some n else None)
           /\ map effect tr = failed_creation_effects stage n url (tray_icon st)
       end.
Proof.
  intros Hl Hcur n. rewrite create_phase_run. cbv zeta. fold n. rewrite Hl.
  assert (Hnew : forall a b, live_popups (with_new_popup st (new_popup url c a b)) = [n]).
  { intros a b. rewrite live_with_new_popup; [|done]. by rewrite Hl. }
  assert (Hrep : forall st0, live_popups st0 = [n] \/ live_popups st0 = [] ->
                 at_most_one_live (failure_report st0)).
  { intros st0 [H0|H0]; apply failure_report_at_most_one; rewrite H0; simpl; lia. }
  assert (Hsi : single_instance st).
  { unfold single_instance. rewrite Hl. constructor. }
  destruct (popup_fault env) as [[]|]; eexists _, _; (split; [reflexivity|]).
  - split; [apply same_but_popups_refl|]. split; [done|].
    split; [apply Hrep; by right|].
    split; [simpl; by rewrite app_nil_r|]. split; [done|].
    unfold failed_creation_effects, failure_report. simpl. by destruct (tray_icon st).
  - split; [apply same_but_popups_refl|]. split; [done|].
    split; [apply Hrep; by right|].
    split; [simpl; by rewrite app_nil_r|]. split; [done|].
    unfold failed_creation_effects, failure_report. simpl. by destruct (tray_icon st).
  - split; [apply same_but_popups_with_new_popup|].
    split; [by apply single_instance_with_new_popup|].
    split; [constructor; [simpl; lia | apply Hrep; left; apply Hnew]|].
    split; [done|]. split; [done|].
    unfold failed_creation_effects, failure_report. simpl. by destruct (tray_icon st).
  - split; [apply same_but_popups_with_new_popup|].
    split; [by apply single_instance_with_new_popup|].
    split; [constructor; [simpl; lia | apply Hrep; left; apply Hnew]|].
    split; [done|]. split; [done|].
    unfold failed_creation_effects, failure_report. simpl. by destruct (tray_icon st).
  - split; [apply same_but_popups_with_new_popup|].
    split; [by apply single_instance_with_new_popup|].
    split; [repeat (constructor; [simpl; lia|]); constructor|].
    done.
Qed.

(** C2, as amended.  When a popup-open request is processed while a popup
    is the current one, at most one popup is alive at every observation,
    and the first popup's closing notification is emitted with its final
    geometry before anything of the second popup is constructed or shown.
    The slot was disconnected before the close, so that geometry is not
    captured: the settings and the disk are as they were. *)
Theorem replaced_popup_is_closed_first
    (env : Env) (url : string) (st : State) (p : nat) (w : WebViewPopup)
    (s : AppSettings) :
  single_instance st ->
  current_popup st = Some p ->
  popups st !! p = Some w ->
  settings st = Some s ->
  exists st' tr pre post,
    open_popup env url st = (Ret tt, st', tr)
    /\ at_most_one_live tr
    /\ map effect tr = pre ++ Closing p (geometry w) :: post
    /\ Forall (fun e => popup_lifecycle_effect e = false) pre
    /\ (popup_fault env = None ->
        Shown (length (popups st)) ∈ post
        /\ current_popup st' = Some (length (popups st)))
    /\ popups st' !! p = Some (closed (set_connected false w))
    /\ settings st' = settings st
    /\ disk st' = disk st
    /\ single_instance st'.
Proof.
  intros Hinv Hcur Hp Hs.
  destruct (close_existing_run st Hinv)
    as (st1 & tr1 & Hclose & Hsame1 & Hcur1 & Hl1 & Hlen & Hamo & _ & Hclosing).
  destruct (Hclosing p w Hcur Hp) as (Hp1 & pre & post & Heff & Hpre).
  assert (Hs1 : settings st1 = Some s).
  { destruct Hsame1 as (-> & _). exact Hs. }
  destruct (create_phase_props env url (Popup s) st1 Hl1 Hcur1)
    as (st' & tr2 & Hcreate & Hsame2 & Hsi & Hamo2 & Hcase).
  rewrite (open_popup_run env url st st1 tr1 s Hclose Hs1), Hcreate.
  exists st', ((mkObs (Logged INFO ("Target URL: " +:+ url)) (live_popups st) :: tr1) ++ tr2),
    (Logged INFO ("Target URL: " +:+ url) :: pre), (post ++ map effect tr2).
  split; [reflexivity|].
  split.
  { apply Forall_app. split; [|done].
    constructor; [|done]. simpl. by apply single_instance_at_most_one. }
  split.
  { rewrite map_app. simpl. rewrite Heff. by rewrite <- app_assoc. }
  split; [by constructor|].
  split.
  { intros Hok. rewrite Hok in Hcase. destruct Hcase as (_ & Hc & He).
    rewrite <- Hlen. split; [|done]. rewrite He. apply elem_of_app. right.
    right. left. }
  split.
  { assert (popups st' = popups st1 ++ drop (length (popups st1)) (popups st')) as ->.
    { destruct (popup_fault env) as [stage|]; destruct Hcase as (-> & _);
        by rewrite drop_app_length. }
    by apply lookup_app_l_Some. }
  destruct Hsame1 as (Ha & Hb & _), Hsame2 as (Hc & Hd & _).
  split; [congruence|]. split; [congruence|]. done.
Qed.

Lemma single_instance_set_last (u : option string) (st : State) :
  single_instance st -> single_instance (set_last_search_url_str u st).
Proof. by destruct st. Qed.

Lemma quiet_at_most_one (live : list nat) (tr : list Obs) :
  length live <= 1 -> quiet live tr -> at_most_one_live tr.
Proof.
  intros Hle Hq. eapply Forall_impl; [exact Hq|].
  intros o [_ ->]. exact Hle.
Qed.

(** [open_popup] keeps the single instance, with or without settings,
    with or without a popup to replace, whether the creation works or
    not. *)
Lemma open_popup_single_instance (env : Env) (url : string) (st : State) :
  single_instance st ->
  exists r st' tr,
    open_popup env url st = (r, st', tr)
    /\ single_instance st'
    /\ at_most_one_live tr.
Proof.
  intros Hinv.
  destruct (close_existing_run st Hinv)
    as (st1 & tr1 & Hclose & Hsame1 & Hcur1 & Hl1 & _ & Hamo & _ & _).
  assert (Hlog : at_most_one_live
                   (mkObs (Logged INFO ("Target URL: " +:+ url)) (live_popups st) :: tr1)).
  { constructor; [|done]. simpl. by apply single_instance_at_most_one. }
  destruct (settings st1) as [s|] eqn:Hs.
  - destruct (create_phase_props env url (Popup s) st1 Hl1 Hcur1)
      as (st' & tr2 & Hcreate & _ & Hsi & Hamo2 & _).
    rewrite (open_popup_run env url st st1 tr1 s Hclose Hs), Hcreate.
    eexists _, _, _. split; [reflexivity|]. split; [done|].
    by apply Forall_app.
  - unfold open_popup. rewrite run_log; cbv beta.
    rewrite (run_bind_ret _ _ _ _ _ _ Hclose). cbv beta.
    rewrite run_get; cbv beta. rewrite Hs.
    eexists _, _, _. split; [reflexivity|]. split.
    + unfold single_instance. rewrite Hl1. constructor.
    + simpl. rewrite app_nil_r. exact Hlog.
Qed.

(** X1.  The invariant behind the single instance: whatever the hotkey
    press meets, from a state in which only the current popup may be
    alive the handler reaches such a state again, and at no observation
    on the way is more than one popup alive. *)
Lemma handler_single_instance (env : Env) (st : State) :
  single_instance st ->
  exists r st' tr,
    _handle_hotkey_press_thread_safe env st = (r, st', tr)
    /\ single_instance st'
    /\ at_most_one_live tr.
Proof.
  intros Hinv. pose proof (single_instance_at_most_one st Hinv) as Hle.
  destruct (game_configs st) as [cfgs|] eqn:Hcfgs.
  - destruct (match_game (active_window_title env) cfgs) as [[name cfg]|] eqn:Hmatch.
    + rewrite (handler_matched env st cfgs name cfg Hcfgs Hmatch).
      unfold pipeline.
      destruct (special_handling_run name st) as (handled & tr0 & Hsp & Hq0).
      rewrite (run_bind_ret _ _ _ _ _ _ Hsp). cbv beta.
      pose proof (quiet_at_most_one _ _ Hle Hq0) as Hamo0.
      destruct handled.
      * eexists _, _, _. split; [reflexivity|]. split; [done|].
        repeat (constructor; [exact Hle|]). simpl. by rewrite app_nil_r.
      * destruct (resolve_target_run env name cfg st) as (target & tr1 & Hrt & Hq1 & _).
        rewrite (run_bind_ret _ _ _ _ _ _ Hrt). cbv beta.
        pose proof (quiet_at_most_one _ _ Hle Hq1) as Hamo1.
        destruct target as [url|].
        -- destruct (PyStr.truthy_opt (Some url)).
           ++ destruct (open_popup_single_instance env (default EmptyString (Some url))
                          (set_last_search_url_str (Some url) st)
                          (single_instance_set_last _ _ Hinv))
                as (r & st' & tr2 & Hop & Hsi & Hamo2).
              rewrite Hop.
              eexists _, _, _. split; [reflexivity|]. split; [done|].
              repeat (constructor; [exact Hle|]). simpl.
              rewrite !Forall_app. by repeat split.
           ++ eexists _, _, _. split; [reflexivity|].
              split; [by apply single_instance_set_last|].
              repeat (constructor; [exact Hle|]). simpl.
              rewrite app_nil_r, !Forall_app. by repeat split.
        -- simpl PyStr.truthy_opt. cbv iota.
           eexists _, _, _. split; [reflexivity|]. split; [done|].
           repeat (constructor; [exact Hle|]). simpl.
           rewrite app_nil_r, !Forall_app. by repeat split.
    + unfold _handle_hotkey_press_thread_safe.
      rewrite !run_log. cbv beta. rewrite run_get. cbv beta. rewrite Hcfgs.
      destruct cfgs as [|e0 cfgs0].
      * rewrite run_log. cbv beta. destruct (tray_icon st);
          (eexists _, _, _; split; [reflexivity|]; split; [done|]);
          repeat (constructor; [exact Hle|]); constructor.
      * rewrite Hmatch. rewrite run_log. cbv beta. destruct (tray_icon st);
          (eexists _, _, _; split; [reflexivity|]; split; [done|]);
          repeat (constructor; [exact Hle|]); constructor.
  - unfold _handle_hotkey_press_thread_safe.
    rewrite !run_log. cbv beta. rewrite run_get. cbv beta. rewrite Hcfgs.
    rewrite run_log. cbv beta. destruct (tray_icon st);
      (eexists _, _, _; split; [reflexivity|]; split; [done|]);
      repeat (constructor; [exact Hle|]); constructor.
Qed.

Lemma replaced_popup_is_closed_first_witness :
  exists st' tr pre post,
    open_popup Samples.search_fire_staff "https://w.example/search?q=fire+staff"
      Samples.showing = (Ret tt, st', tr)
    /\ at_most_one_live tr
    /\ map effect tr = pre ++ Closing 0 (geometry Samples.moved_popup) :: post
    /\ Forall (fun e => popup_lifecycle_effect e = false) pre
    /\ (popup_fault Samples.search_fire_staff = None ->
        Shown (length (popups Samples.showing)) ∈ post
        /\ current_popup st' = Some (length (popups Samples.showing)))
    /\ popups st' !! 0 = Some (closed (set_connected false Samples.moved_popup))
    /\ settings st' = settings Samples.showing
    /\ disk st' = disk Samples.showing
    /\ single_instance st'.
Proof.
  apply (replaced_popup_is_closed_first Samples.search_fire_staff
           "https://w.example/search?q=fire+staff" Samples.showing 0
           Samples.moved_popup ConfigManager.default_settings).
  - repeat constructor.
  - reflexivity.
  - reflexivity.
  - reflexivity.
Defined.

(** C2 as stated fails in its geometry part.  The popup on screen was
    moved to 300x400 at (10,20); the hotkey replaces it.  The closing
    notification carries that geometry and precedes the new popup's show,
    but afterwards the settings still hold 800x600 at (100,100), no
    settings document has been written, and the new popup has opened with
    the old values. *)
Lemma replaced_popup_geometry_is_dropped :
  let '(r, st', tr) :=
    _handle_hotkey_press_thread_safe Samples.search_fire_staff Samples.showing in
  r = Ret tt
  /\ filter (fun e => popup_lifecycle_effect e = true) (map effect tr)
     = [ Closing 0 (mkQRect 10 20 300 400); Closed 0;
         Constructed 1 "https://w.example/search?q=fire+staff"; Shown 1 ]
  /\ settings st' = Some ConfigManager.default_settings
  /\ option_map Popup (settings st') <> Some (geometry_to_config (mkQRect 10 20 300 400))
  /\ ConfigManager.user_settings_path (disk st') = None
  /\ option_map geometry (popups st' !! 1) = Some (mkQRect 100 100 800 600).
Proof. vm_compute. repeat split. discriminate. Qed.

(** For comparison: a close that finds the slot connected, as when the
    user closes the popup, does capture and persist the geometry. *)
Lemma connected_close_saves_geometry :
  let '(r, st', tr) := close 0 Samples.showing in
  r = Ret tt
  /\ option_map Popup (settings st') = Some (geometry_to_config (mkQRect 10 20 300 400))
  /\ option_map ConfigManager.content (ConfigManager.user_settings_path (disk st'))
     = Some (ConfigManager.Document
               (Pydantic.AppSettings_dump
                  (mkAppSettings ConfigManager._get_default_hotkey_config
                     (geometry_to_config (mkQRect 10 20 300 400)))))
  /\ current_popup st' = None.
Proof. vm_compute. repeat split. Qed.

(** C3, as amended.  If the pipeline has resolved a target URL and the
    creation of the popup fails, at whichever statement, the handler
    returns normally; the failure is logged; a user notification is
    emitted exactly when the tray icon exists; no popup is shown, and a
    popup object made before the failure stays invisible.  The settings
    and the disk are unchanged, but lastSearchUrl is the URL that was
    being opened, any previous popup has been closed, and activePopup is
    empty or, when the failure came after the constructor, the new popup
    that was never shown. *)
Theorem failed_creation_keeps_resolved_url
    (env : Env) (name : string) (cfg : GameConfig) (st st1 : State)
    (s : AppSettings) (url : string) (tr0 tr1 : list Obs) (stage : Stage) :
  single_instance st ->
  settings st = Some s ->
  special_handling name st = (Ret false, st, tr0) ->
  resolve_target env name cfg st = (Ret (Some url), st1, tr1) ->
  url <> EmptyString ->
  popup_fault env = Some stage ->
  exists st' tr2 closing,
    pipeline env name cfg st = (Ret tt, st', tr0 ++ tr1 ++ tr2)
    /\ map effect tr2
       = Logged INFO ("Target URL: " +:+ url)
         :: closing
         ++ failed_creation_effects stage (length (popups st)) url (tray_icon st)
    /\ Forall (fun e => match e with
                        | Constructed _ _ | Shown _ | Notify _ _
                        | Logged ERROR _ => False
                        | _ => True
                        end) closing
    /\ Forall (fun o => forall q, effect o <> Shown q) (tr0 ++ tr1 ++ tr2)
    /\ last_search_url_str st' = Some url
    /\ current_popup st'
       = (if constructed_before stage then Some (length (popups st)) else None)
    /\ drop (length (popups st)) (popups st')
       = (if constructed_before stage
          then [new_popup url (Popup s) (bool_decide (stage = ShowPopup)) false]
          else [])
    /\ (forall p w, current_popup st = Some p -> popups st !! p = Some w ->
        popups st' !! p = Some (closed (set_connected false w)))
    /\ settings st' = settings st
    /\ disk st' = disk st.
Proof.
  intros Hinv Hs Hsp Hrt Hurl Hfault.
  destruct (special_handling_run name st) as (h0 & t0 & Hsp' & Hq0).
  rewrite Hsp in Hsp'. injection Hsp' as <- <-.
  destruct (resolve_target_run env name cfg st) as (target & t1 & Hrt' & Hq1 & _).
  rewrite Hrt in Hrt'. injection Hrt' as <- -> <-.
  set (st1 := set_last_search_url_str (Some url) st).
  assert (Hinv1 : single_instance st1) by (by apply single_instance_set_last).
  destruct (close_existing_run st1 Hinv1)
    as (st2 & trc & Hclose & Hsame2 & Hcur2 & Hl2 & Hlen2 & _ & Hquietc & Hclosing).
  assert (Hs2 : settings st2 = Some s).
  { destruct Hsame2 as (-> & _). by destruct st. }
  destruct (create_phase_props env url (Popup s) st2 Hl2 Hcur2)
    as (st' & tr3 & Hcreate & Hsame3 & _ & _ & Hcase).
  rewrite Hfault in Hcase. destruct Hcase as (Hpop & Hcur' & Heff).
  assert (Hlen : length (popups st2) = length (popups st)).
  { rewrite Hlen2. by destruct st. }
  exists st', (mkObs (Logged INFO ("Target URL: " +:+ url)) (live_popups st1) :: trc ++ tr3),
    (map effect trc).
  split.
  { unfold pipeline. rewrite (run_bind_ret _ _ _ _ _ _ Hsp). cbv beta iota.
    rewrite (run_bind_ret _ _ _ _ _ _ Hrt). cbv beta.
    assert (PyStr.truthy_opt (Some url) = true) as -> by (by destruct url).
    simpl default. fold st1.
    rewrite (open_popup_run env url st1 st2 trc s Hclose Hs2), Hcreate.
    reflexivity. }
  split.
  { simpl. rewrite map_app, Heff, Hlen.
    destruct Hsame2 as (_ & _ & _ & -> & _). by destruct st. }
  split.
  { apply Forall_map. eapply Forall_impl; [exact Hquietc|]. done. }
  split.
  { rewrite !Forall_app. split; [|split].
    - eapply Forall_impl; [exact Hq0|]. intros o [Ho _] q Hq. by rewrite Hq in Ho.
    - eapply Forall_impl; [exact Hq1|]. intros o [Ho _] q Hq. by rewrite Hq in Ho.
    - constructor; [done|]. apply Forall_app. split.
      + eapply Forall_impl; [exact Hquietc|]. intros o Ho q Hq.
        cbv beta in Ho. by rewrite Hq in Ho.
      + apply (Forall_map effect (fun e => forall q, e <> Shown q)). rewrite Heff.
        unfold failed_creation_effects.
        destruct (constructed_before stage), (tray_icon st2);
          repeat (constructor; [done|]); constructor. }
  split.
  { destruct Hsame3 as (_ & _ & -> & _), Hsame2 as (_ & _ & -> & _). by destruct st. }
  split; [by rewrite Hcur', Hlen|].
  split; [by rewrite Hpop, <- Hlen, drop_app_length|].
  split.
  { intros p w Hc Hp.
    destruct (Hclosing p w) as (Hp2 & _); [by destruct st | by destruct st |].
    rewrite Hpop. by apply lookup_app_l_Some. }
  destruct Hsame3 as (-> & -> & _), Hsame2 as (-> & -> & _). by destruct st.
Qed.

Lemma failed_creation_keeps_resolved_url_witness :
  exists st' tr2 closing,
    pipeline Samples.search_show_fails "Elden" Samples.elden Samples.showing
    = (Ret tt, st',
       [] ++ snd (resolve_target Samples.search_show_fails "Elden" Samples.elden
                    Samples.showing) ++ tr2)
    /\ map effect tr2
       = Logged INFO ("Target URL: " +:+ "https://w.example/search?q=fire+staff")
         :: closing
         ++ failed_creation_effects ShowPopup (length (popups Samples.showing))
              "https://w.example/search?q=fire+staff" (tray_icon Samples.showing)
    /\ Forall (fun e => match e with
                        | Constructed _ _ | Shown _ | Notify _ _
                        | Logged ERROR _ => False
                        | _ => True
                        end) closing
    /\ Forall (fun o => forall q, effect o <> Shown q)
         ([] ++ snd (resolve_target Samples.search_show_fails "Elden" Samples.elden
                       Samples.showing) ++ tr2)
    /\ last_search_url_str st' = Some "https://w.example/search?q=fire+staff"
    /\ current_popup st'
       = (if constructed_before ShowPopup
          then Some (length (popups Samples.showing)) else None)
    /\ drop (length (popups Samples.showing)) (popups st')
       = (if constructed_before ShowPopup
          then [new_popup "https://w.example/search?q=fire+staff"
                  (Popup ConfigManager.default_settings)
                  (bool_decide (ShowPopup = ShowPopup)) false]
          else [])
    /\ (forall p w, current_popup Samples.showing = Some p ->
        popups Samples.showing !! p = Some w ->
        popups st' !! p = Some (closed (set_connected false w)))
    /\ settings st' = settings Samples.showing
    /\ disk st' = disk Samples.showing.
Proof.
  apply (failed_creation_keeps_resolved_url Samples.search_show_fails "Elden"
           Samples.elden Samples.showing
           (set_last_search_url_str (Some "https://w.example/search?q=fire+staff")
              Samples.showing)
           ConfigManager.default_settings
           "https://w.example/search?q=fire+staff" []
           (snd (resolve_target Samples.search_show_fails "Elden" Samples.elden
                   Samples.showing))
           ShowPopup).
  - repeat constructor.
  - reflexivity.
  - reflexivity.
  - vm_compute. reflexivity.
  - discriminate.
  - reflexivity.
Defined.

(** C3 as stated fails in its last part.  With nothing searched and no
    popup, a press over Valorant whose popup constructor fails leaves
    lastSearchUrl set; with a popup on screen, a press whose new popup
    fails to show leaves the old popup closed and activePopup on a popup
    that is not visible. *)
Lemma failed_creation_changes_session :
  (let '(r, st', tr) :=
     _handle_hotkey_press_thread_safe Samples.valorant_constructor_fails Samples.fresh in
   r = Ret tt
   /\ last_search_url_str Samples.fresh = None
   /\ last_search_url_str st' = Some "https://wiki.example/valorant"
   /\ Exists (fun o => effect o = Logged ERROR "Failed to create or show WebViewPopup") tr
   /\ popups st' = [])
  /\ (let '(r, st', tr) :=
        _handle_hotkey_press_thread_safe Samples.search_show_fails Samples.showing in
      r = Ret tt
      /\ (current_popup Samples.showing, current_popup st') = (Some 0, Some 1)
      /\ (last_search_url_str Samples.showing, last_search_url_str st')
         = (Some "https://wiki.example/valorant",
            Some "https://w.example/search?q=fire+staff")
      /\ map (fun w => (alive w, visible w)) (popups st') = [(false, false); (true, false)]
      /\ Exists (fun o => effect o = Logged ERROR "Failed to create or show WebViewPopup") tr).
Proof.
  vm_compute. repeat split.
  - do 6 apply Exists_cons_tl. by apply Exists_cons_hd.
  - do 11 apply Exists_cons_tl. by apply Exists_cons_hd.
Qed.

End PopupLifecycle.

(** ** Hotkey registration *)

Section HotkeyRegistrar.

Import HotkeyManager.

Variable platform : Platform.

Lemma parse_modifiers_run (mods parts : list string) (st : State) :
  parse_modifiers mods parts st
  = (Ret (parts ++ modifier_parts mods), st, modifier_warnings mods).
Proof.
  revert parts. induction mods as [|m rest IH]; intros parts; simpl.
  - by rewrite app_nil_r.
  - destruct (modifier_map m) as [pm|].
    + destruct (PyStr.truthy pm).
      * rewrite IH. by rewrite <- app_assoc.
      * unfold log. rewrite run_emit. cbv beta. by rewrite IH.
    + unfold log. rewrite run_emit. cbv beta. by rewrite IH.
Qed.

(** The warnings are log records. *)
Lemma modifier_warnings_no_call (mods : list string) :
  no_platform_call (modifier_warnings mods).
Proof.
  induction mods as [|m rest IH]; simpl; [constructor|].
  destruct (modifier_map m) as [pm|]; [destruct (PyStr.truthy pm)|];
    try done; by constructor.
Qed.

(** Line 69 raises nothing but the [ValueError] of [int]. *)
Lemma is_f_key_raises (k : string) (e : PyExn) :
  is_f_key platform k = Raise e -> e = ValueError.
Proof. unfold is_f_key. repeat case_match; congruence. Qed.

(** An F-key name has more than one character. *)
Lemma is_f_key_long (k : string) :
  is_f_key platform k = Ret true -> (1 <? String.length k)%nat = true.
Proof.
  unfold is_f_key. destruct k as [|c [|c' r]]; [done| |done].
  simpl. destruct (decide ("f"%char = c)); done.
Qed.

(** What [_parse_hotkey] does with a configuration: the combination,
    where line 69 reads the key, and its [ValueError] where it does not,
    the modifiers having been looked at in either case. *)
Lemma _parse_hotkey_run (cfg : HotkeyConfig) (st : State) :
  _parse_hotkey platform (Some cfg) st
  = if reads_key platform (Key cfg)
    then (Ret (Some (hotkey_string cfg)), st,
          modifier_warnings (Modifiers cfg)
          ++ [Logged DEBUG ("Parsed hotkey string: " +:+ hotkey_string cfg)])
    else (Raise ValueError, st, modifier_warnings (Modifiers cfg)).
Proof.
  unfold _parse_hotkey, reads_key.
  rewrite (run_bind_ret _ _ _ _ _ _ (parse_modifiers_run (Modifiers cfg) [] st)).
  cbv beta zeta. simpl app.
  destruct (is_f_key platform (PyStr.lower (Key cfg))) as [b|e] eqn:Hf.
  - rewrite run_evaluate_ret.
    assert ((if b
             then modifier_parts (Modifiers cfg) ++ ["<" +:+ PyStr.lower (Key cfg) +:+ ">"]
             else if (1 <? String.length (PyStr.lower (Key cfg)))%nat
                  then modifier_parts (Modifiers cfg)
                       ++ ["<" +:+ PyStr.lower (Key cfg) +:+ ">"]
                  else modifier_parts (Modifiers cfg) ++ [PyStr.lower (Key cfg)])
            = modifier_parts (Modifiers cfg) ++ [key_part (Key cfg)]) as ->.
    { unfold key_part. cbv zeta. destruct b.
      - by rewrite (is_f_key_long _ Hf).
      - by destruct (1 <? _)%nat. }
    fold (hotkey_string cfg). unfold log. rewrite run_emit. cbv beta.
    reflexivity.
  - rewrite (is_f_key_raises _ _ Hf). rewrite run_evaluate_raise.
    simpl. by rewrite app_nil_r.
Qed.

Lemma _parse_hotkey_reads (cfg : HotkeyConfig) (st : State) :
  reads_key platform (Key cfg) = true ->
  _parse_hotkey platform (Some cfg) st
  = (Ret (Some (hotkey_string cfg)), st,
     modifier_warnings (Modifiers cfg)
     ++ [Logged DEBUG ("Parsed hotkey string: " +:+ hotkey_string cfg)]).
Proof. intros H. by rewrite _parse_hotkey_run, H. Qed.

Lemma _parse_hotkey_raises (cfg : HotkeyConfig) (st : State) :
  reads_key platform (Key cfg) = false ->
  _parse_hotkey platform (Some cfg) st
  = (Raise ValueError, st, modifier_warnings (Modifiers cfg)).
Proof. intros H. by rewrite _parse_hotkey_run, H. Qed.

Lemma append_empty_r (a b : string) : a +:+ b = EmptyString -> b = EmptyString.
Proof. destruct a; [done|]. by rewrite append_cons. Qed.

Lemma join_last_nonempty (sep k : string) (parts : list string) :
  k <> EmptyString -> PyStr.join sep (parts ++ [k]) <> EmptyString.
Proof.
  intros Hk. induction parts as [|p rest IH]; [done|].
  simpl. destruct (rest ++ [k]) as [|q r] eqn:Hr.
  - by destruct rest.
  - intros H. apply append_empty_r, append_empty_r in H. done.
Qed.

Lemma key_part_nonempty (key : string) :
  key <> EmptyString -> key_part key <> EmptyString.
Proof.
  intros Hk. unfold key_part. cbv zeta.
  assert (PyStr.lower key <> EmptyString) by (by rewrite lower_empty_iff).
  by destruct (1 <? _)%nat.
Qed.

(** A configuration with a key always yields a combination, so the
    "Failed to parse" exit of [register_global_hotkey] is never taken. *)
Lemma hotkey_string_nonempty (cfg : HotkeyConfig) :
  Key cfg <> EmptyString -> hotkey_string cfg <> EmptyString.
Proof. intros Hk. by apply join_last_nonempty, key_part_nonempty. Qed.

(** Tearing down drops the listener and clears the flag, whatever the
    platform does; the trace holds the calls that returned. *)
Lemma _stop_listener_internal_trace (st : State) :
  _stop_listener_internal platform st
  = (Ret tt, set_hotkey_active false (set_listener None st),
     match listener st with
     | Some l => teardown platform l
     | None => []
     end).
Proof.
  unfold _stop_listener_internal, teardown. rewrite run_get. cbv beta.
  destruct st as [cb [l|] c a]; simpl; [|reflexivity].
  by destruct (stops platform l), (joins platform l).
Qed.

Lemma _stop_listener_internal_run (st : State) :
  exists tr,
    _stop_listener_internal platform st
    = (Ret tt, set_hotkey_active false (set_listener None st), tr).
Proof. eexists. apply _stop_listener_internal_trace. Qed.

(** The [try] of [register_global_hotkey] with its handler, when the
    platform rejects the combination or refuses to start the listener:
    no listener is left, the flag is cleared once a listener existed, the
    configuration is forgotten and the failure is logged. *)
Lemma rejected_registration (hk : string) (st : State) :
  accepts platform hk = false \/ starts platform hk = false ->
  listener st = None ->
  exists st' tr,
    start_listener platform hk st = (Ret false, st', tr)
    /\ on_hotkey_pressed_callback st' = on_hotkey_pressed_callback st
    /\ listener st' = None
    /\ current_hotkey_config st' = None
    /\ hotkey_active st' = (if accepts platform hk then false else hotkey_active st)
    /\ Logged ERROR ("Failed to register global hotkey '" +:+ hk +:+ "'") ∈ tr.
Proof.
  intros Hrej Hnone. unfold start_listener, log.
  destruct (accepts platform hk) eqn:Hacc.
  - destruct Hrej as [?|Hst]; [done|]. rewrite Hst.
    erewrite run_try_raise; cycle 1.
    { rewrite run_emit. cbv beta. rewrite run_modify. rewrite run_raise. reflexivity. }
    rewrite run_emit. cbv beta. rewrite run_modify. rewrite run_get. cbv beta.
    destruct (_stop_listener_internal_run
                (set_current_hotkey_config None
                   (set_listener (Some (mkListener hk false)) st))) as [tr Htr].
    simpl listener. rewrite (run_bind_ret _ _ _ _ _ _ Htr). cbv beta.
    eexists _, _. split; [reflexivity|].
    repeat split. simpl. right. left.
  - erewrite run_try_raise; cycle 1.
    { rewrite run_raise. reflexivity. }
    rewrite run_emit. cbv beta. rewrite run_modify. rewrite run_get. cbv beta.
    simpl listener. rewrite Hnone. rewrite run_ret.
    eexists _, _. split; [reflexivity|].
    repeat split; [by destruct st|]. simpl. left.
Qed.

(** Storing the callback given with the call. *)
Lemma store_callback_run (cb : option Callback) (st : State) :
  exists st0,
    (match cb with
     | Some cb0 => modify (set_callback (Some cb0))
     | None => ret tt
     end : HM unit) st = (Ret tt, st0, [])
    /\ listener st0 = listener st
    /\ current_hotkey_config st0 = current_hotkey_config st
    /\ hotkey_active st0 = hotkey_active st
    /\ on_hotkey_pressed_callback st0
       = (if cb is Some _ then cb else on_hotkey_pressed_callback st).
Proof. destruct cb; eexists; (split; [reflexivity|]); by repeat split. Qed.

(** The two exits before the teardown. *)
Lemma register_invalid_config
    (hotkey_config : option HotkeyConfig) (cb : option Callback) (st : State) :
  hotkey_config = None \/ (exists c, hotkey_config = Some c /\ Key c = EmptyString) ->
  exists st' tr,
    register_global_hotkey platform hotkey_config cb st = (Ret false, st', tr)
    /\ listener st' = listener st
    /\ current_hotkey_config st' = current_hotkey_config st
    /\ hotkey_active st' = hotkey_active st
    /\ on_hotkey_pressed_callback st'
       = (if cb is Some _ then cb else on_hotkey_pressed_callback st)
    /\ no_platform_call tr
    /\ Logged ERROR "Cannot register hotkey: Invalid HotkeyConfig provided." ∈ tr.
Proof.
  intros Hbad. unfold register_global_hotkey, log.
  destruct (store_callback_run cb st) as (st0 & Hcb & H1 & H2 & H3 & H4).
  rewrite (run_bind_ret _ _ _ _ _ _ Hcb). cbv beta.
  destruct Hbad as [->|(c & -> & Hkey)].
  + eexists _, _. split; [reflexivity|].
    repeat split; try done; [repeat constructor | set_solver].
  + rewrite Hkey. simpl.
    eexists _, _. split; [reflexivity|].
    repeat split; try done; [repeat constructor | set_solver].
Qed.

(** A key that line 69 cannot read: the [ValueError] of [int] leaves
    [register_global_hotkey], which calls [_parse_hotkey] outside its
    [try].  The callback and the new configuration are stored by then;
    the listener has not been touched. *)
Lemma register_unreadable_key (c : HotkeyConfig) (cb : option Callback) (st : State) :
  Key c <> EmptyString ->
  reads_key platform (Key c) = false ->
  exists st' tr,
    register_global_hotkey platform (Some c) cb st = (Raise ValueError, st', tr)
    /\ listener st' = listener st
    /\ hotkey_active st' = hotkey_active st
    /\ current_hotkey_config st' = Some c
    /\ on_hotkey_pressed_callback st'
       = (if cb is Some _ then cb else on_hotkey_pressed_callback st)
    /\ no_platform_call tr.
Proof.
  intros Hkey Hread. unfold register_global_hotkey.
  destruct (store_callback_run cb st) as (st0 & Hcb & H1 & H2 & H3 & H4).
  rewrite (run_bind_ret _ _ _ _ _ _ Hcb). cbv beta.
  assert (PyStr.truthy (Key c) = true) as -> by (by apply truthy_true_iff).
  change (negb true) with false. cbv iota.
  rewrite run_modify.
  rewrite (run_bind_raise _ _ _ _ _ _ (_parse_hotkey_raises c _ Hread)).
  eexists _, _. split; [reflexivity|].
  repeat split; try done. simpl. apply modifier_warnings_no_call.
Qed.

(** The creation of the listener when the platform grants it. *)
Lemma accepted_registration (hk : string) (st : State) :
  accepts platform hk = true ->
  starts platform hk = true ->
  start_listener platform hk st
  = (Ret true,
     set_hotkey_active true (set_listener (Some (mkListener hk true))
       (set_listener (Some (mkListener hk false)) st)),
     [ Create hk; Start hk;
       Logged INFO ("Global hotkey '" +:+ hk +:+ "' registered successfully.") ]).
Proof.
  intros Hacc Hst. unfold start_listener, log. rewrite Hacc, Hst.
  erewrite run_try_ret; [reflexivity|].
  rewrite run_emit. cbv beta. rewrite run_modify. rewrite run_emit. cbv beta.
  rewrite !run_modify. rewrite run_emit. cbv beta. reflexivity.
Qed.

(** The [try] and its handler never change the callback. *)
Lemma start_listener_keeps_callback (hk : string) (st : State) :
  on_hotkey_pressed_callback (snd (fst (start_listener platform hk st)))
  = on_hotkey_pressed_callback st.
Proof.
  unfold start_listener, log.
  destruct (accepts platform hk) eqn:Hacc; [destruct (starts platform hk) eqn:Hst|].
  - erewrite run_try_ret; cycle 1.
    { rewrite run_emit. cbv beta. rewrite run_modify. rewrite run_emit. cbv beta.
      rewrite !run_modify. rewrite run_emit. cbv beta. reflexivity. }
    by destruct st.
  - erewrite run_try_raise; cycle 1.
    { rewrite run_emit. cbv beta. rewrite run_modify. rewrite run_raise. reflexivity. }
    rewrite run_emit. cbv beta. rewrite run_modify. rewrite run_get. cbv beta.
    destruct (_stop_listener_internal_run
                (set_current_hotkey_config None
                   (set_listener (Some (mkListener hk false)) st)))
      as [tr Htr].
    simpl listener. rewrite (run_bind_ret _ _ _ _ _ _ Htr). cbv beta.
    by destruct st.
  - erewrite run_try_raise; cycle 1.
    { rewrite run_raise. reflexivity. }
    rewrite run_emit. cbv beta. rewrite run_modify. rewrite run_get. cbv beta.
    simpl listener. destruct (listener st) as [l|] eqn:Hl.
    + destruct (_stop_listener_internal_run (set_current_hotkey_config None st))
        as [tr Htr].
      rewrite (run_bind_ret _ _ _ _ _ _ Htr). cbv beta. by destruct st.
    + rewrite run_ret. by destruct st.
Qed.

Lemma before_try_teardown (c : HotkeyConfig) (st : State) (l : Listener)
    (post : list Effect) :
  listener st = Some l ->
  torn_down_first platform l (before_try platform c st ++ post).
Proof.
  intros Hl. unfold before_try. rewrite Hl.
  exists ((modifier_warnings (Modifiers c)
           ++ [Logged DEBUG ("Parsed hotkey string: " +:+ hotkey_string c)])
          ++ [Logged INFO "Stopping existing listener before registering new hotkey."]),
         post.
  split.
  - rewrite <- !app_assoc. reflexivity.
  - unfold no_platform_call. rewrite !Forall_app. split; [split|].
    + apply modifier_warnings_no_call.
    + by repeat constructor.
    + by repeat constructor.
Qed.

Lemma before_try_no_call (c : HotkeyConfig) (st : State) :
  listener st = None -> no_platform_call (before_try platform c st).
Proof.
  intros Hl. unfold before_try. rewrite Hl, app_nil_r.
  unfold no_platform_call. rewrite Forall_app. split.
  - apply modifier_warnings_no_call.
  - by repeat constructor.
Qed.

(** The run up to the [try]: the callback is stored, the configuration
    recorded, the combination parsed and an existing listener torn down. *)
Lemma register_until_try (c : HotkeyConfig) (cb : option Callback) (st : State) :
  Key c <> EmptyString ->
  reads_key platform (Key c) = true ->
  exists st2,
    listener st2 = None
    /\ (active_needs_listener st -> hotkey_active st2 = false)
    /\ current_hotkey_config st2 = Some c
    /\ on_hotkey_pressed_callback st2
       = (if cb is Some _ then cb else on_hotkey_pressed_callback st)
    /\ register_global_hotkey platform (Some c) cb st
       = prepend (before_try platform c st) (start_listener platform (hotkey_string c) st2).
Proof.
  intros Hkey Hread.
  destruct (store_callback_run cb st) as (st0 & Hcb & H1 & _ & H3 & H4).
  set (st1 := set_current_hotkey_config (Some c) st0).
  assert (exists st2,
            (match listener st1 with
             | Some _ =>
                 log INFO "Stopping existing listener before registering new hotkey.";;
                 _stop_listener_internal platform
             | None => ret tt
             end : HM unit) st1
            = (Ret tt, st2,
               match listener st with
               | Some l =>
                   Logged INFO "Stopping existing listener before registering new hotkey."
                   :: teardown platform l
               | None => []
               end)
            /\ listener st2 = None
            /\ (active_needs_listener st -> hotkey_active st2 = false)
            /\ current_hotkey_config st2 = Some c
            /\ on_hotkey_pressed_callback st2 = on_hotkey_pressed_callback st0)
    as (st2 & Hstop & Hl2 & Ha2 & Hc2 & Hcb2).
  { assert (Hl1 : listener st1 = listener st) by (rewrite <- H1; by destruct st0).
    rewrite <- Hl1.
    destruct (listener st1) as [l|] eqn:Hl.
    - unfold log. rewrite run_emit. cbv beta.
      rewrite _stop_listener_internal_trace. rewrite Hl.
      eexists. split; [reflexivity|]. repeat split; by destruct st0.
    - eexists. split; [reflexivity|]. split; [done|]. split; [|split; by destruct st0].
      intros Hinv. transitivity (hotkey_active st0); [by destruct st0|].
      rewrite H3. apply Hinv. by rewrite <- Hl1. }
  exists st2. split; [done|]. split; [done|]. split; [done|].
  split; [by rewrite Hcb2|].
  unfold register_global_hotkey.
  rewrite (run_bind_ret _ _ _ _ _ _ Hcb). cbv beta.
  assert (PyStr.truthy (Key c) = true) as -> by (by apply truthy_true_iff).
  change (negb true) with false. cbv iota.
  rewrite run_modify.
  rewrite (run_bind_ret _ _ _ _ _ _ (_parse_hotkey_reads c _ Hread)). cbv beta.
  assert (PyStr.truthy_opt (Some (hotkey_string c)) = true) as ->.
  { simpl. apply truthy_true_iff. by apply hotkey_string_nonempty. }
  simpl default. rewrite run_get. cbv beta. fold st1.
  rewrite (run_bind_ret _ _ _ _ _ _ Hstop). cbv beta.
  unfold before_try. by rewrite !prepend_prepend.
Qed.

(** The exit after the teardown. *)
Lemma register_rejected (c : HotkeyConfig) (cb : option Callback) (st : State) :
  Key c <> EmptyString ->
  reads_key platform (Key c) = true ->
  accepts platform (hotkey_string c) = false
  \/ starts platform (hotkey_string c) = false ->
  active_needs_listener st ->
  exists st' tr,
    register_global_hotkey platform (Some c) cb st = (Ret false, st', tr)
    /\ listener st' = None
    /\ hotkey_active st' = false
    /\ current_hotkey_config st' = None
    /\ on_hotkey_pressed_callback st'
       = (if cb is Some _ then cb else on_hotkey_pressed_callback st)
    /\ (forall l, listener st = Some l -> torn_down_first platform l tr)
    /\ Logged ERROR ("Failed to register global hotkey '"
                     +:+ hotkey_string c +:+ "'") ∈ tr.
Proof.
  intros Hkey Hread Hrej Hinv.
  destruct (register_until_try c cb st Hkey Hread)
    as (st2 & Hl2 & Ha2 & _ & Hcb2 & ->).
  specialize (Ha2 Hinv).
  destruct (rejected_registration (hotkey_string c) st2 Hrej Hl2)
    as (st' & tr & -> & Hcb' & Hl' & Hc' & Ha' & Hlog).
  eexists _, _. split; [reflexivity|]. split; [done|]. split.
  { rewrite Ha', Ha2. by destruct (accepts platform _). }
  split; [done|]. split; [by rewrite Hcb'|]. split.
  - intros l Hl. by apply before_try_teardown.
  - rewrite elem_of_app. by right.
Qed.

(** A registration the platform grants. *)
Lemma register_accepted (c : HotkeyConfig) (cb : option Callback) (st : State) :
  Key c <> EmptyString ->
  reads_key platform (Key c) = true ->
  accepts platform (hotkey_string c) = true ->
  starts platform (hotkey_string c) = true ->
  active_needs_listener st ->
  exists st',
    register_global_hotkey platform (Some c) cb st
    = (Ret true, st',
       before_try platform c st
       ++ [ Create (hotkey_string c); Start (hotkey_string c);
            Logged INFO ("Global hotkey '" +:+ hotkey_string c
                         +:+ "' registered successfully.") ])
    /\ listener st' = Some (mkListener (hotkey_string c) true)
    /\ hotkey_active st' = true
    /\ current_hotkey_config st' = Some c
    /\ on_hotkey_pressed_callback st'
       = (if cb is Some _ then cb else on_hotkey_pressed_callback st).
Proof.
  intros Hkey Hread Hacc Hst Hinv.
  destruct (register_until_try c cb st Hkey Hread)
    as (st2 & Hl2 & Ha2 & Hc2 & Hcb2 & ->).
  specialize (Ha2 Hinv).
  rewrite (accepted_registration _ st2 Hacc Hst).
  eexists. split; [reflexivity|]. by repeat split.
Qed.

(** Every registration keeps the flag tied to a listener; so does the
    initial state. *)
Lemma register_keeps_invariant
    (hotkey_config : option HotkeyConfig) (cb : option Callback) (st : State) :
  active_needs_listener st ->
  active_needs_listener (snd (fst (register_global_hotkey platform hotkey_config cb st))).
Proof.
  intros Hinv.
  destruct hotkey_config as [c|].
  - destruct (decide (Key c = EmptyString)) as [Hk|Hk].
    + destruct (register_invalid_config (Some c) cb st) as (st' & tr & -> & Hl & _ & Ha & _).
      { right. by exists c. }
      simpl. unfold active_needs_listener. rewrite Hl, Ha. exact Hinv.
    + destruct (reads_key platform (Key c)) eqn:Hread; cycle 1.
      { destruct (register_unreadable_key c cb st Hk Hread)
          as (st' & tr & -> & Hl & Ha & _).
        simpl. unfold active_needs_listener. rewrite Hl, Ha. exact Hinv. }
      destruct (accepts platform (hotkey_string c)) eqn:Hacc;
        [destruct (starts platform (hotkey_string c)) eqn:Hst|].
      * destruct (register_accepted c cb st Hk Hread Hacc Hst Hinv) as (st' & -> & Hl & _).
        simpl. unfold active_needs_listener. by rewrite Hl.
      * destruct (register_rejected c cb st Hk Hread (or_intror Hst) Hinv)
          as (st' & tr & -> & _ & Ha & _).
        simpl. by intros _.
      * destruct (register_rejected c cb st Hk Hread (or_introl Hacc) Hinv)
          as (st' & tr & -> & _ & Ha & _).
        simpl. by intros _.
  - destruct (register_invalid_config None cb st) as (st' & tr & -> & Hl & _ & Ha & _).
    { by left. }
    simpl. unfold active_needs_listener. rewrite Hl, Ha. exact Hinv.
Qed.

(** The callback a registration leaves: the one given with it, or the
    one that was there. *)
Lemma register_stores_callback
    (hotkey_config : option HotkeyConfig) (cb : option Callback) (st : State) :
  on_hotkey_pressed_callback
    (snd (fst (register_global_hotkey platform hotkey_config cb st)))
  = (if cb is Some _ then cb else on_hotkey_pressed_callback st).
Proof.
  assert (Hbad : hotkey_config = None
                 \/ (exists c, hotkey_config = Some c /\ Key c = EmptyString) ->
                 on_hotkey_pressed_callback
                   (snd (fst (register_global_hotkey platform hotkey_config cb st)))
                 = (if cb is Some _ then cb else on_hotkey_pressed_callback st)).
  { intros Hb.
    by destruct (register_invalid_config hotkey_config cb st Hb)
      as (st' & tr & -> & _ & _ & _ & Hcb & _). }
  destruct hotkey_config as [c|]; [|apply Hbad; by left].
  destruct (decide (Key c = EmptyString)) as [Hk|Hk].
  { apply Hbad. right. by exists c. }
  destruct (reads_key platform (Key c)) eqn:Hread.
  - destruct (register_until_try c cb st Hk Hread) as (st2 & _ & _ & _ & Hcb2 & ->).
    destruct (start_listener platform (hotkey_string c) st2) as [[r s'] tr] eqn:Hstart.
    simpl. rewrite <- Hcb2.
    change s' with (snd (fst (r, s', tr))). rewrite <- Hstart.
    apply start_listener_keeps_callback.
  - by destruct (register_unreadable_key c cb st Hk Hread)
      as (st' & tr & -> & _ & _ & _ & Hcb & _).
Qed.

(** Unregistering, whatever the platform does. *)
Lemma unregister_global_hotkey_trace (st : State) :
  unregister_global_hotkey platform st
  = (Ret tt,
     mkState (on_hotkey_pressed_callback st) None (current_hotkey_config st) false,
     match listener st with
     | Some l => teardown platform l
     | None => []
     end ++ [Logged INFO "Global hotkey unregistered."]).
Proof.
  unfold unregister_global_hotkey.
  rewrite (run_bind_ret _ _ _ _ _ _ (_stop_listener_internal_trace st)). cbv beta.
  reflexivity.
Qed.

(** Re-registering is a teardown followed by a registration from the
    state without listener. *)
Lemma reregister_hotkeys_unfold (c : HotkeyConfig) (cb : option Callback) (st : State) :
  reregister_hotkeys platform c cb st
  = prepend (Logged INFO "Reregistering hotkeys"
             :: match listener st with
                | Some l => teardown platform l
                | None => []
                end ++ [Logged INFO "Global hotkey unregistered."])
      (register_global_hotkey platform (Some c) cb
         (mkState (on_hotkey_pressed_callback st) None (current_hotkey_config st) false)).
Proof.
  unfold reregister_hotkeys, log. rewrite run_emit. cbv beta.
  rewrite (run_bind_ret _ _ _ _ _ _ (unregister_global_hotkey_trace st)). cbv beta.
  by rewrite prepend_prepend.
Qed.

Lemma reregister_teardown (l : Listener) (post : list Effect) :
  torn_down_first platform l
    ((Logged INFO "Reregistering hotkeys"
      :: teardown platform l ++ [Logged INFO "Global hotkey unregistered."]) ++ post).
Proof.
  exists [Logged INFO "Reregistering hotkeys"],
         ([Logged INFO "Global hotkey unregistered."] ++ post).
  split.
  - simpl. by rewrite <- !app_assoc.
  - by repeat constructor.
Qed.

(** X2.  Re-registering with a configuration whose key line 69 reads
    and which the platform grants returns [True] and leaves exactly the
    new listener: started, bound to the combination of the new
    configuration, with the flag set and the configuration recorded.
    The listener that was registered before is torn down first: [stop]
    and [join] are called on it before the new listener is created.
    With a key on which [int] raises, the old listener is torn down all
    the same and the [ValueError] then leaves [reregister_hotkeys]: the
    old hotkey is gone and nothing has replaced it. *)
Lemma reregister_replaces_listener (c : HotkeyConfig) (cb : option Callback) (st : State) :
  Key c <> EmptyString ->
  (reads_key platform (Key c) = true ->
   accepts platform (hotkey_string c) = true ->
   starts platform (hotkey_string c) = true ->
   exists st' pre,
     reregister_hotkeys platform c cb st
     = (Ret true, st',
        pre ++ [ Create (hotkey_string c); Start (hotkey_string c);
                 Logged INFO ("Global hotkey '" +:+ hotkey_string c
                              +:+ "' registered successfully.") ])
     /\ listener st' = Some (mkListener (hotkey_string c) true)
     /\ hotkey_active st' = true
     /\ current_hotkey_config st' = Some c
     /\ match listener st with
        | Some l => torn_down_first platform l pre
        | None => no_platform_call pre
        end)
  /\ (reads_key platform (Key c) = false ->
      exists st' tr,
        reregister_hotkeys platform c cb st = (Raise ValueError, st', tr)
        /\ listener st' = None
        /\ hotkey_active st' = false
        /\ current_hotkey_config st' = Some c
        /\ match listener st with
           | Some l => torn_down_first platform l tr
           | None => no_platform_call tr
           end).
Proof.
  intros Hkey. rewrite reregister_hotkeys_unfold.
  set (st1 := mkState (on_hotkey_pressed_callback st) None (current_hotkey_config st) false).
  split.
  - intros Hread Hacc Hst.
    destruct (register_accepted c cb st1 Hkey Hread Hacc Hst)
      as (st' & -> & Hl & Ha & Hc & _); [by intros _|].
    eexists st', _. split.
    { simpl prepend. rewrite app_comm_cons, app_assoc. reflexivity. }
    split; [done|]. split; [done|]. split; [done|].
    destruct (listener st) as [l|] eqn:Hold.
    + apply reregister_teardown.
    + simpl. constructor; [done|]. constructor; [done|].
      by apply before_try_no_call.
  - intros Hread.
    destruct (register_unreadable_key c cb st1 Hkey Hread)
      as (st' & tr & -> & Hl & Ha & Hc & _ & Hno).
    eexists _, _. split; [reflexivity|].
    split; [done|]. split; [done|]. split; [done|].
    destruct (listener st) as [l|] eqn:Hold.
    + apply reregister_teardown.
    + simpl. constructor; [done|]. by constructor.
Qed.

Lemma init_invariant (cb : option Callback) : active_needs_listener (init cb).
Proof. by intros _. Qed.

(** C9, as amended.  A registration that fails before the old listener
    is torn down (no configuration, or an empty key) returns [False],
    makes no call on the platform and leaves the listener, its
    configuration and the active flag as they were; a callback given
    with the call is stored all the same and replaces the one the live
    listener invokes.  A registration that the platform rejects, at
    construction or at start, comes after the teardown: the listener
    that was there has been stopped, and the call returns [False]
    without raising, logs the failure, and leaves no listener, no
    configuration and the active flag cleared.  That exit is reached
    only with a key that line 69 reads: with a key on which [int]
    raises, the [ValueError] leaves [register_global_hotkey] before the
    teardown, the listener untouched and the new configuration already
    recorded. *)
Theorem registration_failure
    (hotkey_config : option HotkeyConfig) (cb : option Callback) (st : State) :
  ((hotkey_config = None \/ exists c, hotkey_config = Some c /\ Key c = EmptyString) ->
   exists st' tr,
     register_global_hotkey platform hotkey_config cb st = (Ret false, st', tr)
     /\ listener st' = listener st
     /\ current_hotkey_config st' = current_hotkey_config st
     /\ hotkey_active st' = hotkey_active st
     /\ on_hotkey_pressed_callback st'
        = (if cb is Some _ then cb else on_hotkey_pressed_callback st)
     /\ no_platform_call tr
     /\ Logged ERROR "Cannot register hotkey: Invalid HotkeyConfig provided." ∈ tr)
  /\ (forall c,
        hotkey_config = Some c ->
        Key c <> EmptyString ->
        reads_key platform (Key c) = true ->
        accepts platform (hotkey_string c) = false
        \/ starts platform (hotkey_string c) = false ->
        active_needs_listener st ->
        exists st' tr,
          register_global_hotkey platform hotkey_config cb st = (Ret false, st', tr)
          /\ listener st' = None
          /\ hotkey_active st' = false
          /\ current_hotkey_config st' = None
          /\ (forall l, listener st = Some l -> torn_down_first platform l tr)
          /\ Logged ERROR ("Failed to register global hotkey '"
                           +:+ hotkey_string c +:+ "'") ∈ tr)
  /\ (forall c,
        hotkey_config = Some c ->
        Key c <> EmptyString ->
        reads_key platform (Key c) = false ->
        exists st' tr,
          register_global_hotkey platform hotkey_config cb st
          = (Raise ValueError, st', tr)
          /\ listener st' = listener st
          /\ hotkey_active st' = hotkey_active st
          /\ current_hotkey_config st' = Some c
          /\ no_platform_call tr).
Proof.
  split; [|split].
  - apply register_invalid_config.
  - intros c -> Hkey Hread Hrej Hinv.
    destruct (register_rejected c cb st Hkey Hread Hrej Hinv)
      as (st' & tr & Hrun & Hl & Ha & Hc & _ & Htear & Hlog).
    by exists st', tr.
  - intros c -> Hkey Hread.
    destruct (register_unreadable_key c cb st Hkey Hread)
      as (st' & tr & Hrun & Hl & Ha & Hc & _ & Hno).
    by exists st', tr.
Qed.

End HotkeyRegistrar.

Lemma registration_failure_witness :
  (exists st' tr,
     HotkeyManager.register_global_hotkey Samples.willing
       (Some (mkHotkeyConfig "" ["Ctrl"])) (Some 2) Samples.registered
     = (Ret false, st', tr)
     /\ HotkeyManager.listener st' = HotkeyManager.listener Samples.registered
     /\ HotkeyManager.current_hotkey_config st'
        = HotkeyManager.current_hotkey_config Samples.registered
     /\ HotkeyManager.hotkey_active st' = HotkeyManager.hotkey_active Samples.registered
     /\ HotkeyManager.on_hotkey_pressed_callback st' = Some 2
     /\ no_platform_call tr
     /\ HotkeyManager.Logged ERROR "Cannot register hotkey: Invalid HotkeyConfig provided." ∈ tr)
  /\ (exists st' tr,
        HotkeyManager.register_global_hotkey Samples.refusing_start
          (Some Samples.alt_s) (Some 2) Samples.registered
        = (Ret false, st', tr)
        /\ HotkeyManager.listener st' = None
        /\ HotkeyManager.hotkey_active st' = false
        /\ HotkeyManager.current_hotkey_config st' = None
        /\ (forall l, HotkeyManager.listener Samples.registered = Some l ->
                      torn_down_first Samples.refusing_start l tr)
        /\ HotkeyManager.Logged ERROR
             ("Failed to register global hotkey '" +:+ hotkey_string Samples.alt_s +:+ "'")
           ∈ tr)
  /\ (exists st' tr,
        HotkeyManager.register_global_hotkey Samples.willing
          (Some Samples.ctrl_f_squared) (Some 2) Samples.registered
        = (Raise ValueError, st', tr)
        /\ HotkeyManager.listener st' = HotkeyManager.listener Samples.registered
        /\ HotkeyManager.hotkey_active st' = HotkeyManager.hotkey_active Samples.registered
        /\ HotkeyManager.current_hotkey_config st' = Some Samples.ctrl_f_squared
        /\ no_platform_call tr).
Proof.
  split; [|split].
  - apply (proj1 (registration_failure Samples.willing
                    (Some (mkHotkeyConfig "" ["Ctrl"])) (Some 2) Samples.registered)).
    right. exists (mkHotkeyConfig "" ["Ctrl"]). split; reflexivity.
  - apply (proj1 (proj2 (registration_failure Samples.refusing_start
                           (Some Samples.alt_s) (Some 2) Samples.registered))
             Samples.alt_s).
    + reflexivity.
    + discriminate.
    + reflexivity.
    + right. reflexivity.
    + intros H. discriminate H.
  - apply (proj2 (proj2 (registration_failure Samples.willing
                           (Some Samples.ctrl_f_squared) (Some 2) Samples.registered))
             Samples.ctrl_f_squared).
    + reflexivity.
    + discriminate.
    + reflexivity.
Defined.

(** C9 as stated fails where a callback is given with a registration
    that fails early: the call returns [False] and Ctrl+F1 stays
    registered, yet a press of it, which called callback 1 before, now
    calls callback 2. *)
Lemma failed_registration_replaces_callback :
  fst (fst (HotkeyManager.register_global_hotkey Samples.willing
              (Some (mkHotkeyConfig "" ["Ctrl"])) (Some 2) Samples.registered))
  = Ret false
  /\ HotkeyManager.listener
       (snd (fst (HotkeyManager.register_global_hotkey Samples.willing
                    (Some (mkHotkeyConfig "" ["Ctrl"])) (Some 2) Samples.registered)))
     = Some (HotkeyManager.mkListener "<ctrl>+<f1>" true)
  /\ invoked (snd (HotkeyPress._on_press_internal (fun _ => None) Samples.registered))
     = [1]
  /\ invoked
       (snd (HotkeyPress._on_press_internal (fun _ => None)
               (snd (fst (HotkeyManager.register_global_hotkey Samples.willing
                            (Some (mkHotkeyConfig "" ["Ctrl"])) (Some 2)
                            Samples.registered)))))
     = [2].
Proof. vm_compute. repeat split. Qed.


(** ** The configuration store *)

Section ConfigStore.

Import ConfigManager.

Variable validate_AppSettings : list (string * json) -> option AppSettings.
Variable validate_GameConfig : list (string * json) -> option GameConfig.

(** The hardcoded defaults: Ctrl+F1, 800x600 at (100,100); written out,
    they validate back to themselves. *)
Lemma default_settings_value :
  Key (Hotkey default_settings) = "F1"
  /\ Modifiers (Hotkey default_settings) = ["Ctrl"]
  /\ Popup default_settings = mkPopupConfig (800 # 1)%Q (600 # 1)%Q (100 # 1)%Q (100 # 1)%Q
  /\ construct Pydantic.AppSettings_validate (Pydantic.AppSettings_dump default_settings)
     = Built default_settings.
Proof. repeat split. Qed.

Lemma ensure_config_dir_exists_present (d : Disk) :
  user_config_dir d = true -> _ensure_config_dir_exists d = (Ret tt, d, []).
Proof.
  intros Hdir. unfold _ensure_config_dir_exists. rewrite run_get. cbv beta.
  by rewrite Hdir.
Qed.

Lemma write_user_settings_writable (c : FileContent) (d : Disk) (f : File) :
  user_settings_path d = Some f ->
  writable f = true ->
  write_user_settings c d
  = (Ret tt, with_user_settings d (Some (mkFile c (readable f) true)), []).
Proof.
  intros Hf Hw. unfold write_user_settings. rewrite run_get. cbv beta.
  by rewrite Hf, Hw.
Qed.

(** Saving on a disk that takes the write. *)
Lemma save_settings_writable (settings : AppSettings) (d : Disk) (f : File) :
  user_config_dir d = true ->
  user_settings_path d = Some f ->
  writable f = true ->
  save_settings settings d
  = (Ret tt,
     with_user_settings d
       (Some (mkFile (Document (Pydantic.AppSettings_dump settings)) (readable f) true)),
     [Log INFO "Settings saved"]).
Proof.
  intros Hdir Hf Hw. unfold save_settings.
  rewrite (run_bind_ret _ _ _ _ _ _ (ensure_config_dir_exists_present d Hdir)).
  cbv beta. erewrite run_try_ret; [reflexivity|].
  rewrite (run_bind_ret _ _ _ _ _ _ (write_user_settings_writable _ d f Hf Hw)).
  reflexivity.
Qed.

(** A user document that [json.load] rejects as malformed, or a JSON
    object that fails validation, is replaced by the defaults, which
    are returned, where the file can be read and written. *)
Lemma load_settings_replaces_invalid (d : Disk) (f : File) :
  user_config_dir d = true ->
  user_settings_path d = Some f ->
  readable f = true ->
  writable f = true ->
  (exists raw, content f = Garbage raw)
  \/ (exists members, content f = Document (JObj members)
                      /\ validate_AppSettings members = None) ->
  exists logs,
    load_settings validate_AppSettings d
    = (Ret default_settings,
       with_user_settings d
         (Some (mkFile (Document (Pydantic.AppSettings_dump default_settings)) true true)),
       logs).
Proof.
  intros Hdir Hf Hr Hw Hbad. unfold load_settings.
  rewrite run_get. cbv beta. rewrite Hf. rewrite run_ret.
  pose proof (save_settings_writable default_settings d f Hdir Hf Hw) as Hsave.
  rewrite Hr in Hsave.
  destruct Hbad as [[raw Hc]|(members & Hc & Hv)].
  - erewrite run_try_raise; cycle 1.
    { unfold read_user_settings. rewrite run_get. cbv beta. rewrite Hf.
      unfold open_read. rewrite Hr. rewrite run_ret. rewrite Hc.
      unfold json_load. rewrite run_raise. reflexivity. }
    unfold log. rewrite !run_emit. cbv beta.
    unfold save_and_return_defaults.
    rewrite (run_bind_ret _ _ _ _ _ _ Hsave). cbv beta.
    eexists. reflexivity.
  - erewrite run_try_raise; cycle 1.
    { unfold read_user_settings. rewrite run_get. cbv beta. rewrite Hf.
      unfold open_read. rewrite Hr. rewrite run_ret. rewrite Hc.
      unfold json_load. rewrite run_ret. unfold construct. rewrite Hv.
      reflexivity. }
    unfold log. rewrite !run_emit. cbv beta.
    unfold save_and_return_defaults.
    rewrite (run_bind_ret _ _ _ _ _ _ Hsave). cbv beta.
    eexists. reflexivity.
Qed.

(** A user document on which [json.load] gives up with an exception
    other than [JSONDecodeError]: no handler of [load_settings] names
    it. *)
Lemma load_settings_decoder_gives_up (d : Disk) (f : File) (raw : string)
    (why : DecoderFailure) :
  user_settings_path d = Some f ->
  readable f = true ->
  content f = Refused raw why ->
  load_settings validate_AppSettings d = (Raise (decoder_exception why), d, []).
Proof.
  intros Hf Hr Hc. unfold load_settings.
  rewrite run_get. cbv beta. rewrite Hf. rewrite run_ret.
  erewrite run_try_raise; cycle 1.
  { unfold read_user_settings. rewrite run_get. cbv beta. rewrite Hf.
    unfold open_read. rewrite Hr. rewrite run_ret. rewrite Hc.
    unfold json_load. rewrite run_raise. reflexivity. }
  by destruct why.
Qed.

(** X3.  What does hold of the recovery, provided the file can be read
    and written: a user document that [json.load] rejects as malformed,
    with [JSONDecodeError], or a JSON object that fails validation, is
    replaced by the defaults and the defaults are returned.  A document
    on which [json.load] gives up with another exception (nesting too
    deep, an integer literal too long, bytes that are no text) is not
    covered: the exception leaves [load_settings], nothing is logged and
    the document stays. *)
Lemma load_settings_recovers (d : Disk) (f : File) :
  user_config_dir d = true ->
  user_settings_path d = Some f ->
  readable f = true ->
  writable f = true ->
  ((exists raw, content f = Garbage raw)
   \/ (exists members, content f = Document (JObj members)
                       /\ validate_AppSettings members = None) ->
   exists logs,
     load_settings validate_AppSettings d
     = (Ret default_settings,
        with_user_settings d
          (Some (mkFile (Document (Pydantic.AppSettings_dump default_settings)) true true)),
        logs))
  /\ (forall raw why,
        content f = Refused raw why ->
        load_settings validate_AppSettings d = (Raise (decoder_exception why), d, [])).
Proof.
  intros Hdir Hf Hr Hw. split.
  - by apply load_settings_replaces_invalid.
  - intros raw why Hc. by apply (load_settings_decoder_gives_up d f raw why).
Qed.

Lemma write_user_settings_unwritable (c : FileContent) (d : Disk) (f : File) :
  user_settings_path d = Some f ->
  writable f = false ->
  write_user_settings c d = (Raise PermissionError, d, []).
Proof.
  intros Hf Hw. unfold write_user_settings. rewrite run_get. cbv beta.
  by rewrite Hf, Hw.
Qed.

(** Saving on a file that refuses the write: logged, not raised. *)
Lemma save_settings_unwritable (settings : AppSettings) (d : Disk) (f : File) :
  user_config_dir d = true ->
  user_settings_path d = Some f ->
  writable f = false ->
  save_settings settings d = (Ret tt, d, [Log ERROR "Error saving settings"]).
Proof.
  intros Hdir Hf Hw. unfold save_settings.
  rewrite (run_bind_ret _ _ _ _ _ _ (ensure_config_dir_exists_present d Hdir)).
  cbv beta. erewrite run_try_raise; cycle 1.
  { apply run_bind_raise. by apply (write_user_settings_unwritable _ d f). }
  reflexivity.
Qed.

(** Where the file cannot be written the defaults are still returned,
    the failed save is logged, and the document stays as it was. *)
Lemma load_settings_unwritable (d : Disk) (f : File) (raw : string) :
  user_config_dir d = true ->
  user_settings_path d = Some f ->
  readable f = true ->
  writable f = false ->
  content f = Garbage raw ->
  load_settings validate_AppSettings d
  = (Ret default_settings, d,
     [ Log ERROR "Error decoding JSON from settings file";
       Log INFO "Attempting to load/create fresh default settings due to JSON error.";
       Log ERROR "Error saving settings" ]).
Proof.
  intros Hdir Hf Hr Hw Hc. unfold load_settings.
  rewrite run_get. cbv beta. rewrite Hf. rewrite run_ret.
  erewrite run_try_raise; cycle 1.
  { unfold read_user_settings. rewrite run_get. cbv beta. rewrite Hf.
    unfold open_read. rewrite Hr. rewrite run_ret. rewrite Hc.
    unfold json_load. rewrite run_raise. reflexivity. }
  unfold log. rewrite !run_emit. cbv beta.
  unfold save_and_return_defaults.
  rewrite (run_bind_ret _ _ _ _ _ _
             (save_settings_unwritable default_settings d f Hdir Hf Hw)).
  reflexivity.
Qed.

(** A user document that is valid JSON but no object: unpacking it as
    keyword arguments raises [TypeError], which [load_settings] has no
    handler for. *)
Lemma load_settings_not_a_mapping (d : Disk) (f : File) (j : json) :
  user_settings_path d = Some f ->
  readable f = true ->
  content f = Document j ->
  (forall members, j <> JObj members) ->
  load_settings validate_AppSettings d = (Raise TypeError, d, []).
Proof.
  intros Hf Hr Hc Hj. unfold load_settings.
  rewrite run_get. cbv beta. rewrite Hf. rewrite run_ret.
  erewrite run_try_raise; cycle 1.
  { unfold read_user_settings. rewrite run_get. cbv beta. rewrite Hf.
    unfold open_read. rewrite Hr. rewrite run_ret. rewrite Hc.
    unfold json_load. rewrite run_ret.
    assert (construct validate_AppSettings j = NotAMapping) as ->.
    { destruct j; try reflexivity. by destruct (Hj members). }
    reflexivity. }
  reflexivity.
Qed.

(** The loop over the entries changes nothing on disk and ends in a
    catalog or in the [TypeError] of an entry that is no object. *)
Lemma load_entries_run (items : list (string * json))
    (acc : list (string * GameConfig)) (d : Disk) :
  exists r logs,
    load_entries validate_GameConfig items acc d = (r, d, logs)
    /\ (r = Raise TypeError \/ exists cfgs, r = Ret cfgs).
Proof.
  revert acc. induction items as [|[name data] rest IH]; intros acc; simpl.
  - eexists _, _. split; [reflexivity|]. right. by eexists.
  - destruct (construct validate_GameConfig data).
    + apply IH.
    + destruct (IH acc) as (r & logs & Hrun & Hr).
      unfold log. rewrite run_emit. cbv beta. rewrite Hrun.
      eexists _, _. split; [reflexivity|]. exact Hr.
    + eexists _, _. split; [reflexivity|]. by left.
Qed.

(** The existence test of line 136 on a path where [stat] fails. *)
Lemma load_game_configs_hidden (d : Disk) :
  default_games_config_path d = None ->
  games_path_stat_fails d = true ->
  load_game_configs validate_GameConfig d = (Raise PermissionError, d, []).
Proof.
  intros Hf Hs. unfold load_game_configs, default_games_config_path_exists.
  apply run_bind_raise. rewrite run_get. cbv beta. by rewrite Hf, Hs.
Qed.

Lemma load_game_configs_absent (d : Disk) :
  default_games_config_path d = None ->
  games_path_stat_fails d = false ->
  load_game_configs validate_GameConfig d
  = (Ret [], d,
     [Log WARNING "Default game config file not found. Returning empty config."]).
Proof.
  intros Hf Hs. unfold load_game_configs, default_games_config_path_exists.
  erewrite run_bind_ret; cycle 1.
  { rewrite run_get. cbv beta. rewrite Hf, Hs. reflexivity. }
  reflexivity.
Qed.

(** Once a file is seen at the path, the load is what the [try] makes
    of it. *)
Lemma load_game_configs_found (d : Disk) (f : File) :
  default_games_config_path d = Some f ->
  load_game_configs validate_GameConfig d
  = try_except
      (d ← get;
       c ← open_read (default_games_config_path d);
       data ← json_load c;
       its ← items data;
       game_configs ← load_entries validate_GameConfig its [];
       log INFO "Successfully loaded game configs";;
       ret game_configs)
      (fun e =>
         match e with
         | FileNotFoundError =>
             log ERROR "Game config file not found despite earlier checks.";;
             ret []
         | JSONDecodeError =>
             log ERROR "Error decoding JSON from game config file";;
             ret []
         | _ =>
             log ERROR "An unexpected error occurred while loading game configs";;
             ret []
         end) d.
Proof.
  intros Hf. unfold load_game_configs, default_games_config_path_exists.
  erewrite run_bind_ret; cycle 1.
  { rewrite run_get. cbv beta. rewrite Hf. reflexivity. }
  cbv beta. change (negb true) with false. cbv iota.
  by destruct (try_except _ _ d) as [[r s] l].
Qed.

(** [load_game_configs] never writes, and once the existence test of
    line 136 has returned it never raises. *)
Lemma load_game_configs_total (d : Disk) :
  (default_games_config_path d = None -> games_path_stat_fails d = false) ->
  exists cfgs logs, load_game_configs validate_GameConfig d = (Ret cfgs, d, logs).
Proof.
  intros Hseen.
  destruct (default_games_config_path d) as [f|] eqn:Hf.
  - rewrite (load_game_configs_found d f Hf).
    unfold try_except.
    match goal with |- context [match ?m d with _ => _ end] =>
      assert (exists r logs, m d = (r, d, logs)) as (r & logs & ->)
    end.
    { rewrite run_get. cbv beta. rewrite Hf.
      unfold open_read. destruct (readable f).
      - rewrite run_ret. unfold json_load. destruct (content f) as [raw|j|raw why].
        + rewrite run_raise. by eexists _, _.
        + rewrite run_ret. unfold items. destruct j;
            try (rewrite run_raise; by eexists _, _).
          rewrite run_ret.
          destruct (load_entries_run members [] d) as (r & logs & Hrun & [->|[cfgs ->]]).
          * rewrite (run_bind_raise _ _ _ _ _ _ Hrun). by eexists _, _.
          * rewrite (run_bind_ret _ _ _ _ _ _ Hrun). by eexists _, _.
        + rewrite run_raise. by eexists _, _.
      - rewrite run_raise. by eexists _, _. }
    destruct r as [cfgs|e].
    + by eexists _, _.
    + destruct e; by eexists _, _.
  - rewrite (load_game_configs_absent d Hf (Hseen eq_refl)). by eexists _, _.
Qed.

(** A catalog that is absent, unreadable, malformed or given up on, or
    one that is no object, gives the empty catalog. *)
Lemma load_game_configs_unusable (d : Disk) :
  (default_games_config_path d = None /\ games_path_stat_fails d = false)
  \/ (exists f, default_games_config_path d = Some f
                /\ (readable f = false
                    \/ (exists raw, content f = Garbage raw)
                    \/ (exists raw why, content f = Refused raw why)
                    \/ (exists j, content f = Document j
                                  /\ forall members, j <> JObj members))) ->
  exists logs, load_game_configs validate_GameConfig d = (Ret [], d, logs).
Proof.
  intros [[Hf Hs]|(f & Hf & Hbad)].
  { rewrite (load_game_configs_absent d Hf Hs). by eexists. }
  rewrite (load_game_configs_found d f Hf).
  assert (exists e logs,
            (d ← get;
             c ← open_read (default_games_config_path d);
             data ← json_load c;
             its ← items data;
             game_configs ← load_entries validate_GameConfig its [];
             log INFO "Successfully loaded game configs";;
             ret game_configs) d = (Raise e, d, logs)) as (e & logs & Hrun).
  { rewrite run_get. cbv beta. rewrite Hf. unfold open_read.
    destruct (readable f) eqn:Hr; [|rewrite run_raise; by eexists _, _].
    rewrite run_ret. unfold json_load.
    destruct Hbad as [?|[[raw Hc]|[(raw & why & Hc)|(j & Hc & Hj)]]]; [done| | |];
      rewrite Hc.
    - rewrite run_raise. by eexists _, _.
    - rewrite run_raise. by eexists _, _.
    - rewrite run_ret. unfold items.
      destruct j; try (rewrite run_raise; by eexists _, _). by destruct (Hj members). }
  rewrite (run_try_raise _ _ _ _ _ _ Hrun).
  destruct e; by eexists.
Qed.

(** An entry that is an object and fails validation is skipped and
    logged under its name; the entries around it are kept. *)
Lemma load_entries_skips_invalid_object (name : string) (members : list (string * json))
    (rest : list (string * json)) (acc : list (string * GameConfig)) (d : Disk) :
  validate_GameConfig members = None ->
  load_entries validate_GameConfig ((name, JObj members) :: rest) acc d
  = prepend [Log ERROR ("Validation error for game '" +:+ name +:+ "'")]
      (load_entries validate_GameConfig rest acc d).
Proof. intros Hv. simpl. rewrite Hv. unfold log. by rewrite run_emit. Qed.

Lemma load_entries_keeps_valid_object (name : string) (members : list (string * json))
    (cfg : GameConfig) (rest : list (string * json))
    (acc : list (string * GameConfig)) (d : Disk) :
  validate_GameConfig members = Some cfg ->
  load_entries validate_GameConfig ((name, JObj members) :: rest) acc d
  = load_entries validate_GameConfig rest (PyDict.set acc name cfg) d.
Proof. intros Hv. simpl. by rewrite Hv. Qed.

Lemma get_set_eq {V} (dict : list (string * V)) (k : string) (v : V) :
  PyDict.get (PyDict.set dict k v) k = Some v.
Proof.
  induction dict as [|[k' v'] r IH]; simpl.
  - by rewrite decide_True.
  - destruct (decide (k = k')) as [->|Hne]; simpl.
    + by rewrite decide_True.
    + by rewrite decide_False.
Qed.

Lemma get_set_ne {V} (dict : list (string * V)) (k k' : string) (v : V) :
  k <> k' -> PyDict.get (PyDict.set dict k v) k' = PyDict.get dict k'.
Proof.
  intros Hne. induction dict as [|[k0 v0] r IH]; simpl.
  - by rewrite decide_False.
  - destruct (decide (k = k0)) as [->|Hne0]; simpl.
    + by rewrite !decide_False.
    + destruct (decide (k' = k0)); [done | exact IH].
Qed.

(** What does hold of the per-entry validation: when every entry of the
    catalog is an object, the load ends in a catalog; an entry that
    validates is in it under its name, and an entry that fails validation
    is left out and logged by name. *)
Lemma load_entries_objects (items : list (string * json))
    (acc : list (string * GameConfig)) (d : Disk) :
  Forall (fun e => exists members, e.2 = JObj members) items ->
  NoDup items.*1 ->
  exists cfgs logs,
    load_entries validate_GameConfig items acc d = (Ret cfgs, d, logs)
    /\ (forall name members,
          (name, JObj members) ∈ items ->
          match validate_GameConfig members with
          | Some cfg => PyDict.get cfgs name = Some cfg
          | None =>
              PyDict.get cfgs name = PyDict.get acc name
              /\ Log ERROR ("Validation error for game '" +:+ name +:+ "'") ∈ logs
          end)
    /\ (forall name, name ∉ items.*1 -> PyDict.get cfgs name = PyDict.get acc name).
Proof.
  intros Hobj. revert acc.
  induction Hobj as [|[name data] rest [members Hdata] _ IH]; intros acc Hnd.
  - exists acc, []. split; [reflexivity|]. split; [|done].
    intros name members Hin. by apply elem_of_nil in Hin.
  - simpl in Hdata. subst data. simpl in Hnd. apply NoDup_cons in Hnd as [Hfresh Hnd].
    destruct (validate_GameConfig members) as [cfg|] eqn:Hv.
    + rewrite (load_entries_keeps_valid_object _ _ _ _ _ _ Hv).
      destruct (IH (PyDict.set acc name cfg) Hnd) as (cfgs & logs & Hrun & Hin & Hout).
      exists cfgs, logs. split; [exact Hrun|]. split.
      * intros name' members' [Heq|Hin']%elem_of_cons.
        -- injection Heq as -> ->. rewrite Hv.
           rewrite (Hout name Hfresh). apply get_set_eq.
        -- specialize (Hin name' members' Hin').
           destruct (validate_GameConfig members'); [done|].
           destruct Hin as [Hget Hlog]. split; [|done].
           rewrite Hget. apply get_set_ne. intros ->. apply Hfresh.
           apply list_elem_of_fmap. by exists (name', JObj members').
      * intros name' Hnot. simpl in Hnot. apply not_elem_of_cons in Hnot as [Hne Hnot].
        rewrite (Hout name' Hnot). by apply get_set_ne.
    + rewrite (load_entries_skips_invalid_object _ _ _ _ _ Hv).
      destruct (IH acc Hnd) as (cfgs & logs & Hrun & Hin & Hout).
      rewrite Hrun. eexists _, _. split; [reflexivity|]. split.
      * intros name' members' [Heq|Hin']%elem_of_cons.
        -- injection Heq as -> ->. rewrite Hv. split; [by apply Hout | left].
        -- specialize (Hin name' members' Hin').
           destruct (validate_GameConfig members'); [done|].
           destruct Hin as [Hget Hlog]. split; [done | by right].
      * intros name' Hnot. simpl in Hnot. apply not_elem_of_cons in Hnot as [_ Hnot].
        by apply Hout.
Qed.

(** An entry that is no object ends the loop with [TypeError]. *)
Lemma load_entries_not_a_mapping (items : list (string * json))
    (acc : list (string * GameConfig)) (d : Disk) :
  Exists (fun e => forall members, e.2 <> JObj members) items ->
  exists logs,
    load_entries validate_GameConfig items acc d = (Raise TypeError, d, logs).
Proof.
  intros Hex. revert acc. induction Hex as [[name data] rest Hno|[name data] rest _ IH];
    intros acc; simpl.
  - assert (construct validate_GameConfig data = NotAMapping) as ->.
    { destruct data; try reflexivity. by destruct (Hno members). }
    by eexists.
  - destruct (construct validate_GameConfig data).
    + apply IH.
    + destruct (IH acc) as [logs Hrun]. unfold log. rewrite run_emit. cbv beta.
      rewrite Hrun. by eexists.
    + by eexists.
Qed.

(** So one entry that is no object empties the whole catalog. *)
Lemma load_game_configs_not_a_mapping (d : Disk) (f : File)
    (members : list (string * json)) :
  default_games_config_path d = Some f ->
  readable f = true ->
  content f = Document (JObj members) ->
  Exists (fun e => forall m, e.2 <> JObj m) members ->
  exists logs,
    load_game_configs validate_GameConfig d = (Ret [], d, logs)
    /\ Log ERROR "An unexpected error occurred while loading game configs" ∈ logs.
Proof.
  intros Hf Hr Hc Hex. rewrite (load_game_configs_found d f Hf).
  destruct (load_entries_not_a_mapping members [] d Hex) as [logs Hrun].
  erewrite run_try_raise; cycle 1.
  { rewrite run_get. cbv beta. rewrite Hf.
    unfold open_read. rewrite Hr, run_ret, Hc. unfold json_load. rewrite run_ret.
    unfold items. rewrite run_ret.
    rewrite (run_bind_raise _ _ _ _ _ _ Hrun). reflexivity. }
  eexists. split; [reflexivity|]. rewrite elem_of_app. right. left.
Qed.

End ConfigStore.

(** A document that is no JSON, on a disk that takes the write. *)
Lemma load_settings_garbage_document_recovers :
  ConfigManager.load_settings Pydantic.AppSettings_validate Samples.garbage_settings_disk
  = (Ret ConfigManager.default_settings,
     ConfigManager.with_user_settings Samples.garbage_settings_disk
       (Some (ConfigManager.mkFile
                (ConfigManager.Document
                   (Pydantic.AppSettings_dump ConfigManager.default_settings))
                true true)),
     [ Log ERROR "Error decoding JSON from settings file";
       Log INFO "Attempting to load/create fresh default settings due to JSON error.";
       Log INFO "Settings saved" ]).
Proof. reflexivity. Qed.

(** C5: the code at the failing input.  The user settings document is the
    JSON array [[]]: it parses, it is no settings object, and
    [load_settings] neither returns the defaults nor rewrites the
    document; the [TypeError] reaches the caller. *)
Theorem load_settings_array_document_raises :
  ConfigManager.load_settings Pydantic.AppSettings_validate Samples.array_settings_disk
  = (Raise TypeError, Samples.array_settings_disk, []).
Proof.
  apply (load_settings_not_a_mapping Pydantic.AppSettings_validate
           Samples.array_settings_disk
           (ConfigManager.mkFile (ConfigManager.Document (JArr [])) true true)
           (JArr [])); done.
Qed.

(** C8: the code at the failing input.  With the entry that is no object
    in the catalog, the valid entry is lost with it and the catalog is
    empty; without that entry the valid one is returned and the invalid
    object is skipped and logged. *)
Theorem load_game_configs_broken_entry_empties_catalog :
  ConfigManager.load_game_configs Pydantic.GameConfig_validate
    (Samples.games_disk Samples.mixed_catalog)
  = (Ret [],
     Samples.games_disk Samples.mixed_catalog,
     [ Log ERROR "Validation error for game 'InvalidGame'";
       Log ERROR "An unexpected error occurred while loading game configs" ])
  /\ ConfigManager.load_game_configs Pydantic.GameConfig_validate
       (Samples.games_disk Samples.object_catalog)
     = (Ret [ ("TestGame1",
               mkGameConfig "http://test1.wiki.com" true (Some "/search?q={query}") None) ],
        Samples.games_disk Samples.object_catalog,
        [ Log ERROR "Validation error for game 'InvalidGame'";
          Log INFO "Successfully loaded game configs" ]).
Proof. split; reflexivity. Qed.


(** ** Further steps of a run *)

Section MoreMonadFacts.

Context {S L : Type}.

Lemma run_put {B} (s' : S) (k : unit -> M S L B) (s : S) :
  (put s' ≫= k) s = k tt s'.
Proof.
  unfold mbind, M_bind, bind, put. by destruct (k tt s') as [[r s2] l2].
Qed.

End MoreMonadFacts.

(** ** The configuration store: catalog order, saving, first run *)

Section CatalogOrder.

Import ConfigManager.

Variable validate_GameConfig : list (string * json) -> option GameConfig.

Lemma set_fresh {V} (dict : list (string * V)) (k : string) (v : V) :
  k ∉ dict.*1 -> PyDict.set dict k v = dict ++ [(k, v)].
Proof.
  induction dict as [|[k' v'] r IH]; simpl; intros Hk; [done|].
  apply not_elem_of_cons in Hk as [Hne Hk].
  rewrite decide_False by done. by rewrite IH.
Qed.

Lemma load_entries_in_order (items : list (string * json))
    (acc : list (string * GameConfig)) (d : Disk) :
  Forall (fun e => exists members, e.2 = JObj members) items ->
  NoDup items.*1 ->
  (forall k, k ∈ items.*1 -> k ∉ acc.*1) ->
  exists logs,
    load_entries validate_GameConfig items acc d
    = (Ret (acc ++ valid_entries validate_GameConfig items), d, logs).
Proof.
  intros Hobj. revert acc.
  induction Hobj as [|[name data] rest [members Hdata] _ IH]; intros acc Hnd Hfresh.
  - exists []. simpl. by rewrite app_nil_r.
  - simpl in Hdata. subst data. simpl in Hnd. apply NoDup_cons in Hnd as [Hname Hnd].
    unfold valid_entries. simpl. unfold valid_entry at 1. simpl.
    destruct (validate_GameConfig members) as [cfg|] eqn:Hv.
    + rewrite set_fresh by (apply Hfresh; left).
      destruct (IH (acc ++ [(name, cfg)]) Hnd) as [logs Hrun].
      { intros k Hk. rewrite fmap_app, elem_of_app. intros [Hin|Hin].
        - apply (Hfresh k); [by right | done].
        - simpl in Hin. apply list_elem_of_singleton in Hin. by subst k. }
      exists logs. rewrite Hrun. unfold valid_entries. by rewrite <- app_assoc.
    + destruct (IH acc Hnd) as [logs Hrun].
      { intros k Hk. apply Hfresh. by right. }
      unfold log. rewrite run_emit. cbv beta. rewrite Hrun. by eexists.
Qed.

(** X4.  A catalog document whose entries are all objects is loaded in
    document order: the catalog is the list of the entries that validate,
    each under its name and in the position the document gives it, and
    the entries that fail validation are simply absent.  The order is
    what decides which profile a window title matches first. *)
Theorem load_game_configs_keeps_document_order
    (d : Disk) (f : File) (members : list (string * json)) :
  default_games_config_path d = Some f ->
  readable f = true ->
  content f = Document (JObj members) ->
  Forall (fun e => exists m, e.2 = JObj m) members ->
  NoDup members.*1 ->
  exists logs,
    load_game_configs validate_GameConfig d
    = (Ret (valid_entries validate_GameConfig members), d, logs).
Proof.
  intros Hf Hr Hc Hobj Hnd. rewrite (load_game_configs_found validate_GameConfig d f Hf).
  destruct (load_entries_in_order members [] d Hobj Hnd) as [logs Hrun].
  { intros k _ Hin. by apply elem_of_nil in Hin. }
  erewrite run_try_ret; [by eexists|].
  rewrite run_get. cbv beta. rewrite Hf.
  unfold open_read. rewrite Hr, run_ret, Hc. unfold json_load. rewrite run_ret.
  unfold items. rewrite run_ret.
  rewrite (run_bind_ret _ _ _ _ _ _ Hrun). cbv beta. simpl app.
  unfold log. rewrite run_emit. cbv beta. reflexivity.
Qed.

End CatalogOrder.

Lemma load_game_configs_keeps_document_order_witness :
  exists logs,
    ConfigManager.load_game_configs Pydantic.GameConfig_validate
      (Samples.games_disk Samples.object_catalog)
    = (Ret [ ("TestGame1",
              mkGameConfig "http://test1.wiki.com" true (Some "/search?q={query}") None) ],
       Samples.games_disk Samples.object_catalog, logs).
Proof.
  apply (load_game_configs_keeps_document_order Pydantic.GameConfig_validate
           (Samples.games_disk Samples.object_catalog)
           (ConfigManager.mkFile (ConfigManager.Document Samples.object_catalog) true true)
           [ ("TestGame1", JObj [ ("BaseUrl", JStr "http://test1.wiki.com");
                                  ("NeedsSearch", JBool true);
                                  ("SearchTemplate", JStr "/search?q={query}") ]);
             ("InvalidGame", JObj [ ("BaseUrl", JInt 123) ]) ]).
  - reflexivity.
  - reflexivity.
  - reflexivity.
  - repeat constructor; eexists; reflexivity.
  - simpl. apply NoDup_cons. split.
    + intros Hin. apply list_elem_of_singleton in Hin. discriminate Hin.
    + apply NoDup_singleton.
Defined.

Section SavingSettings.

Import ConfigManager.

Variable validate_AppSettings : list (string * json) -> option AppSettings.

Lemma with_user_config_dir_present (d : Disk) :
  user_config_dir d = true -> with_user_config_dir d true = d.
Proof. destruct d. simpl. by intros ->. Qed.

Lemma ensure_config_dir_exists_made (d : Disk) :
  user_config_dir d = false ->
  makedirs_ok d = true ->
  _ensure_config_dir_exists d
  = (Ret tt, with_user_config_dir d true, [Log INFO "Created user config directory"]).
Proof.
  intros Hdir Hmk. unfold _ensure_config_dir_exists. rewrite run_get. cbv beta.
  rewrite Hdir, Hmk. rewrite run_put. reflexivity.
Qed.

Lemma ensure_config_dir_exists_refused (d : Disk) :
  no_config_dir d ->
  _ensure_config_dir_exists d
  = (Raise OSError, d, [Log ERROR "Error creating user config directory"]).
Proof.
  intros [Hdir Hmk]. unfold _ensure_config_dir_exists. rewrite run_get. cbv beta.
  rewrite Hdir, Hmk. unfold log. rewrite run_emit. cbv beta. reflexivity.
Qed.

(** The directory step of a save, when the directory is there or can be
    made. *)
Lemma ensure_config_dir_exists_ok (d : Disk) :
  user_config_dir d = true \/ makedirs_ok d = true ->
  exists logs,
    _ensure_config_dir_exists d = (Ret tt, with_user_config_dir d true, logs).
Proof.
  intros Hdir. destruct (user_config_dir d) eqn:Hd.
  - rewrite (ensure_config_dir_exists_present d Hd).
    rewrite with_user_config_dir_present by done. by eexists.
  - destruct Hdir as [?|Hmk]; [done|].
    rewrite (ensure_config_dir_exists_made d Hd Hmk). by eexists.
Qed.




(** What a save leaves on a disk that lets it write. *)
Lemma save_settings_can_save (settings : AppSettings) (d : Disk) :
  can_save d ->
  exists f logs,
    save_settings settings d
    = (Ret tt, with_user_settings (with_user_config_dir d true) (Some f), logs)
    /\ content f = Document (Pydantic.AppSettings_dump settings)
    /\ readable f = true
    /\ writable f = true.
Proof.
  intros [Hdir Hfile]. unfold save_settings.
  destruct (ensure_config_dir_exists_ok d Hdir) as [l0 H0].
  rewrite (run_bind_ret _ _ _ _ _ _ H0). cbv beta.
  destruct (user_settings_path d) as [f|] eqn:Hf.
  - destruct Hfile as [Hw Hr].
    erewrite run_try_ret; cycle 1.
    { erewrite run_bind_ret; cycle 1.
      { apply (write_user_settings_writable _ _ f); [by destruct d | done]. }
      reflexivity. }
    eexists _, _. split; [reflexivity|]. by split.
  - erewrite run_try_ret; cycle 1.
    { erewrite run_bind_ret; cycle 1.
      { unfold write_user_settings. rewrite run_get. cbv beta.
        assert (user_settings_path (with_user_config_dir d true) = None) as ->
          by (by destruct d).
        assert (user_config_dir (with_user_config_dir d true) = true) as ->
          by (by destruct d).
        assert (create_ok (with_user_config_dir d true) = true) as ->
          by (by destruct d).
        reflexivity. }
      reflexivity. }
    eexists _, _. split; [reflexivity|]. by split.
Qed.


Lemma save_and_return_defaults_run (d d' : Disk) (logs : list LogRecord) :
  save_settings default_settings d = (Ret tt, d', logs) ->
  save_and_return_defaults d = (Ret default_settings, d', logs).
Proof.
  intros Hsave. unfold save_and_return_defaults.
  rewrite (run_bind_ret _ _ _ _ _ _ Hsave). simpl. by rewrite app_nil_r.
Qed.

(** X6.  The first start, with neither a user settings file nor a
    shipped default: [load_settings] returns the hardcoded defaults
    (Ctrl+F1, 800x600 at 100,100) and writes them to the user settings
    file, making the directory on the way if it has to. *)
Theorem load_settings_first_run_writes_defaults (d : Disk) :
  user_settings_path d = None ->
  default_settings_path d = None ->
  user_config_dir d = true \/ makedirs_ok d = true ->
  create_ok d = true ->
  exists f logs,
    load_settings validate_AppSettings d
    = (Ret default_settings,
       with_user_settings (with_user_config_dir d true) (Some f), logs)
    /\ content f = Document (Pydantic.AppSettings_dump default_settings).
Proof.
  intros Hu Hdf Hdir Hcr. unfold load_settings.
  rewrite run_get. cbv beta. rewrite Hu, Hdf.
  destruct (save_settings_can_save default_settings d) as (f & logs & Hsave & Hc & _ & _).
  { split; [done|]. by rewrite Hu. }
  erewrite run_bind_ret; cycle 1.
  { unfold log. rewrite !run_emit. cbv beta.
    rewrite (run_bind_ret _ _ _ _ _ _ (save_and_return_defaults_run _ _ _ Hsave)).
    cbv beta. reflexivity. }
  cbv beta. eexists _, _. split; [reflexivity | done].
Qed.

(** X7.  The first start with a shipped default document: the document
    is copied to the user settings file as it is, permission bits
    included, and the settings returned are those the copy validates
    to. *)
Theorem load_settings_first_run_copies_shipped_default
    (d : Disk) (f : File) (members : list (string * json)) (s : AppSettings) :
  user_settings_path d = None ->
  default_settings_path d = Some f ->
  user_config_dir d = true ->
  create_ok d = true ->
  readable f = true ->
  content f = Document (JObj members) ->
  validate_AppSettings members = Some s ->
  exists logs,
    load_settings validate_AppSettings d
    = (Ret s, with_user_settings d (Some f), logs).
Proof.
  intros Hu Hdf Hdir Hcr Hr Hc Hv. unfold load_settings.
  rewrite run_get. cbv beta. rewrite Hu, Hdf.
  erewrite run_bind_ret; cycle 1.
  { unfold log. rewrite run_emit. cbv beta.
    erewrite run_try_ret; [reflexivity|].
    erewrite run_bind_ret; cycle 1.
    { unfold shutil_copy. rewrite run_get. cbv beta. rewrite Hdf.
      unfold open_read. rewrite Hr. rewrite run_ret.
      erewrite run_bind_ret; cycle 1.
      { unfold write_user_settings. rewrite run_get. cbv beta.
        rewrite Hu, Hdir, Hcr. reflexivity. }
      cbv beta. rewrite run_get. cbv beta. simpl user_settings_path.
      reflexivity. }
    cbv beta. rewrite run_emit. cbv beta. reflexivity. }
  cbv beta iota.
  erewrite run_try_ret; cycle 1.
  { unfold read_user_settings. rewrite run_get. cbv beta.
    simpl user_settings_path. unfold open_read. rewrite Hr. rewrite run_ret. rewrite Hc.
    unfold json_load. rewrite run_ret. unfold construct. rewrite Hv. reflexivity. }
  eexists. reflexivity.
Qed.

(** X8.  The fallback to the defaults is not total: on a first start
    where the configuration directory is missing and cannot be made,
    [load_settings] raises [OSError] whatever the shipped default is,
    because every path ends in [save_settings]. *)
Theorem load_settings_first_run_without_directory (d : Disk) :
  user_settings_path d = None ->
  no_config_dir d ->
  exists logs, load_settings validate_AppSettings d = (Raise OSError, d, logs).
Proof.
  intros Hu Hno. pose proof Hno as [Hdir Hmk]. unfold load_settings.
  rewrite run_get. cbv beta. rewrite Hu.
  assert (Hsave : save_and_return_defaults d
                  = (Raise OSError, d, [Log ERROR "Error creating user config directory"])).
  { unfold save_and_return_defaults, save_settings.
    apply run_bind_raise. apply run_bind_raise.
    by apply ensure_config_dir_exists_refused. }
  destruct (default_settings_path d) as [f|] eqn:Hdf.
  - assert (Hcopy : exists e, shutil_copy d = (Raise e, d, []) /\ is_OSError e = true).
    { unfold shutil_copy. rewrite run_get. cbv beta. rewrite Hdf.
      unfold open_read. destruct (readable f).
      - rewrite run_ret. exists FileNotFoundError. split; [|done].
        apply run_bind_raise. unfold write_user_settings. rewrite run_get. cbv beta.
        by rewrite Hu, Hdir.
      - exists PermissionError. split; [|done]. by rewrite run_raise. }
    destruct Hcopy as (e & Hcopy & He).
    erewrite run_bind_raise; [by eexists|].
    unfold log. rewrite run_emit. cbv beta.
    erewrite run_try_raise; cycle 1.
    { apply run_bind_raise. exact Hcopy. }
    rewrite He. rewrite run_emit. cbv beta.
    rewrite (run_bind_raise _ _ _ _ _ _ Hsave). reflexivity.
  - erewrite run_bind_raise; [by eexists|].
    unfold log. rewrite !run_emit. cbv beta.
    rewrite (run_bind_raise _ _ _ _ _ _ Hsave). reflexivity.
Qed.

End SavingSettings.

Section SettingsRoundTrip.

Import ConfigManager.

Variable validate_AppSettings : list (string * json) -> option AppSettings.





End SettingsRoundTrip.


Lemma load_settings_first_run_writes_defaults_witness :
  exists f logs,
    ConfigManager.load_settings Pydantic.AppSettings_validate Fixtures.first_run_disk
    = (Ret ConfigManager.default_settings,
       ConfigManager.with_user_settings
         (ConfigManager.with_user_config_dir Fixtures.first_run_disk true) (Some f), logs)
    /\ ConfigManager.content f
       = ConfigManager.Document (Pydantic.AppSettings_dump ConfigManager.default_settings).
Proof.
  apply (load_settings_first_run_writes_defaults Pydantic.AppSettings_validate
           Fixtures.first_run_disk).
  - reflexivity.
  - reflexivity.
  - right. reflexivity.
  - reflexivity.
Defined.

Lemma load_settings_first_run_copies_shipped_default_witness :
  exists logs,
    ConfigManager.load_settings Pydantic.AppSettings_validate Fixtures.shipped_disk
    = (Ret (mkAppSettings (mkHotkeyConfig "F2" ["Alt"])
              (mkPopupConfig (inject_Z 640) (inject_Z 480) (100 # 1)%Q (100 # 1)%Q)),
       ConfigManager.with_user_settings Fixtures.shipped_disk
         (Some (ConfigManager.mkFile
                  (ConfigManager.Document (JObj Fixtures.shipped_settings)) true false)),
       logs).
Proof.
  apply (load_settings_first_run_copies_shipped_default Pydantic.AppSettings_validate
           Fixtures.shipped_disk _ Fixtures.shipped_settings); reflexivity.
Defined.

Lemma load_settings_first_run_without_directory_witness :
  exists logs,
    ConfigManager.load_settings Pydantic.AppSettings_validate Fixtures.no_directory_disk
    = (Raise OSError, Fixtures.no_directory_disk, logs).
Proof.
  apply (load_settings_first_run_without_directory Pydantic.AppSettings_validate
           Fixtures.no_directory_disk).
  - reflexivity.
  - split; reflexivity.
Defined.


(** ** The hotkey registrar: parsing, teardown, the flag *)

Section HotkeyParsing.

Import HotkeyManager.

Variable platform : Platform.

Lemma lower_ascii_idempotent (c : ascii) :
  PyStr.lower_ascii (PyStr.lower_ascii c) = PyStr.lower_ascii c.
Proof.
  destruct c as [[] [] [] [] [] [] [] []]; reflexivity.
Qed.

Lemma lower_idempotent (s : string) : PyStr.lower (PyStr.lower s) = PyStr.lower s.
Proof.
  induction s as [|c r IH]; [done|]. simpl. by rewrite lower_ascii_idempotent, IH.
Qed.

Lemma lower_length (s : string) : String.length (PyStr.lower s) = String.length s.
Proof. induction s as [|c r IH]; [done|]. simpl. by rewrite IH. Qed.

Lemma isascii_lower (s : string) : PyStr.isascii (PyStr.lower s) = PyStr.isascii s.
Proof.
  induction s as [|c r IH]; [done|]. simpl. rewrite IH. f_equal.
  destruct c as [[] [] [] [] [] [] [] []]; reflexivity.
Qed.

Lemma isascii_tail (s : string) : PyStr.isascii s = true -> PyStr.isascii (tail s) = true.
Proof. destruct s as [|c r]; [done|]. simpl. by intros [_ ?]%andb_true_iff. Qed.

Lemma length_tail (s : string) : String.length (tail s) = (String.length s - 1)%nat.
Proof. destruct s as [|c r]; simpl; lia. Qed.

(** On ASCII text the result of [int] is settled by the number of
    digits. *)
Lemma int_ascii (s : string) :
  PyStr.isascii s = true ->
  converts (python platform) (String.length s) ->
  PyStr.int (python platform) s = Some (PyStr.int_digits 0 s).
Proof.
  intros Ha Hc. unfold PyStr.int. rewrite Ha.
  destruct Hc as [Hc|[Hc|Hc]].
  - apply Nat.ltb_ge in Hc. by rewrite Hc.
  - rewrite Hc. by rewrite andb_false_r.
  - apply Nat.ltb_ge in Hc. rewrite Hc. by rewrite andb_false_r.
Qed.

(** Line 69 reads every key of ASCII characters that is not an [f]
    followed by more digits than [int] converts. *)
Lemma reads_ascii_key (key : string) :
  ascii_only key = true ->
  converts (python platform) (String.length key - 1) ->
  reads_key platform key = true.
Proof.
  intros Ha Hc. unfold reads_key, is_f_key.
  destruct (PyStr.startswith "f" (PyStr.lower key)); [|done].
  destruct (PyStr.isdigit _ _); [|done].
  rewrite int_ascii; [done| |].
  - apply isascii_tail. by rewrite isascii_lower.
  - by rewrite length_tail, lower_length.
Qed.

(** X10.  How [_parse_hotkey] treats a key of ASCII characters that is
    not longer than [int] converts: letter case is ignored, and with no
    modifiers the combination is the lower-cased key, put in angle
    brackets exactly when it has more than one character.  The test for
    F1 to F12 changes nothing: any longer name is bracketed the same
    way, known to the platform or not. *)
Theorem parse_hotkey_key_token (key : string) (mods : list string) (st : State) :
  ascii_only key = true ->
  converts (python platform) (String.length key - 1) ->
  fst (fst (_parse_hotkey platform (Some (mkHotkeyConfig key mods)) st))
  = fst (fst (_parse_hotkey platform (Some (mkHotkeyConfig (PyStr.lower key) mods)) st))
  /\ fst (fst (_parse_hotkey platform (Some (mkHotkeyConfig key [])) st))
     = Ret (Some (if (1 <? String.length key)%nat
                  then "<" +:+ PyStr.lower key +:+ ">"
                  else PyStr.lower key)).
Proof.
  intros Ha Hc.
  assert (Hread : reads_key platform key = true) by (by apply reads_ascii_key).
  assert (Hread' : reads_key platform (PyStr.lower key) = true).
  { apply reads_ascii_key.
    - unfold ascii_only. by rewrite isascii_lower.
    - by rewrite lower_length. }
  rewrite !_parse_hotkey_run. simpl Key. rewrite Hread, Hread'. simpl.
  unfold hotkey_string, key_part. simpl.
  by rewrite lower_idempotent, !lower_length.
Qed.

Lemma modifier_parts_known (mods : list string) :
  modifier_parts (List.filter known_modifier mods) = modifier_parts mods.
Proof.
  induction mods as [|m rest IH]; [done|].
  simpl. unfold known_modifier at 1.
  destruct (modifier_map m) as [pm|] eqn:Hm.
  - simpl. rewrite Hm. by rewrite IH.
  - exact IH.
Qed.

Lemma modifier_map_truthy (m pm : string) :
  modifier_map m = Some pm -> PyStr.truthy pm = true.
Proof.
  unfold modifier_map. repeat case_decide; intros [= <-]; reflexivity.
Qed.

Lemma warnings_app (a b : list Effect) : warnings (a ++ b) = warnings a ++ warnings b.
Proof. unfold warnings. apply omap_app. Qed.

Lemma modifier_warnings_unknown (mods : list string) :
  warnings (modifier_warnings mods)
  = map (fun m => "Unknown modifier: " +:+ m)
        (List.filter (fun m => negb (known_modifier m)) mods).
Proof.
  induction mods as [|m rest IH]; [done|].
  simpl. unfold known_modifier at 1.
  destruct (modifier_map m) as [pm|] eqn:Hm.
  - rewrite (modifier_map_truthy m pm Hm). exact IH.
  - simpl. by rewrite IH.
Qed.

(** X11.  A modifier name that is not exactly [Ctrl], [Shift], [Alt] or
    [Win] (so also [ctrl] in lower case) is left out of the combination:
    the result is the one for the known modifiers alone, and each name
    left out is reported in one warning, in order. *)
Theorem parse_hotkey_drops_unknown_modifiers (cfg : HotkeyConfig) (st : State) :
  fst (fst (_parse_hotkey platform (Some cfg) st))
  = fst (fst (_parse_hotkey platform
                (Some (mkHotkeyConfig (Key cfg)
                         (List.filter known_modifier (Modifiers cfg)))) st))
  /\ warnings (snd (_parse_hotkey platform (Some cfg) st))
     = map (fun m => "Unknown modifier: " +:+ m)
           (List.filter (fun m => negb (known_modifier m)) (Modifiers cfg)).
Proof.
  rewrite !_parse_hotkey_run. simpl Key.
  destruct (reads_key platform (Key cfg)); simpl; split.
  - unfold hotkey_string. simpl. by rewrite modifier_parts_known.
  - rewrite warnings_app. simpl. by rewrite app_nil_r, modifier_warnings_unknown.
  - reflexivity.
  - apply modifier_warnings_unknown.
Qed.

End HotkeyParsing.

Lemma parse_hotkey_key_token_witness :
  fst (fst (HotkeyManager._parse_hotkey Samples.willing
              (Some (mkHotkeyConfig "Space" ["Ctrl"])) (HotkeyManager.init None)))
  = fst (fst (HotkeyManager._parse_hotkey Samples.willing
                (Some (mkHotkeyConfig (PyStr.lower "Space") ["Ctrl"]))
                (HotkeyManager.init None)))
  /\ fst (fst (HotkeyManager._parse_hotkey Samples.willing
                 (Some (mkHotkeyConfig "Space" [])) (HotkeyManager.init None)))
     = Ret (Some (if (1 <? String.length "Space")%nat
                  then "<" +:+ PyStr.lower "Space" +:+ ">"
                  else PyStr.lower "Space")).
Proof.
  apply (parse_hotkey_key_token Samples.willing "Space" ["Ctrl"] (HotkeyManager.init None)).
  - reflexivity.
  - left. vm_compute. lia.
Defined.

Section HotkeyTeardown.

Import HotkeyManager.

Variable platform : Platform.

(** Unregistering, whatever the platform does. *)
Lemma unregister_global_hotkey_run (st : State) :
  exists tr,
    unregister_global_hotkey platform st
    = (Ret tt,
       mkState (on_hotkey_pressed_callback st) None (current_hotkey_config st) false,
       tr)
    /\ (listener st = None -> tr = [Logged INFO "Global hotkey unregistered."]).
Proof.
  rewrite unregister_global_hotkey_trace.
  eexists. split; [reflexivity|]. by intros ->.
Qed.

(** X12.  [unregister_global_hotkey] never raises, whatever [stop] and
    [join] do: it drops the listener and clears the flag, and keeps the
    callback and the last configuration.  Without a listener it makes no
    call on the platform, so unregistering twice is harmless. *)
Theorem unregister_global_hotkey_clears (st : State) :
  exists tr,
    unregister_global_hotkey platform st
    = (Ret tt,
       mkState (on_hotkey_pressed_callback st) None (current_hotkey_config st) false,
       tr)
    /\ (listener st = None -> tr = [Logged INFO "Global hotkey unregistered."]).
Proof. apply unregister_global_hotkey_run. Qed.

Lemma state_of_prepend {A} (l : list Effect) (x : Res A * State * list Effect) :
  snd (fst (prepend l x)) = snd (fst x).
Proof. by destruct x as [[r s] l']. Qed.

Lemma listener_matches_flag_needs (st : State) :
  listener_matches_flag st -> active_needs_listener st.
Proof. unfold listener_matches_flag. intros H Hnone. by rewrite Hnone in H. Qed.

Lemma register_keeps_in_step
    (hotkey_config : option HotkeyConfig) (cb : option Callback) (st : State) :
  listener_matches_flag st ->
  listener_matches_flag (snd (fst (register_global_hotkey platform hotkey_config cb st))).
Proof.
  intros Hinv. pose proof (listener_matches_flag_needs st Hinv) as Hneeds.
  assert (Hbad : hotkey_config = None
                 \/ (exists c, hotkey_config = Some c /\ Key c = EmptyString) ->
                 listener_matches_flag
                   (snd (fst (register_global_hotkey platform hotkey_config cb st)))).
  { intros Hb.
    destruct (register_invalid_config platform hotkey_config cb st Hb)
      as (st' & tr & -> & Hl & _ & Ha & _).
    simpl. unfold listener_matches_flag. by rewrite Hl, Ha. }
  destruct hotkey_config as [c|]; [|apply Hbad; by left].
  destruct (decide (Key c = EmptyString)) as [Hk|Hk].
  { apply Hbad. right. by exists c. }
  destruct (reads_key platform (Key c)) eqn:Hread; cycle 1.
  { destruct (register_unreadable_key platform c cb st Hk Hread)
      as (st' & tr & -> & Hl & Ha & _).
    simpl. unfold listener_matches_flag. by rewrite Hl, Ha. }
  destruct (accepts platform (hotkey_string c)) eqn:Hacc;
    [destruct (starts platform (hotkey_string c)) eqn:Hst|].
  - destruct (register_accepted platform c cb st Hk Hread Hacc Hst Hneeds)
      as (st' & -> & Hl & Ha & _).
    simpl. unfold listener_matches_flag. by rewrite Hl.
  - destruct (register_rejected platform c cb st Hk Hread (or_intror Hst) Hneeds)
      as (st' & tr & -> & Hl & Ha & _).
    simpl. unfold listener_matches_flag. by rewrite Hl.
  - destruct (register_rejected platform c cb st Hk Hread (or_introl Hacc) Hneeds)
      as (st' & tr & -> & Hl & Ha & _).
    simpl. unfold listener_matches_flag. by rewrite Hl.
Qed.

(** X13.  The flag and the listener never disagree.  The manager starts
    with no listener and the flag cleared, and every public method keeps
    it so that the flag is set exactly when a listener is held, and a
    listener that is held has been started: a listener the platform
    refused to start is never kept. *)
Theorem listener_and_flag_stay_in_step :
  (forall cb, listener_matches_flag (init cb))
  /\ forall st,
       listener_matches_flag st ->
       (forall hotkey_config cb,
          listener_matches_flag
            (snd (fst (register_global_hotkey platform hotkey_config cb st))))
       /\ listener_matches_flag (snd (fst (unregister_global_hotkey platform st)))
       /\ (forall c cb,
             listener_matches_flag (snd (fst (reregister_hotkeys platform c cb st))))
       /\ listener_matches_flag (snd (fst (stop_listener_if_running platform st))).
Proof.
  split; [done|]. intros st Hinv.
  destruct (unregister_global_hotkey_run st) as (tr0 & Hun & _).
  split; [intros c cb; by apply register_keeps_in_step|].
  split; [by rewrite Hun|]. split.
  - intros c cb. unfold reregister_hotkeys, log. rewrite run_emit. cbv beta.
    rewrite (run_bind_ret _ _ _ _ _ _ Hun). cbv beta.
    rewrite !state_of_prepend. by apply register_keeps_in_step.
  - unfold stop_listener_if_running, log. rewrite run_emit. cbv beta.
    rewrite state_of_prepend. by rewrite Hun.
Qed.

End HotkeyTeardown.

Lemma listener_and_flag_stay_in_step_witness :
  listener_matches_flag Samples.registered
  /\ listener_matches_flag
       (snd (fst (HotkeyManager.reregister_hotkeys Samples.refusing_start
                    Samples.alt_s None Samples.registered))).
Proof.
  assert (H : listener_matches_flag Samples.registered) by (split; reflexivity).
  split; [exact H|].
  apply (proj2 (listener_and_flag_stay_in_step Samples.refusing_start)
           Samples.registered H).
Defined.

Lemma reregister_replaces_listener_witness :
  (exists st' pre,
     HotkeyManager.reregister_hotkeys Samples.willing Samples.alt_s (Some 2)
       Samples.registered
     = (Ret true, st',
        pre ++ [ HotkeyManager.Create (hotkey_string Samples.alt_s);
                 HotkeyManager.Start (hotkey_string Samples.alt_s);
                 HotkeyManager.Logged INFO
                   ("Global hotkey '" +:+ hotkey_string Samples.alt_s
                    +:+ "' registered successfully.") ])
     /\ HotkeyManager.listener st' = Some (HotkeyManager.mkListener "<alt>+s" true)
     /\ HotkeyManager.hotkey_active st' = true
     /\ HotkeyManager.current_hotkey_config st' = Some Samples.alt_s
     /\ torn_down_first Samples.willing
          (HotkeyManager.mkListener "<ctrl>+<f1>" true) pre)
  /\ (exists st' tr,
        HotkeyManager.reregister_hotkeys Samples.willing Samples.ctrl_f_squared (Some 2)
          Samples.registered
        = (Raise ValueError, st', tr)
        /\ HotkeyManager.listener st' = None
        /\ HotkeyManager.hotkey_active st' = false
        /\ HotkeyManager.current_hotkey_config st' = Some Samples.ctrl_f_squared
        /\ torn_down_first Samples.willing
             (HotkeyManager.mkListener "<ctrl>+<f1>" true) tr).
Proof.
  split.
  - apply (proj1 (reregister_replaces_listener Samples.willing Samples.alt_s (Some 2)
                    Samples.registered ltac:(discriminate))); reflexivity.
  - apply (proj2 (reregister_replaces_listener Samples.willing Samples.ctrl_f_squared
                    (Some 2) Samples.registered ltac:(discriminate))); reflexivity.
Defined.

(** ** The orchestrator: URLs, the prompt's answers, closing, robustness *)

Section UrlShapes.

Import AppLogic.

Lemma contains_prefix (needle rest : string) :
  PyStr.contains needle (needle +:+ rest) = true.
Proof. apply contains_spec. by exists EmptyString, rest. Qed.

Lemma append_empty (s : string) : s +:+ EmptyString = s.
Proof. induction s as [|c r IH]; [done|]. rewrite append_cons. by rewrite IH. Qed.

(** Without a search template, and without a search term, the URL begins
    with the profile's base URL. *)
Lemma build_url_begins_with_base (cfg : GameConfig) (term : option string) :
  PyStr.truthy_opt (SearchTemplate cfg) = false \/ PyStr.truthy_opt term = false ->
  exists rest, _build_url cfg term = BaseUrl cfg +:+ rest.
Proof.
  intros H. unfold _build_url.
  destruct term as [[|c t]|]; try (exists EmptyString; by rewrite append_empty).
  destruct H as [H|H]; [|done].
  destruct (SearchTemplate cfg) as [[|]|]; try done; by eexists.
Qed.

(** X14.  A URL built without a search template, or without a search
    term, contains the profile's base URL; so once such a URL is the last
    one opened, the next prompt for the same profile is given an empty
    last search term. *)
Theorem url_without_template_gives_no_prefill (cfg : GameConfig) (term : option string) :
  PyStr.truthy_opt (SearchTemplate cfg) = false \/ PyStr.truthy_opt term = false ->
  prompt_last_search_term cfg (Some (_build_url cfg term)) = Some EmptyString.
Proof.
  intros H. destruct (build_url_begins_with_base cfg term H) as [rest ->].
  unfold prompt_last_search_term. simpl default. by rewrite contains_prefix.
Qed.

Lemma replace_from_absent (old new s : string) :
  PyStr.contains old s = false -> PyStr.replace_from 0 old new s = s.
Proof.
  induction s as [|c r IH]; [done|].
  cbn [PyStr.contains]. intros [Hs Hc]%orb_false_elim.
  cbn [PyStr.replace_from]. rewrite Hs. by rewrite IH.
Qed.

(** X15.  A search template that has no [{query}] placeholder is the
    URL: the search term, and the keyword map with it, is silently
    ignored. *)
Theorem template_without_placeholder_ignores_term
    (cfg : GameConfig) (template term : string) :
  SearchTemplate cfg = Some template ->
  template <> EmptyString ->
  term <> EmptyString ->
  PyStr.contains "{query}" template = false ->
  _build_url cfg (Some term) = template.
Proof.
  intros Ht Hne Hterm Habs. unfold _build_url.
  destruct term as [|c t]; [done|]. rewrite Ht.
  destruct template as [|c' t']; [done|].
  unfold PyStr.replace. by apply replace_from_absent.
Qed.

Lemma no_brace_cons (c : ascii) (r : string) :
  PyStr.contains "{" (String c r) = false ->
  c <> "{"%char /\ PyStr.contains "{" r = false.
Proof.
  cbn [PyStr.contains]. intros [Hs Hc]%orb_false_elim. split; [|done].
  intros ->. cbn [PyStr.startswith] in Hs. by rewrite decide_True in Hs.
Qed.

Lemma replace_no_brace (new s : string) :
  PyStr.contains "{" s = false -> PyStr.replace_from 0 "{query}" new s = s.
Proof.
  induction s as [|c r IH]; [done|].
  intros [Hc Hr]%no_brace_cons.
  cbn [PyStr.replace_from PyStr.startswith]. rewrite decide_False by congruence.
  by rewrite IH.
Qed.

Lemma replace_placeholder (new pre post : string) :
  PyStr.contains "{" pre = false ->
  PyStr.contains "{" post = false ->
  PyStr.replace_from 0 "{query}" new (pre +:+ "{query}" +:+ post)
  = pre +:+ new +:+ post.
Proof.
  intros Hpre Hpost. induction pre as [|c r IH].
  - simpl. by rewrite replace_no_brace.
  - apply no_brace_cons in Hpre as [Hc Hr].
    rewrite (append_cons c r).
    cbn [PyStr.replace_from PyStr.startswith]. rewrite decide_False by congruence.
    rewrite IH by done. by rewrite (append_cons c r).
Qed.

Lemma mapped_term_spec (cfg : GameConfig) (term : string) :
  match KeywordMap cfg with
  | Some m => if bool_decide (m = ∅) then term else default term (m !! PyStr.lower term)
  | None => term
  end = mapped_term cfg term.
Proof.
  unfold mapped_term. destruct (KeywordMap cfg) as [m|]; [|done].
  case_bool_decide as Hm; [|done]. subst m. by rewrite lookup_empty.
Qed.

(** X16.  With a template of the form prefix, [{query}], suffix (no
    other brace in it), the URL of a search for a term of ASCII
    characters is the prefix, the percent-encoding of the term, and the
    suffix; the term is first replaced by its entry in the keyword map,
    looked up in lower case, if it has one.  The test for an empty map
    changes nothing. *)
Theorem template_substitutes_encoded_term
    (cfg : GameConfig) (pre post term : string) :
  SearchTemplate cfg = Some (pre +:+ "{query}" +:+ post) ->
  PyStr.contains "{" pre = false ->
  PyStr.contains "{" post = false ->
  term <> EmptyString ->
  ascii_only term = true ->
  _build_url cfg (Some term)
  = pre +:+ PyStr.quote_plus (mapped_term cfg term) +:+ post.
Proof.
  intros Ht Hpre Hpost Hterm _. unfold _build_url.
  destruct term as [|c t]; [done|]. rewrite Ht.
  rewrite mapped_term_spec.
  destruct (pre +:+ "{query}" +:+ post) as [|c' t'] eqn:Htpl.
  { destruct pre; discriminate Htpl. }
  rewrite <- Htpl. unfold PyStr.replace. by apply replace_placeholder.
Qed.

End UrlShapes.

Lemma url_without_template_gives_no_prefill_witness :
  AppLogic.prompt_last_search_term Samples.fandom
    (Some (AppLogic._build_url Samples.fandom (Some "fire staff")))
  = Some EmptyString.
Proof.
  apply (url_without_template_gives_no_prefill Samples.fandom (Some "fire staff")).
  left. reflexivity.
Defined.

Lemma template_without_placeholder_ignores_term_witness :
  AppLogic._build_url
    (mkGameConfig "https://w.example/" true (Some "https://w.example/search") None)
    (Some "fire staff")
  = "https://w.example/search".
Proof.
  apply (template_without_placeholder_ignores_term
           (mkGameConfig "https://w.example/" true (Some "https://w.example/search") None)
           "https://w.example/search" "fire staff").
  - reflexivity.
  - discriminate.
  - discriminate.
  - reflexivity.
Defined.

Lemma template_substitutes_encoded_term_witness :
  AppLogic._build_url Samples.elden (Some "Boss")
  = "https://w.example/search?q=" +:+ PyStr.quote_plus (mapped_term Samples.elden "Boss")
    +:+ "".
Proof.
  apply (template_substitutes_encoded_term Samples.elden
           "https://w.example/search?q=" "" "Boss").
  - reflexivity.
  - reflexivity.
  - reflexivity.
  - discriminate.
  - reflexivity.
Defined.

Section PromptAnswers.

Import AppLogic SearchPromptDialog.

Lemma lstrip_all_space (s : string) : all_space s = true -> PyStr.lstrip s = EmptyString.
Proof.
  induction s as [|c r IH]; [done|]. simpl.
  intros [Hc Hr]%andb_true_iff. rewrite Hc. by apply IH.
Qed.

Lemma strip_all_space (s : string) : all_space s = true -> PyStr.strip s = EmptyString.
Proof. intros H. unfold PyStr.strip. by rewrite lstrip_all_space. Qed.

(** X17.  A search that is accepted with nothing but whitespace in the
    input field opens the profile's base URL, and that URL becomes the
    last search URL. *)
Theorem accepted_blank_search_opens_base_url
    (env : Env) (name : string) (cfg : GameConfig) (st : State) :
  NeedsSearch cfg = true ->
  exec_result env = 1%Z ->
  all_space (input_text env) = true ->
  exists tr,
    resolve_target env name cfg st
    = (Ret (Some (BaseUrl cfg)), set_last_search_url_str (Some (BaseUrl cfg)) st, tr)
    /\ Logged INFO "Search accepted but term was empty." ∈ map effect tr.
Proof.
  intros Hns Hres Hblank. unfold resolve_target. rewrite Hns.
  change (negb true) with false. cbv iota.
  rewrite run_get, run_observe. cbv beta.
  unfold exec_dialog. rewrite Hres.
  change (DialogCode_of_int 1) with (Some ACCEPTED). cbv iota beta zeta.
  rewrite (strip_all_space _ Hblank).
  change (PyStr.truthy_opt (Some EmptyString)) with false. cbv iota.
  rewrite run_log. cbv beta.
  eexists. split; [reflexivity|]. simpl. right. left.
Qed.

(** X18.  Open Last opens the stored URL as it is: nothing is built,
    nothing is stored, whichever profile was matched.  Only when no URL
    is stored does it fall back to the profile's base URL. *)
Theorem open_last_reuses_stored_url
    (env : Env) (name : string) (cfg : GameConfig) (st : State) :
  NeedsSearch cfg = true ->
  exec_result env = 2%Z ->
  exists tr,
    resolve_target env name cfg st
    = (Ret (Some (if PyStr.truthy_opt (last_search_url_str st)
                  then default EmptyString (last_search_url_str st)
                  else BaseUrl cfg)),
       (if PyStr.truthy_opt (last_search_url_str st) then st
        else set_last_search_url_str (Some (BaseUrl cfg)) st),
       tr)
    /\ map effect tr
       = [Prompt (prompt_last_search_term cfg (last_search_url_str st))
                 ("Search " +:+ name +:+ " Wiki...")
                 (bool_decide (main_window st = Some true))].
Proof.
  intros Hns Hres. unfold resolve_target. rewrite Hns.
  change (negb true) with false. cbv iota.
  rewrite run_get, run_observe. cbv beta.
  unfold exec_dialog. rewrite Hres.
  change (DialogCode_of_int 2) with (Some OPEN_LAST). cbv iota beta zeta.
  destruct (last_search_url_str st) as [[|c u]|] eqn:Hlast; simpl PyStr.truthy_opt;
    cbv iota; eexists; split; reflexivity.
Qed.

End PromptAnswers.

Lemma accepted_blank_search_opens_base_url_witness :
  exists tr,
    AppLogic.resolve_target (AppLogic.mkEnv "elden ring" 1 "   " None) "Elden"
      Samples.elden Samples.fresh
    = (Ret (Some "https://w.example/"),
       AppLogic.set_last_search_url_str (Some "https://w.example/") Samples.fresh, tr)
    /\ AppLogic.Logged INFO "Search accepted but term was empty."
       ∈ map AppLogic.effect tr.
Proof.
  apply (accepted_blank_search_opens_base_url
           (AppLogic.mkEnv "elden ring" 1 "   " None) "Elden" Samples.elden Samples.fresh);
    reflexivity.
Defined.

Lemma open_last_reuses_stored_url_witness :
  exists tr,
    AppLogic.resolve_target (AppLogic.mkEnv "elden ring" 2 "ignored" None) "Elden"
      Samples.elden Samples.showing
    = (Ret (Some "https://wiki.example/valorant"), Samples.showing, tr)
    /\ map AppLogic.effect tr
       = [AppLogic.Prompt (Some "https://wiki.example/valorant")
            "Search Elden Wiki..." false].
Proof.
  apply (open_last_reuses_stored_url
           (AppLogic.mkEnv "elden ring" 2 "ignored" None) "Elden"
           Samples.elden Samples.showing);
    reflexivity.
Defined.

(** ** The orchestrator: closing a popup, special games, robustness *)

Section ClosingPopups.

Import AppLogic.




End ClosingPopups.


Lemma handler_single_instance_witness :
  single_instance Samples.showing
  /\ exists r st' tr,
       AppLogic._handle_hotkey_press_thread_safe Samples.search_fire_staff Samples.showing
       = (r, st', tr)
       /\ single_instance st'
       /\ at_most_one_live tr.
Proof.
  assert (H : single_instance Samples.showing) by (repeat constructor).
  split; [exact H|].
  apply (handler_single_instance Samples.search_fire_staff Samples.showing H).
Defined.

Section Robustness.

Import AppLogic.

(** X20.  In a game that hides the cursor (Counter-Strike 2, Valorant,
    in any letter case) a hotkey press while the popup is visible only
    shows the cursor and brings the popup to the front: no prompt, no
    new page, no change of state, whether the profile needs a search or
    not and whatever page the popup shows. *)
Theorem special_game_reactivates_visible_popup
    (env : Env) (st : State) (cfgs : list (string * GameConfig))
    (name : string) (cfg : GameConfig) (p : nat) :
  game_configs st = Some cfgs ->
  match_game (active_window_title env) cfgs = Some (name, cfg) ->
  PyStr.lower name ∈ special_games ->
  visible_popup st = Some p ->
  exists tr,
    _handle_hotkey_press_thread_safe env st = (Ret tt, st, tr)
    /\ map effect tr
       = [ Logged INFO "Global hotkey pressed (handled in Qt thread).";
           Logged INFO ("Active window: '" +:+ active_window_title env +:+ "'");
           Logged INFO ("Matched game: " +:+ name);
           Logged INFO ("Special handling for " +:+ name +:+ ": showing cursor.");
           ShowCursor;
           Logged INFO "Popup already visible, activating it.";
           Activate p;
           RaiseWindow p ].
Proof.
  intros Hcfgs Hmatch Hspecial Hvis.
  rewrite (handler_matched env st cfgs name cfg Hcfgs Hmatch).
  unfold pipeline, special_handling.
  assert (PyStr.truthy name = true) as ->.
  { destruct name; [|done]. simpl in Hspecial.
    apply elem_of_cons in Hspecial as [?|Hspecial]; [done|].
    apply list_elem_of_singleton in Hspecial. done. }
  rewrite bool_decide_eq_true_2 by done. simpl andb. cbv iota.
  erewrite run_bind_ret; cycle 1.
  { rewrite run_log; cbv beta. rewrite run_observe; cbv beta.
    rewrite run_get; cbv beta. rewrite Hvis.
    rewrite run_log; cbv beta. rewrite !run_observe; cbv beta. reflexivity. }
  cbv beta iota. eexists. split; reflexivity.
Qed.

Lemma close_existing_returns (st : State) :
  exists st1 tr1,
    close_existing st = (Ret tt, st1, tr1)
    /\ same_but_popups st st1.
Proof.
  destruct (current_popup st) as [p|] eqn:Hcur.
  - destruct (popups st !! p) as [w|] eqn:Hp.
    + pose proof (close_existing_some p st w Hcur Hp) as Hrun. cbv zeta in Hrun.
      rewrite Hrun. eexists _, _. split; [reflexivity|].
      eapply same_but_popups_trans; [apply same_but_popups_update|].
      eapply same_but_popups_trans; [apply same_but_popups_update|].
      by repeat split.
    + rewrite (close_existing_dangling p st Hcur Hp).
      eexists _, _. split; [reflexivity|]. by repeat split.
  - rewrite (close_existing_none st Hcur).
    eexists _, _. split; [reflexivity|]. apply same_but_popups_refl.
Qed.

(** Opening a popup returns once the settings are loaded, whatever
    fails while the popup is made. *)
Lemma open_popup_returns (env : Env) (url : string) (st : State) (s : AppSettings) :
  settings st = Some s ->
  exists st' tr,
    open_popup env url st = (Ret tt, st', tr)
    /\ same_but_popups st st'.
Proof.
  intros Hs. destruct (close_existing_returns st) as (st1 & tr1 & Hclose & Hsame).
  assert (Hs1 : settings st1 = Some s) by (destruct Hsame as (-> & _); done).
  rewrite (open_popup_run env url st st1 tr1 s Hclose Hs1).
  rewrite create_phase_run. cbv zeta.
  destruct (popup_fault env) as [[]|]; eexists _, _; (split; [reflexivity|]);
    try exact Hsame;
    (eapply same_but_popups_trans; [exact Hsame|apply same_but_popups_with_new_popup]).
Qed.

(** X21.  Once the application has started (settings loaded, a
    non-empty catalog), a hotkey press never raises: whatever the
    window title, however the prompt ends, whichever statement of the
    popup creation fails, the handler returns, and it leaves the settings
    and the catalog as they were, so the next press finds the same. *)
Theorem hotkey_press_never_raises
    (env : Env) (st : State) (s : AppSettings)
    (c : string * GameConfig) (cfgs : list (string * GameConfig)) :
  settings st = Some s ->
  game_configs st = Some (c :: cfgs) ->
  exists st' tr,
    _handle_hotkey_press_thread_safe env st = (Ret tt, st', tr)
    /\ settings st' = Some s
    /\ game_configs st' = Some (c :: cfgs).
Proof.
  intros Hs Hcfgs.
  destruct (match_game (active_window_title env) (c :: cfgs)) as [[name cfg]|] eqn:Hmatch.
  - rewrite (handler_matched env st (c :: cfgs) name cfg Hcfgs Hmatch).
    unfold pipeline.
    destruct (special_handling_run name st) as (handled & tr0 & Hsp & _).
    rewrite (run_bind_ret _ _ _ _ _ _ Hsp). cbv beta.
    destruct handled.
    { eexists _, _. split; [reflexivity|]. by split. }
    destruct (resolve_target_run env name cfg st) as (target & tr1 & Hrt & _ & _).
    rewrite (run_bind_ret _ _ _ _ _ _ Hrt). cbv beta.
    destruct target as [url|].
    + destruct (PyStr.truthy_opt (Some url)).
      * destruct (open_popup_returns env (default EmptyString (Some url))
                    (set_last_search_url_str (Some url) st) s)
          as (st' & tr2 & Hop & Hsame); [by destruct st|].
        rewrite Hop. eexists _, _. split; [reflexivity|].
        destruct Hsame as (Ha & _ & _ & _ & Hb & _). rewrite Ha, Hb. by destruct st.
      * eexists _, _. split; [reflexivity|]. by destruct st.
    + simpl PyStr.truthy_opt. cbv iota. eexists _, _. split; [reflexivity|]. by split.
  - unfold _handle_hotkey_press_thread_safe.
    rewrite !run_log. cbv beta. rewrite run_get. cbv beta. rewrite Hcfgs.
    rewrite Hmatch. rewrite run_log. cbv beta.
    destruct (tray_icon st); eexists _, _; (split; [reflexivity|]); by split.
Qed.

Lemma special_handling_without_popup (name : string) (st : State) :
  visible_popup st = None ->
  exists tr, special_handling name st = (Ret false, st, tr) /\ no_prompt tr.
Proof.
  intros Hvis. unfold special_handling.
  destruct (PyStr.truthy name && bool_decide (PyStr.lower name ∈ special_games)).
  - rewrite run_log; cbv beta. rewrite run_observe; cbv beta.
    rewrite run_get; cbv beta. rewrite Hvis.
    eexists. split; [reflexivity|]. repeat constructor.
  - eexists. split; [reflexivity|]. constructor.
Qed.

(** X22.  The plain case.  A hotkey press over a game whose profile
    needs no search, with no popup open and nothing failing, opens one
    popup on the profile's base URL without asking anything: the popup
    is made with the popup settings, connected, shown, and current, and
    the base URL is the last search URL.  An empty base URL opens
    nothing, which is why it is excluded. *)
Theorem no_search_game_opens_base_url
    (env : Env) (st : State) (cfgs : list (string * GameConfig))
    (name : string) (cfg : GameConfig) (s : AppSettings) :
  game_configs st = Some cfgs ->
  match_game (active_window_title env) cfgs = Some (name, cfg) ->
  NeedsSearch cfg = false ->
  BaseUrl cfg <> EmptyString ->
  settings st = Some s ->
  current_popup st = None ->
  live_popups st = [] ->
  popup_fault env = None ->
  exists st' tr w,
    _handle_hotkey_press_thread_safe env st = (Ret tt, st', tr)
    /\ popups st' = popups st ++ [w]
    /\ current_popup st' = Some (length (popups st))
    /\ initial_url w = BaseUrl cfg
    /\ popup_config w = Popup s
    /\ (visible w = true /\ connected w = true /\ alive w = true)
    /\ last_search_url_str st' = Some (BaseUrl cfg)
    /\ no_prompt tr.
Proof.
  intros Hcfgs Hmatch Hns Hbase Hs Hcur Hlive Hok.
  rewrite (handler_matched env st cfgs name cfg Hcfgs Hmatch).
  unfold pipeline.
  destruct (special_handling_without_popup name st) as (tr0 & Hsp & Hnp0).
  { unfold visible_popup. by rewrite Hcur. }
  rewrite (run_bind_ret _ _ _ _ _ _ Hsp). cbv beta iota.
  erewrite run_bind_ret; cycle 1.
  { unfold resolve_target. rewrite Hns. reflexivity. }
  cbv beta. change (_build_url cfg None) with (BaseUrl cfg).
  assert (PyStr.truthy_opt (Some (BaseUrl cfg)) = true) as ->.
  { simpl. by apply truthy_true_iff. }
  change (default EmptyString (Some (BaseUrl cfg))) with (BaseUrl cfg).
  set (st1 := set_last_search_url_str (Some (BaseUrl cfg)) st).
  assert (Hclose : close_existing st1 = (Ret tt, st1, [])).
  { apply close_existing_none. by destruct st. }
  rewrite (open_popup_run env (BaseUrl cfg) st1 st1 [] s Hclose) by (by destruct st).
  rewrite create_phase_run. cbv zeta. rewrite Hok.
  eexists _, _, _. split; [reflexivity|].
  split; [reflexivity|]. split; [by destruct st|].
  split; [reflexivity|]. split; [reflexivity|]. split; [done|].
  split; [by destruct st|].
  unfold no_prompt. repeat (constructor; [done|]). simpl.
  apply Forall_app. split; [exact Hnp0|]. repeat constructor.
Qed.

End Robustness.

Lemma special_game_reactivates_visible_popup_witness :
  exists tr,
    AppLogic._handle_hotkey_press_thread_safe
      (AppLogic.mkEnv "VALORANT  " 1 "x" None) Samples.showing
    = (Ret tt, Samples.showing, tr)
    /\ map AppLogic.effect tr
       = [ AppLogic.Logged INFO "Global hotkey pressed (handled in Qt thread).";
           AppLogic.Logged INFO ("Active window: '" +:+ "VALORANT  " +:+ "'");
           AppLogic.Logged INFO ("Matched game: " +:+ "Valorant");
           AppLogic.Logged INFO ("Special handling for " +:+ "Valorant" +:+ ": showing cursor.");
           AppLogic.ShowCursor;
           AppLogic.Logged INFO "Popup already visible, activating it.";
           AppLogic.Activate 0;
           AppLogic.RaiseWindow 0 ].
Proof.
  apply (special_game_reactivates_visible_popup
           (AppLogic.mkEnv "VALORANT  " 1 "x" None) Samples.showing
           Samples.catalog "Valorant" Samples.valorant 0).
  - reflexivity.
  - reflexivity.
  - right. left.
  - reflexivity.
Defined.

Lemma hotkey_press_never_raises_witness :
  exists st' tr,
    AppLogic._handle_hotkey_press_thread_safe Samples.search_show_fails Samples.showing
    = (Ret tt, st', tr)
    /\ AppLogic.settings st' = Some ConfigManager.default_settings
    /\ AppLogic.game_configs st'
       = Some (("Valorant", Samples.valorant) :: [("Elden", Samples.elden)]).
Proof.
  apply (hotkey_press_never_raises Samples.search_show_fails Samples.showing
           ConfigManager.default_settings ("Valorant", Samples.valorant)
           [("Elden", Samples.elden)]);
    reflexivity.
Defined.

Lemma no_search_game_opens_base_url_witness :
  exists st' tr w,
    AppLogic._handle_hotkey_press_thread_safe
      (AppLogic.mkEnv "Valorant - main menu" 0 "" None) Samples.fresh
    = (Ret tt, st', tr)
    /\ AppLogic.popups st' = AppLogic.popups Samples.fresh ++ [w]
    /\ AppLogic.current_popup st' = Some (length (AppLogic.popups Samples.fresh))
    /\ AppLogic.initial_url w = BaseUrl Samples.valorant
    /\ AppLogic.popup_config w = Popup ConfigManager.default_settings
    /\ (AppLogic.visible w = true /\ AppLogic.connected w = true /\ AppLogic.alive w = true)
    /\ AppLogic.last_search_url_str st' = Some (BaseUrl Samples.valorant)
    /\ no_prompt tr.
Proof.
  apply (no_search_game_opens_base_url
           (AppLogic.mkEnv "Valorant - main menu" 0 "" None) Samples.fresh
           Samples.catalog "Valorant" Samples.valorant ConfigManager.default_settings);
    try reflexivity.
  discriminate.
Defined.

(** ** The cursor functions *)

Section Cursor.

Import WindowUtils.

Variable host : Host.
Hypothesis Hhost : windows_host host.

Lemma ShowCursor_run (bShow : bool) (c : Z) :
  ShowCursor host bShow c
  = (Ret (if bShow then c + 1 else c - 1)%Z,
     (if bShow then c + 1 else c - 1)%Z,
     [Called bShow (if bShow then c + 1 else c - 1)%Z]).
Proof.
  destruct Hhost as (_ & _ & Hok).
  unfold ShowCursor. rewrite run_get. cbv beta. rewrite Hok.
  cbv zeta. rewrite run_put. rewrite run_emit. cbv beta. reflexivity.
Qed.

Lemma show_loop_run (fuel : nat) (display_count : Z) :
  (Z.to_nat (- display_count) <= fuel)%nat ->
  exists tr,
    show_loop host fuel display_count display_count
    = (Ret (Some (Z.max display_count 0)), Z.max display_count 0, tr)
    /\ length (cursor_calls tr) = Z.to_nat (- display_count).
Proof.
  revert display_count. induction fuel as [|fuel IH]; intros dc Hfuel.
  - assert (0 <= dc)%Z by lia. simpl.
    destruct (dc <? 0)%Z eqn:Hneg; [lia|].
    exists []. rewrite Z.max_l by lia. split; [reflexivity|]. simpl. lia.
  - simpl. destruct (dc <? 0)%Z eqn:Hneg.
    + apply Z.ltb_lt in Hneg.
      rewrite (run_bind_ret _ _ _ _ _ _ (ShowCursor_run true dc)). cbv beta.
      unfold log. rewrite run_emit. cbv beta.
      destruct (IH (dc + 1)%Z) as (tr & -> & Hlen); [lia|].
      eexists. split.
      * simpl. rewrite Z.max_r by lia. rewrite (Z.max_r dc 0) by lia. reflexivity.
      * simpl. rewrite Hlen. lia.
    + apply Z.ltb_ge in Hneg.
      exists []. rewrite Z.max_l by lia. split; [reflexivity|]. simpl. lia.
Qed.

Lemma show_cursor_until_visible_run (fuel : nat) (c : Z) :
  (Z.to_nat (- (c + 1)) <= fuel)%nat ->
  exists tr,
    show_cursor_until_visible host fuel c = (Ret (Some tt), Z.max (c + 1) 0, tr)
    /\ length (cursor_calls tr) = S (Z.to_nat (- (c + 1))).
Proof.
  intros Hfuel. pose proof Hhost as (Hsys & Hct & _).
  unfold show_cursor_until_visible. rewrite decide_True by done. rewrite Hct.
  change (negb true) with false. cbv iota.
  unfold log. rewrite run_emit. cbv beta.
  destruct (show_loop_run fuel (c + 1) Hfuel) as (tr & Hloop & Hlen).
  erewrite run_try_ret; cycle 1.
  { rewrite (run_bind_ret _ _ _ _ _ _ (ShowCursor_run true c)). cbv beta.
    rewrite (run_bind_ret _ _ _ _ _ _ Hloop). cbv beta iota.
    rewrite run_emit. cbv beta. reflexivity. }
  eexists. split; [reflexivity|].
  simpl. unfold cursor_calls in *. rewrite omap_app. rewrite length_app, Hlen.
  simpl. lia.
Qed.

Lemma hide_loop_run (fuel : nat) (display_count : Z) :
  (Z.to_nat (display_count + 1) <= fuel)%nat ->
  exists tr,
    hide_loop host fuel display_count display_count
    = (Ret (Some (Z.min display_count (-1))), Z.min display_count (-1), tr)
    /\ length (cursor_calls tr) = Z.to_nat (display_count + 1).
Proof.
  revert display_count. induction fuel as [|fuel IH]; intros dc Hfuel.
  - assert (dc <= -1)%Z by lia. simpl.
    rewrite Z.min_l by lia.
    destruct (-1 <=? dc)%Z eqn:Hge.
    + destruct (dc <? 0)%Z eqn:Hneg; [|lia].
      exists []. split; [reflexivity|]. simpl. lia.
    + exists []. split; [reflexivity|]. simpl. lia.
  - simpl. destruct (-1 <=? dc)%Z eqn:Hge.
    + destruct (dc <? 0)%Z eqn:Hneg.
      * apply Z.ltb_lt in Hneg. rewrite Z.min_l by lia.
        exists []. split; [reflexivity|]. simpl. lia.
      * apply Z.ltb_ge in Hneg.
        rewrite (run_bind_ret _ _ _ _ _ _ (ShowCursor_run false dc)). cbv beta.
        unfold log. rewrite run_emit. cbv beta.
        destruct (IH (dc - 1)%Z) as (tr & -> & Hlen); [lia|].
        eexists. split.
        -- simpl. rewrite Z.min_r by lia. rewrite (Z.min_r dc (-1)) by lia. reflexivity.
        -- simpl. rewrite Hlen. lia.
    + apply Z.leb_gt in Hge. rewrite Z.min_l by lia.
      exists []. split; [reflexivity|]. simpl. lia.
Qed.

Lemma hide_cursor_completely_run (fuel : nat) (c : Z) :
  (Z.to_nat c <= fuel)%nat ->
  exists tr,
    hide_cursor_completely host fuel c = (Ret (Some tt), Z.min (c - 1) (-1), tr)
    /\ length (cursor_calls tr) = S (Z.to_nat c).
Proof.
  intros Hfuel. pose proof Hhost as (Hsys & Hct & _).
  unfold hide_cursor_completely. rewrite decide_True by done. rewrite Hct.
  change (negb true) with false. cbv iota.
  unfold log. rewrite run_emit. cbv beta.
  destruct (hide_loop_run fuel (c - 1)) as (tr & Hloop & Hlen); [lia|].
  erewrite run_try_ret; cycle 1.
  { rewrite (run_bind_ret _ _ _ _ _ _ (ShowCursor_run false c)). cbv beta.
    rewrite (run_bind_ret _ _ _ _ _ _ Hloop). cbv beta iota.
    rewrite run_emit. cbv beta. reflexivity. }
  eexists. split; [reflexivity|].
  simpl. unfold cursor_calls in *. rewrite omap_app. rewrite length_app, Hlen.
  simpl. lia.
Qed.

(** X23.  [show_cursor_until_visible] ends, and ends with the cursor
    shown: from a display counter [c] it makes one call of
    [ShowCursor(True)] and then one more for each step the counter is
    still below 0, and leaves the counter at [c + 1] or at 0, whichever
    is greater.  So a cursor that was already visible has its counter
    raised by one at every call. *)
Theorem show_cursor_until_visible_ends_visible (fuel : nat) (c : Z) :
  (Z.to_nat (- (c + 1)) <= fuel)%nat ->
  exists tr,
    show_cursor_until_visible host fuel c = (Ret (Some tt), Z.max (c + 1) 0, tr)
    /\ length (cursor_calls tr) = S (Z.to_nat (- (c + 1))).
Proof. apply show_cursor_until_visible_run. Qed.

(** X24.  [hide_cursor_completely] ends with the cursor hidden, the
    counter at [c - 1] or at -1, whichever is less; and whatever the
    counter was before, showing the cursor after hiding it leaves the
    counter at exactly 0. *)
Theorem hide_then_show_leaves_zero (fuel fuel' : nat) (c : Z) :
  (Z.to_nat c <= fuel)%nat ->
  (Z.to_nat (- c) <= fuel')%nat ->
  exists tr tr',
    hide_cursor_completely host fuel c = (Ret (Some tt), Z.min (c - 1) (-1), tr)
    /\ show_cursor_until_visible host fuel' (Z.min (c - 1) (-1)) = (Ret (Some tt), 0%Z, tr').
Proof.
  intros Hfuel Hfuel'.
  destruct (hide_cursor_completely_run fuel c Hfuel) as (tr & Hhide & _).
  destruct (show_cursor_until_visible_run fuel' (Z.min (c - 1) (-1)))
    as (tr' & Hshow & _); [lia|].
  exists tr, tr'. split; [exact Hhide|].
  rewrite Hshow. f_equal. f_equal. lia.
Qed.

End Cursor.

Lemma show_cursor_until_visible_ends_visible_witness :
  exists tr,
    WindowUtils.show_cursor_until_visible MoreFixtures.windows 2 (-3)%Z
    = (Ret (Some tt), Z.max (-3 + 1) 0, tr)
    /\ length (cursor_calls tr) = S (Z.to_nat (- (-3 + 1))).
Proof.
  apply (show_cursor_until_visible_ends_visible MoreFixtures.windows).
  - repeat split.
  - simpl. lia.
Defined.

Lemma hide_then_show_leaves_zero_witness :
  exists tr tr',
    WindowUtils.hide_cursor_completely MoreFixtures.windows 2 2%Z
    = (Ret (Some tt), Z.min (2 - 1) (-1), tr)
    /\ WindowUtils.show_cursor_until_visible MoreFixtures.windows 0 (Z.min (2 - 1) (-1))
       = (Ret (Some tt), 0%Z, tr').
Proof.
  apply (hide_then_show_leaves_zero MoreFixtures.windows).
  - repeat split.
  - simpl. lia.
  - simpl. lia.
Defined.

(** ** The hotkey form of the settings window *)

Section HotkeyForm.

Import MainWindow.

Lemma empty_key_not_available : EmptyString ∉ available_keys.
Proof. apply (bool_decide_unpack _). by vm_compute. Qed.

(** The boxes of a form that is laid out. *)
Lemma laid_out_boxes (f : Form) :
  laid_out f ->
  exists b1 b2 b3 b4,
    modifier_checkboxes f = [("Ctrl", b1); ("Shift", b2); ("Alt", b3); ("Win", b4)].
Proof.
  intros [Hnames _]. destruct f as [boxes key]. simpl in *.
  destruct boxes as [|[n1 b1] [|[n2 b2] [|[n3 b3] [|[n4 b4] [|]]]]]; try discriminate.
  injection Hnames as -> -> -> ->. by exists b1, b2, b3, b4.
Qed.

Lemma load_settings_to_ui_run (settings : AppSettings) (f : Form) :
  snd (fst (load_settings_to_ui settings f))
  = mkForm
      (map (fun box : string * bool =>
              (box.1,
               bool_decide (PyStr.lower box.1 ∈ map PyStr.lower (Modifiers (Hotkey settings)))
               || bool_decide (box.1 ∈ Modifiers (Hotkey settings))))
           (modifier_checkboxes f))
      (if bool_decide (Key (Hotkey settings) ∈ available_keys)
       then Key (Hotkey settings) else hotkey_combo f).
Proof.
  unfold load_settings_to_ui. rewrite run_emit. cbv beta.
  rewrite run_get. cbv beta zeta. rewrite run_put.
  by destruct (bool_decide (Key (Hotkey settings) ∈ available_keys)).
Qed.

(** [init_ui] as it stands: the name [QHBoxLayout] of line 103 is not
    bound in the module, so the method stops there with [NameError],
    the check boxes made and the combo box not. *)
Lemma init_ui_run (icon_exists : bool) (f : Form) :
  exists logs,
    init_ui icon_exists f
    = (Raise NameError,
       mkForm [("Ctrl", false); ("Shift", false); ("Alt", false); ("Win", false)]
              (hotkey_combo f),
       logs).
Proof.
  unfold init_ui, global. simpl bool_decide.
  destruct icon_exists; eexists; reflexivity.
Qed.

(** The keys of the combo box are short ASCII names. *)
Lemma available_keys_short (key : string) :
  key ∈ available_keys -> ascii_only key = true /\ (String.length key <= 3)%nat.
Proof.
  assert (H : Forall (fun k => ascii_only k = true /\ (String.length k <= 3)%nat)
                available_keys).
  { vm_compute. repeat constructor. }
  intros Hin. by apply (proj1 (Forall_forall _ _) H).
Qed.

(** X25.  Whatever a settings window that is laid out shows, the hotkey
    it saves is one the registrar understands: loading settings into a
    form that is laid out keeps it so, and the configuration made of
    such a form has a key of the combo box and only modifiers
    [_parse_hotkey] knows, so parsing it returns the combination, logs
    no warning and does not reach the [ValueError] of line 69, whatever
    the interpreter.  [init_ui] itself, as it stands, lays out no form:
    it raises [NameError] at line 103, where it names [QHBoxLayout],
    after the check boxes are made and before the combo box is. *)
Theorem form_hotkey_is_understood :
  (forall icon_exists f,
     exists logs,
       init_ui icon_exists f
       = (Raise NameError,
          mkForm [("Ctrl", false); ("Shift", false); ("Alt", false); ("Win", false)]
                 (hotkey_combo f),
          logs))
  /\ (forall settings f, laid_out f -> laid_out (snd (fst (load_settings_to_ui settings f))))
  /\ (forall platform f st,
        laid_out f ->
        Key (new_hotkey_config f) <> EmptyString
        /\ Forall (fun m => known_modifier m = true) (Modifiers (new_hotkey_config f))
        /\ HotkeyManager._parse_hotkey platform (Some (new_hotkey_config f)) st
           = (Ret (Some (hotkey_string (new_hotkey_config f))), st,
              [HotkeyManager.Logged DEBUG
                 ("Parsed hotkey string: " +:+ hotkey_string (new_hotkey_config f))])).
Proof.
  split; [|split].
  - apply init_ui_run.
  - intros settings f [Hnames Hkey]. rewrite load_settings_to_ui_run.
    split; simpl.
    + rewrite <- Hnames. rewrite <- list_fmap_compose. by apply list_fmap_ext.
    + case_bool_decide; done.
  - intros platform f st Hf.
    destruct (laid_out_boxes f Hf) as (b1 & b2 & b3 & b4 & Hboxes).
    destruct Hf as [_ Hkey]. split.
    + simpl. intros Heq. rewrite Heq in Hkey. by apply empty_key_not_available.
    + split.
      * unfold new_hotkey_config, selected_modifiers. simpl Modifiers. rewrite Hboxes.
        destruct b1, b2, b3, b4; repeat constructor.
      * rewrite _parse_hotkey_reads.
        -- f_equal.
           assert (modifier_warnings (Modifiers (new_hotkey_config f)) = []) as ->; [|done].
           unfold new_hotkey_config, selected_modifiers. simpl Modifiers. rewrite Hboxes.
           destruct b1, b2, b3, b4; reflexivity.
        -- destruct (available_keys_short _ Hkey) as [Ha Hlen].
           apply reads_ascii_key; [exact Ha|]. left.
           unfold PyStr.str_digits_check_threshold. simpl Key. lia.
Qed.

(** X26.  Showing a hotkey that the window itself saved gives it back:
    load the configuration made of one form into any other form, and
    the configuration made of that form is the same, key and modifiers,
    in the same order. *)
Theorem form_round_trip (f f0 : Form) (popup : PopupConfig) :
  laid_out f ->
  laid_out f0 ->
  new_hotkey_config
    (snd (fst (load_settings_to_ui (mkAppSettings (new_hotkey_config f) popup) f0)))
  = new_hotkey_config f.
Proof.
  intros Hf Hf0.
  destruct (laid_out_boxes f Hf) as (b1 & b2 & b3 & b4 & Hboxes).
  destruct (laid_out_boxes f0 Hf0) as (c1 & c2 & c3 & c4 & Hboxes0).
  destruct Hf as [_ Hkey].
  rewrite load_settings_to_ui_run. simpl Hotkey.
  unfold new_hotkey_config at 1. simpl hotkey_combo.
  rewrite bool_decide_eq_true_2 by exact Hkey.
  unfold new_hotkey_config, selected_modifiers. simpl. rewrite Hboxes0, Hboxes.
  f_equal. destruct b1, b2, b3, b4; by vm_compute.
Qed.

End HotkeyForm.

Lemma form_hotkey_is_understood_witness :
  Key (MainWindow.new_hotkey_config MoreFixtures.ctrl_alt_g) <> EmptyString
  /\ Forall (fun m => known_modifier m = true)
            (Modifiers (MainWindow.new_hotkey_config MoreFixtures.ctrl_alt_g))
  /\ HotkeyManager._parse_hotkey Samples.willing
       (Some (MainWindow.new_hotkey_config MoreFixtures.ctrl_alt_g))
       (HotkeyManager.init None)
     = (Ret (Some (hotkey_string (MainWindow.new_hotkey_config MoreFixtures.ctrl_alt_g))),
        HotkeyManager.init None,
        [HotkeyManager.Logged DEBUG
           ("Parsed hotkey string: "
            +:+ hotkey_string (MainWindow.new_hotkey_config MoreFixtures.ctrl_alt_g))]).
Proof.
  apply (proj2 (proj2 form_hotkey_is_understood)).
  split; [reflexivity|]. apply (bool_decide_unpack _). by vm_compute.
Defined.

Lemma form_round_trip_witness :
  MainWindow.new_hotkey_config
    (snd (fst (MainWindow.load_settings_to_ui
                 (mkAppSettings (MainWindow.new_hotkey_config MoreFixtures.ctrl_alt_g)
                    PopupConfig_default)
                 MoreFixtures.unchecked_f1)))
  = MainWindow.new_hotkey_config MoreFixtures.ctrl_alt_g.
Proof.
  apply (form_round_trip MoreFixtures.ctrl_alt_g MoreFixtures.unchecked_f1
           PopupConfig_default).
  - split; [reflexivity|]. apply (bool_decide_unpack _). by vm_compute.
  - split; [reflexivity|]. apply (bool_decide_unpack _). by vm_compute.
Defined.

Section WindowSave.

Import MainWindow.

Variable validate_AppSettings : list (string * json) -> option AppSettings.

Lemma window_on_disk_run {A} (m : ConfigManager.CM A) (st : State)
    (r : Res A) (d : ConfigManager.Disk) (logs : list LogRecord) :
  m (disk st) = (r, d, logs) ->
  on_disk m st
  = (r, mkState (form st) d,
     map (fun l => match l with Log lvl msg => Logged lvl msg end) logs).
Proof. intros H. unfold on_disk. by rewrite H. Qed.

Lemma logged_is_no_box (logs : list LogRecord) (e : Effect) :
  (forall lvl msg, e <> Logged lvl msg) ->
  e ∉ map (fun l => match l with Log lvl msg => Logged lvl msg end) logs.
Proof.
  intros He Hin. apply list_elem_of_fmap in Hin as ([lvl msg] & -> & _).
  by apply (He lvl msg).
Qed.

(** X27.  Saving in the settings window rewrites the settings file with
    the hotkey of the form and the popup settings that were loaded from
    it: the file then holds what [model_dump_json] makes of the two.
    The file is written before the callback runs, so when the callback
    raises the window reports that the settings could not be saved, and
    stays open, although they have been saved. *)
Theorem window_save_writes_hotkey_keeps_popup
    (on_save_hotkey_callback : option (HotkeyConfig -> option PyExn))
    (st : State) (s0 : AppSettings) (d0 : ConfigManager.Disk) (l0 : list LogRecord) :
  ConfigManager.load_settings validate_AppSettings (disk st) = (Ret s0, d0, l0) ->
  can_save d0 ->
  exists st' tr f,
    _save_settings_and_apply validate_AppSettings on_save_hotkey_callback st
    = (Ret tt, st', tr)
    /\ form st' = form st
    /\ ConfigManager.user_settings_path (disk st') = Some f
    /\ ConfigManager.content f
       = ConfigManager.Document
           (Pydantic.AppSettings_dump
              (mkAppSettings (new_hotkey_config (form st)) (Popup s0)))
    /\ (if callback_fails on_save_hotkey_callback (new_hotkey_config (form st))
        then Critical "Error" "Could not save settings" ∈ tr /\ Hide ∉ tr
        else Information "Settings Saved" "Hotkey settings have been saved and applied." ∈ tr
             /\ Hide ∈ tr).
Proof.
  intros Hload Hcan.
  destruct (save_settings_can_save
              (mkAppSettings (new_hotkey_config (form st)) (Popup s0)) d0 Hcan)
    as (f & logs & Hsave & Hc & _ & _).
  pose proof (window_on_disk_run _ st _ _ _ Hload) as Hrun1.
  pose proof (window_on_disk_run _ (mkState (form st) d0) _ _ _ Hsave) as Hrun2.
  simpl form in Hrun2.
  unfold _save_settings_and_apply. rewrite run_get. cbv beta zeta.
  unfold callback_fails.
  destruct on_save_hotkey_callback as [callback|];
    [destruct (callback (new_hotkey_config (form st))) as [e|] eqn:Hcb|].
  - erewrite run_try_raise; cycle 1.
    { rewrite (run_bind_ret _ _ _ _ _ _ Hrun1). cbv beta zeta.
      rewrite (run_bind_ret _ _ _ _ _ _ Hrun2). cbv beta.
      erewrite run_bind_raise; [reflexivity|].
      rewrite run_emit. cbv beta. reflexivity. }
    rewrite run_emit. cbv beta.
    eexists _, _, f. split; [reflexivity|]. split; [done|].
    split; [reflexivity|]. split; [exact Hc|].
    simpl. split.
    + rewrite ?elem_of_app, ?elem_of_cons. naive_solver.
    + rewrite ?not_elem_of_app, ?not_elem_of_cons.
      repeat split; try (by apply logged_is_no_box); try done; apply not_elem_of_nil.
  - erewrite run_try_ret; cycle 1.
    { rewrite (run_bind_ret _ _ _ _ _ _ Hrun1). cbv beta zeta.
      rewrite (run_bind_ret _ _ _ _ _ _ Hrun2). cbv beta.
      erewrite run_bind_ret; cycle 1.
      { rewrite run_emit. cbv beta. reflexivity. }
      cbv beta. rewrite run_emit. cbv beta. reflexivity. }
    eexists _, _, f. split; [reflexivity|]. split; [done|].
    split; [reflexivity|]. split; [exact Hc|].
    simpl. rewrite ?elem_of_app, ?elem_of_cons. naive_solver.
  - erewrite run_try_ret; cycle 1.
    { rewrite (run_bind_ret _ _ _ _ _ _ Hrun1). cbv beta zeta.
      rewrite (run_bind_ret _ _ _ _ _ _ Hrun2). cbv beta.
      rewrite run_ret. rewrite run_emit. cbv beta. reflexivity. }
    eexists _, _, f. split; [reflexivity|]. split; [done|].
    split; [reflexivity|]. split; [exact Hc|].
    simpl. rewrite ?elem_of_app, ?elem_of_cons. naive_solver.
Qed.

End WindowSave.

Lemma window_save_writes_hotkey_keeps_popup_witness :
  exists st' tr f,
    MainWindow._save_settings_and_apply Pydantic.AppSettings_validate
      (Some (fun _ => Some RuntimeError))
      (MainWindow.mkState MoreFixtures.ctrl_alt_g MoreFixtures.custom_disk)
    = (Ret tt, st', tr)
    /\ MainWindow.form st' = MoreFixtures.ctrl_alt_g
    /\ ConfigManager.user_settings_path (MainWindow.disk st') = Some f
    /\ ConfigManager.content f
       = ConfigManager.Document
           (Pydantic.AppSettings_dump
              (mkAppSettings (mkHotkeyConfig "G" ["Ctrl"; "Alt"])
                 (Popup Fixtures.custom_settings)))
    /\ MainWindow.Critical "Error" "Could not save settings" ∈ tr
    /\ MainWindow.Hide ∉ tr.
Proof.
  apply (window_save_writes_hotkey_keeps_popup Pydantic.AppSettings_validate
           (Some (fun _ => Some RuntimeError))
           (MainWindow.mkState MoreFixtures.ctrl_alt_g MoreFixtures.custom_disk)
           Fixtures.custom_settings MoreFixtures.custom_disk []).
  - reflexivity.
  - split; [left; reflexivity | split; reflexivity].
Defined.

Section SaveHotkey.

Import AppServices.

Variable platform : HotkeyManager.Platform.

Lemma in_hotkey_manager_run {A} (m : HotkeyManager.HM A) (st : State)
    (r : Res A) (h : HotkeyManager.State) (tr : list HotkeyManager.Effect) :
  m (hotkey_manager st) = (r, h, tr) ->
  in_hotkey_manager m st = (r, mkState (logic st) h, map OfHotkeyManager tr).
Proof. intros H. unfold in_hotkey_manager. by rewrite H. Qed.

(** Re-registering, whatever the platform answers and whatever the
    key. *)
Lemma reregister_hotkeys_run (c : HotkeyConfig) (cb : option HotkeyManager.Callback)
    (h : HotkeyManager.State) :
  exists h' tr,
    HotkeyManager.reregister_hotkeys platform c cb h
    = ((if reads_key platform (Key c) then Ret (granted platform c) else Raise ValueError),
       h', tr)
    /\ HotkeyManager.listener h'
       = (if granted platform c
          then Some (HotkeyManager.mkListener (hotkey_string c) true) else None)
    /\ HotkeyManager.hotkey_active h' = granted platform c
    /\ (forall l, HotkeyManager.listener h = Some l -> torn_down_first platform l tr).
Proof.
  rewrite reregister_hotkeys_unfold.
  set (h1 := HotkeyManager.mkState _ None _ false).
  assert (Hneeds : active_needs_listener h1) by (by intros _).
  assert (Htear : forall r h' post l,
            HotkeyManager.listener h = Some l ->
            torn_down_first platform l
              (snd (prepend
                      (HotkeyManager.Logged INFO "Reregistering hotkeys"
                       :: match HotkeyManager.listener h with
                          | Some l => teardown platform l
                          | None => []
                          end ++ [HotkeyManager.Logged INFO "Global hotkey unregistered."])
                      (r : Res bool, h' : HotkeyManager.State, post)))).
  { intros r h' post l ->. simpl. apply reregister_teardown. }
  unfold granted.
  destruct (decide (Key c = EmptyString)) as [Hk|Hk].
  - destruct (register_invalid_config platform (Some c) cb h1)
      as (h' & tr & -> & Hl & _ & Ha & _).
    { right. by exists c. }
    rewrite Hk. eexists _, _. split; [reflexivity|].
    split; [by rewrite Hl|]. split; [by rewrite Ha|].
    intros l Hold. by apply (Htear (Ret false) h' tr l).
  - assert (PyStr.truthy (Key c) = true) as -> by (by apply truthy_true_iff).
    simpl andb.
    destruct (reads_key platform (Key c)) eqn:Hread; cycle 1.
    { destruct (register_unreadable_key platform c cb h1 Hk Hread)
        as (h' & tr & -> & Hl & Ha & _).
      eexists _, _. split; [reflexivity|].
      split; [by rewrite Hl|]. split; [by rewrite Ha|].
      intros l Hold. by apply (Htear (Raise ValueError) h' tr l). }
    simpl andb.
    destruct (HotkeyManager.accepts platform (hotkey_string c)) eqn:Hacc;
      [destruct (HotkeyManager.starts platform (hotkey_string c)) eqn:Hst|].
    + destruct (register_accepted platform c cb h1 Hk Hread Hacc Hst Hneeds)
        as (h' & -> & Hl & Ha & _).
      eexists _, _. split; [reflexivity|].
      split; [by rewrite Hl|]. split; [by rewrite Ha|].
      intros l Hold. by apply (Htear (Ret true) h' _ l).
    + destruct (register_rejected platform c cb h1 Hk Hread (or_intror Hst) Hneeds)
        as (h' & tr & -> & Hl & Ha & _).
      eexists _, _. split; [reflexivity|].
      split; [by rewrite Hl|]. split; [by rewrite Ha|].
      intros l Hold. by apply (Htear (Ret false) h' tr l).
    + destruct (register_rejected platform c cb h1 Hk Hread (or_introl Hacc) Hneeds)
        as (h' & tr & -> & Hl & Ha & _).
      eexists _, _. split; [reflexivity|].
      split; [by rewrite Hl|]. split; [by rewrite Ha|].
      intros l Hold. by apply (Htear (Ret false) h' tr l).
Qed.

Lemma hotkey_effects_app (a b : list Effect) :
  hotkey_effects (a ++ b) = hotkey_effects a ++ hotkey_effects b.
Proof. unfold hotkey_effects. apply omap_app. Qed.

Lemma hotkey_effects_of_manager (tr : list HotkeyManager.Effect) :
  hotkey_effects (map OfHotkeyManager tr) = tr.
Proof. induction tr as [|e r IH]; [done|]. simpl. by rewrite IH. Qed.

Lemma notify_run (message title : string) (st : State) :
  exists tr, notify message title st = (Ret tt, st, tr) /\ hotkey_effects tr = [].
Proof.
  unfold notify. rewrite run_get. cbv beta.
  destruct (AppLogic.tray_icon (logic st)); by eexists.
Qed.

(** X28.  Applying a hotkey saved in the settings window puts the new
    hotkey into the orchestrator's settings before it re-registers, and
    keeps the popup settings: the settings hold the new hotkey whatever
    becomes of the registration.  The listener that was registered is
    torn down first in every case.  When the platform refuses the new
    combination the method returns, and when line 69 cannot read the
    key its [ValueError] leaves the method, which has no [try]; either
    way the settings then name a hotkey that is not registered, while
    the old one is gone as well.  Without settings nothing is done at
    all. *)
Theorem save_hotkey_updates_settings_before_registering
    (new_hotkey_config : HotkeyConfig) (st : State) :
  exists st' tr,
    _handle_save_hotkey platform new_hotkey_config st
    = ((if AppLogic.settings (logic st) is Some _
        then if reads_key platform (Key new_hotkey_config)
             then Ret tt else Raise ValueError
        else Ret tt),
       st', tr)
    /\ match AppLogic.settings (logic st) with
       | Some s =>
           AppLogic.settings (logic st')
           = Some (mkAppSettings new_hotkey_config (Popup s))
           /\ HotkeyManager.listener (hotkey_manager st')
              = (if granted platform new_hotkey_config
                 then Some (HotkeyManager.mkListener (hotkey_string new_hotkey_config) true)
                 else None)
           /\ HotkeyManager.hotkey_active (hotkey_manager st')
              = granted platform new_hotkey_config
           /\ (forall l,
                 HotkeyManager.listener (hotkey_manager st) = Some l ->
                 torn_down_first platform l (hotkey_effects tr))
       | None => st' = st /\ hotkey_effects tr = []
       end.
Proof.
  unfold _handle_save_hotkey, log. rewrite run_emit. cbv beta.
  rewrite run_get. cbv beta.
  destruct (AppLogic.settings (logic st)) as [s|] eqn:Hs.
  - rewrite run_modify.
    destruct (reregister_hotkeys_run new_hotkey_config (Some _emit_hotkey_signal)
                (hotkey_manager st)) as (h' & tr1 & Hre & Hl & Ha & Htear).
    pose proof (in_hotkey_manager_run _
                  (set_logic (AppLogic.set_settings
                                (Some (mkAppSettings new_hotkey_config (Popup s)))) st)
                  _ _ _ Hre) as Hin.
    destruct (reads_key platform (Key new_hotkey_config)) eqn:Hread.
    + rewrite (run_bind_ret _ _ _ _ _ _ Hin). cbv beta.
      destruct (granted platform new_hotkey_config);
        match goal with
        | |- context [notify ?m ?t ?s] => destruct (notify_run m t s) as (tr2 & -> & Hn)
        end;
        eexists _, _; (split; [reflexivity|]); (repeat split; try done);
        intros l Hold; simpl;
        rewrite hotkey_effects_app, hotkey_effects_of_manager, Hn, app_nil_r;
        by apply Htear.
    + rewrite (run_bind_raise _ _ _ _ _ _ Hin).
      eexists _, _. split; [reflexivity|]. repeat split; try done.
      intros l Hold. simpl. rewrite hotkey_effects_of_manager. by apply Htear.
  - eexists _, _. split; [reflexivity|]. done.
Qed.

End SaveHotkey.

Section Press.

Import HotkeyManager HotkeyPress.

Variable platform : Platform.
Variable callback_raises : Callback -> option PyExn.

Lemma on_press_internal_run (s : State) :
  exists tr,
    _on_press_internal callback_raises s = (Ret tt, s, tr)
    /\ invoked tr = match on_hotkey_pressed_callback s with
                    | Some cb => [cb]
                    | None => []
                    end.
Proof.
  unfold _on_press_internal. rewrite run_get. cbv beta. rewrite run_emit. cbv beta.
  destruct (on_hotkey_pressed_callback s) as [cb|].
  - destruct (callback_raises cb) as [e|].
    + erewrite run_try_raise; cycle 1.
      { rewrite run_emit. cbv beta. reflexivity. }
      eexists. split; reflexivity.
    + erewrite run_try_ret; cycle 1.
      { rewrite run_emit. cbv beta. reflexivity. }
      eexists. split; reflexivity.
  - eexists. split; reflexivity.
Qed.

(** X29.  A press of the hotkey calls the callback given with the
    latest registration that brought one, whether that registration
    succeeded or not, and else the one the manager had; it calls it
    once, contains whatever exception it ends in, and leaves the manager
    as it was.  With no callback at all nothing is called. *)
Theorem press_calls_latest_callback
    (hotkey_config : option HotkeyConfig) (cb : option Callback) (st : State) :
  exists tr,
    _on_press_internal callback_raises
      (snd (fst (register_global_hotkey platform hotkey_config cb st)))
    = (Ret tt, snd (fst (register_global_hotkey platform hotkey_config cb st)), tr)
    /\ invoked tr
       = match cb, on_hotkey_pressed_callback st with
         | Some c, _ => [c]
         | None, Some c => [c]
         | None, None => []
         end.
Proof.
  destruct (on_press_internal_run
              (snd (fst (register_global_hotkey platform hotkey_config cb st))))
    as (tr & Hrun & Hinv).
  exists tr. split; [exact Hrun|].
  rewrite Hinv, register_stores_callback. by destruct cb.
Qed.

End Press.

(** ** The catalog: what never happens *)

Section CatalogErrors.

Import ConfigManager.

Variable validate_GameConfig : list (string * json) -> option GameConfig.

(** X30.  [load_game_configs] never writes, and it raises in one case
    only: the existence test of line 136, which stands before the
    [try], raises where [stat] fails on the catalog path, and that
    exception leaves the method with nothing logged.  Once the test has
    returned, the method returns a catalog whatever is on the disk and
    whatever the validator says; and a catalog document that is absent,
    unreadable, malformed, given up on by [json.load], or JSON that is
    no object gives the empty catalog. *)
Theorem load_game_configs_raises_only_from_exists (d : Disk) :
  (exists r logs,
     load_game_configs validate_GameConfig d = (r, d, logs)
     /\ (r = Raise PermissionError
         <-> default_games_config_path d = None /\ games_path_stat_fails d = true)
     /\ (r <> Raise PermissionError -> exists cfgs, r = Ret cfgs)
     /\ (r = Raise PermissionError -> logs = []))
  /\ ((default_games_config_path d = None /\ games_path_stat_fails d = false)
      \/ (exists f, default_games_config_path d = Some f
                    /\ (readable f = false
                        \/ (exists raw, content f = Garbage raw)
                        \/ (exists raw why, content f = Refused raw why)
                        \/ (exists j, content f = Document j
                                      /\ forall members, j <> JObj members))) ->
      exists logs, load_game_configs validate_GameConfig d = (Ret [], d, logs)).
Proof.
  split; [|apply load_game_configs_unusable].
  destruct (default_games_config_path d) as [f|] eqn:Hf;
    [|destruct (games_path_stat_fails d) eqn:Hs].
  - destruct (load_game_configs_total validate_GameConfig d) as (cfgs & logs & ->).
    { by rewrite Hf. }
    eexists _, _. split; [reflexivity|]. split; [|split].
    + split; [done | by intros [? _]].
    + intros _. by eexists.
    + done.
  - rewrite (load_game_configs_hidden validate_GameConfig d Hf Hs).
    eexists _, _. split; [reflexivity|]. by repeat split.
  - destruct (load_game_configs_total validate_GameConfig d) as (cfgs & logs & ->).
    { by rewrite Hs. }
    eexists _, _. split; [reflexivity|]. split; [|split].
    + split; [done | by intros [_ ?]].
    + intros _. by eexists.
    + done.
Qed.

End CatalogErrors.

Lemma load_game_configs_raises_only_from_exists_witness :
  exists logs,
    ConfigManager.load_game_configs Pydantic.GameConfig_validate
      (Samples.games_disk (JArr [JStr "Valorant"]))
    = (Ret [], Samples.games_disk (JArr [JStr "Valorant"]), logs).
Proof.
  apply (proj2 (load_game_configs_raises_only_from_exists Pydantic.GameConfig_validate
                  (Samples.games_disk (JArr [JStr "Valorant"])))).
  right. eexists. split; [reflexivity|].
  right. right. right. eexists. split; [reflexivity|]. discriminate.
Defined.

Lemma load_settings_recovers_witness :
  exists logs,
    ConfigManager.load_settings Pydantic.AppSettings_validate Samples.garbage_settings_disk
    = (Ret ConfigManager.default_settings,
       ConfigManager.with_user_settings Samples.garbage_settings_disk
         (Some (ConfigManager.mkFile
                  (ConfigManager.Document
                     (Pydantic.AppSettings_dump ConfigManager.default_settings))
                  true true)),
       logs).
Proof.
  apply (proj1 (load_settings_recovers Pydantic.AppSettings_validate
                  Samples.garbage_settings_disk
                  (ConfigManager.mkFile (ConfigManager.Garbage "{ not json") true true)
                  eq_refl eq_refl eq_refl eq_refl)).
  left. eexists. reflexivity.
Defined.
